(** * Pairwise keystroke-dynamics dataset generator (pair_data.py)

    A shallow embedding of [extract_pairs], [get_pair_data],
    [abs_diff_between_all_row_pairs] and [cartesian_product], together with
    the parts of pandas and numpy these four functions call.

    - A data frame is a list of column labels and a list of rows.
    - Python objects that are mutated in place (the frames handed to
      [cartesian_product]) live in an object store; a frame variable of the
      source is a reference into that store, so that aliasing
      ([DF_data_B = DF_data_A]) is the aliasing of the source.
    - A Python exception is the [Raise] outcome of a computation.

    The second part of the definitions embeds read_data.py (the class
    [UserData] and [produce_whole_DF], over an abstract file system) and
    [plot_user_sequences] of plots.py (the calls to matplotlib are the
    output). *)

From Stdlib Require Import ZArith Lia Ascii.
From stdpp Require Import base option list strings.

Set Default Proof Using "Type".

(** ** Cells, exceptions, results *)

(** What one cell of a frame holds. [Num] stands for a numpy/pandas number
    (the timing features, the synthetic 0 and the synthetic row numbers),
    [Str] for text such as a user name, [Seq] for a variable-length timing
    sequence (a numpy array stored in an object column), [NaN] for the
    missing value [pd.concat] fills in. *)
Inductive cell :=
  | Num (z : Z)
  | Str (s : string)
  | Seq (s : list Z)
  | NaN.

#[global] Instance cell_eq_dec : EqDecision cell.
Proof. solve_decision. Defined.

Inductive exn :=
  | ValueError (msg : string)
  | KeyError (key : string)
  | IndexError (msg : string)
  | TypeError (msg : string)
  | ReferenceError (msg : string).

#[global] Instance exn_eq_dec : EqDecision exn.
Proof. solve_decision. Defined.

Inductive result (A : Type) :=
  | Ok (a : A)
  | Raise (e : exn).
Arguments Ok {A} a.
Arguments Raise {A} e.

#[global] Instance result_ret : MRet result := λ A a, Ok a.

#[global] Instance result_bind : MBind result := λ A B k m,
  match m with
  | Ok a => k a
  | Raise e => Raise e
  end.

(** ** Data frames *)

Record DataFrame := mkDF {
  columns : list string;
  rows : list (list cell)
}.

#[global] Instance DataFrame_eq_dec : EqDecision DataFrame.
Proof. solve_decision. Defined.

(** [df.shape] *)
Definition shape (df : DataFrame) : nat * nat :=
  (length (rows df), length (columns df)).

(** Every row has one cell per column label. *)
Definition well_formed (df : DataFrame) : Prop :=
  Forall (λ r, length r = length (columns df)) (rows df).

(** Position of the first column labelled [c]. *)
Fixpoint col_index (c : string) (cols : list string) : option nat :=
  match cols with
  | [] => None
  | c' :: cs => if decide (c = c') then Some 0 else S <$> col_index c cs
  end.

Definition cell_at (r : list cell) (p : nat) : cell := default NaN (r !! p).

(** [df[c]] read: the column as a list, [KeyError] when absent. *)
Definition getitem (df : DataFrame) (c : string) : result (list cell) :=
  match col_index c (columns df) with
  | Some p => Ok (map (λ r, cell_at r p) (rows df))
  | None => Raise (KeyError c)
  end.

(** [df[c] = v] on a frame value: overwrite the column when the label is
    present, append a new last column otherwise.  [v i] is the value for
    row number [i] (a constant function for a scalar, [λ i, Num i] for
    [range(df.shape[0])]). *)
Definition setitem (df : DataFrame) (c : string) (v : nat → cell) : DataFrame :=
  match col_index c (columns df) with
  | Some p => mkDF (columns df) (imap (λ i r, <[p := v i]> r) (rows df))
  | None => mkDF (columns df ++ [c]) (imap (λ i r, r ++ [v i]) (rows df))
  end.

(** Rows (or any per-row data) selected by a boolean mask. *)
Definition select {A} (mask : list bool) (l : list A) : list A :=
  map snd (List.filter (λ p, p.1) (zip mask l)).

(** The cells of [r] whose column label satisfies [keep]. *)
Definition keep_labelled (keep : string → bool) (cols : list string)
    (r : list cell) : list cell :=
  map snd (List.filter (λ p, keep p.1) (zip cols r)).

(** [df.loc[mask, names]]: a new frame with the masked rows and the named
    columns in the order asked for; [KeyError] on a label that is absent.
    The message pandas puts in the exception is not modelled: the payload
    here is the first absent label, and nothing below depends on it. *)
Definition loc (df : DataFrame) (mask : list bool) (names : list string)
    : result DataFrame :=
  ps ← mapM (λ c, match col_index c (columns df) with
                  | Some p => Ok p
                  | None => Raise (KeyError c)
                  end) names;
  Ok (mkDF names (map (λ r, map (cell_at r) ps) (select mask (rows df)))).

Definition neqb (c c' : string) : bool := bool_decide (c' ≠ c).

(** [df.drop(c, axis=1)]: removes the columns labelled [c]; [KeyError] when
    there is none. *)
Definition drop_column (df : DataFrame) (c : string) : result DataFrame :=
  if bool_decide (c ∈ columns df)
  then Ok (mkDF (List.filter (neqb c) (columns df))
             (map (keep_labelled (neqb c) (columns df)) (rows df)))
  else Raise (KeyError c).

(** [pd.merge(A, B, on=key, suffixes=suffixes)], an inner join: every left
    row, in order, is paired with every right row, in order, that has the
    same key.  The key column is kept once; a non-key label present on both
    sides gets the side's suffix. *)
Definition merge (A B : DataFrame) (key : string) (suffixes : string * string)
    : result DataFrame :=
  match col_index key (columns A), col_index key (columns B) with
  | Some pa, Some pb =>
      let left_cols :=
        map (λ c, if bool_decide (c ≠ key ∧ c ∈ columns B)
                  then c +:+ suffixes.1 else c) (columns A) in
      let right_cols :=
        map (λ c, if bool_decide (c ∈ columns A)
                  then c +:+ suffixes.2 else c)
            (List.filter (neqb key) (columns B)) in
      Ok (mkDF (left_cols ++ right_cols)
            (flat_map
               (λ ra, map (λ rb, ra ++ keep_labelled (neqb key) (columns B) rb)
                        (List.filter
                           (λ rb, bool_decide (cell_at rb pb = cell_at ra pa))
                           (rows B)))
               (rows A)))
  | _, _ => Raise (KeyError key)
  end.

(** Column labels of several frames, each once, by first appearance. *)
Definition union_columns (dfs : list DataFrame) : list string :=
  foldl (λ acc df,
           foldl (λ acc c, if bool_decide (c ∈ acc) then acc else acc ++ [c])
                 acc (columns df))
        [] dfs.

(** The rows of [df] laid out under the labels [cols], [NaN] where [df] has
    no such column. *)
Definition reindex (cols : list string) (df : DataFrame) : list (list cell) :=
  map (λ r, map (λ c, match col_index c (columns df) with
                      | Some p => cell_at r p
                      | None => NaN
                      end) cols)
      (rows df).

(** [pd.concat(dfs)]: rows one frame after the other.  Frames with the same
    labels are stacked as they are; otherwise the result has the union of
    the labels and [NaN] where a frame lacks one.  An empty list raises. *)
Definition pd_concat (dfs : list DataFrame) : result DataFrame :=
  match dfs with
  | [] => Raise (ValueError "No objects to concatenate")
  | df0 :: _ =>
      if forallb (λ df, bool_decide (columns df = columns df0)) dfs
      then Ok (mkDF (columns df0) (concat (map rows dfs)))
      else let cols := union_columns dfs in
           Ok (mkDF cols (concat (map (reindex cols) dfs)))
  end.

(** [pd.unique(col)]: the distinct values by first appearance.  Arrays are
    not hashable. *)
Definition pd_unique (col : list cell) : result (list cell) :=
  if existsb (λ c, match c with Seq _ => true | _ => false end) col
  then Raise (TypeError "unhashable type: 'numpy.ndarray'")
  else Ok (foldl (λ acc c, if bool_decide (c ∈ acc) then acc else acc ++ [c])
             [] col).

(** [col == v], element by element; [NaN] equals nothing. *)
Definition cell_eqb (a b : cell) : bool :=
  match a, b with
  | NaN, _ | _, NaN => false
  | _, _ => bool_decide (a = b)
  end.

(** [a > b] on cells: the order of numbers; no other pair is greater. *)
Definition cell_gtb (a b : cell) : bool :=
  match a, b with
  | Num x, Num y => (y <? x)%Z
  | _, _ => false
  end.

(** ** numpy *)

(** [range(a, b)] *)
Definition range (a b : nat) : list nat := seq a (b - a).

(** [np.concatenate] of a list of 2-d arrays along the first axis. *)
Definition np_concatenate (arrays : list (list (list cell)))
    : result (list (list cell)) :=
  match arrays with
  | [] => Raise (ValueError "need at least one array to concatenate")
  | _ => Ok (concat arrays)
  end.

Fixpoint chunks (n width : nat) (flat : list cell) : list (list cell) :=
  match n with
  | 0 => []
  | S n' => take width flat :: chunks n' width (drop width flat)
  end.

(** [np.reshape(a, [-1, width])] on the cells of [a] in C order. *)
Definition np_reshape (flat : list cell) (width : nat)
    : result (list (list cell)) :=
  if bool_decide (width = 0)
  then Raise (ValueError "cannot reshape array into shape (-1, 0)")
  else if bool_decide (length flat `mod` width = 0)
  then Ok (chunks (length flat `div` width) width flat)
  else Raise (ValueError "cannot reshape array")%string.

(** [pd.DataFrame(data, columns=cols)] *)
Definition pd_DataFrame (data : list (list cell)) (cols : list string)
    : result DataFrame :=
  if forallb (λ r, bool_decide (length r = length cols)) data
  then Ok (mkDF cols data)
  else Raise (ValueError "Shape of passed values does not match columns").

(** Width of the last axis after broadcasting widths [wa] and [wb]. *)
Definition broadcast_width (wa wb : nat) : result nat :=
  if bool_decide (wa = wb) then Ok wa
  else if bool_decide (wa = 1) then Ok wb
  else if bool_decide (wb = 1) then Ok wa
  else Raise (ValueError "operands could not be broadcast together").

(** A row of width [w0] stretched to width [w]. *)
Definition stretch (w0 w : nat) (r : list cell) : list cell :=
  if bool_decide (w0 = w) then r else replicate w (cell_at r 0).

Section Engine.

(** The cell-level [np.abs(a - b)]: [|a - b|] on two numbers, and whatever
    numpy's arithmetic gives (a value or an exception) on other cells. *)
Variable abs_sub : cell → cell → result cell.

(** [np.abs(a - b)] on two rows of equal width. *)
Definition row_abs_diff (ra rb : list cell) : result (list cell) :=
  mapM (λ p, abs_sub p.1 p.2) (zip ra rb).

(** [np.abs(np.expand_dims(A, 0) - np.expand_dims(B, 1))]: an array of
    shape (rows of B, rows of A, width) whose entry [j, i] is
    [|A[i] - B[j]|]. *)
Definition broadcast_abs_diff (A B : DataFrame)
    : result (list (list (list cell))) :=
  let wa := length (columns A) in
  let wb := length (columns B) in
  w ← broadcast_width wa wb;
  mapM (λ rb,
          mapM (λ ra, row_abs_diff (stretch wa w ra) (stretch wb w rb))
               (rows A))
       (rows B).

End Engine.

(** An instance: what numpy computes on numbers, on missing values and on
    arrays of numbers (with numpy's rule for two lengths: equal, or one of
    them 1).  Text cannot be subtracted.  A missing value against an array
    is outside this instance and is made to raise as well. *)
Definition np_abs_sub (a b : cell) : result cell :=
  let d (x y : Z) := Z.abs (x - y) in
  match a, b with
  | Num x, Num y => Ok (Num (d x y))
  | NaN, (Num _ | NaN) | Num _, NaN => Ok NaN
  | Seq s, Num y => Ok (Seq (map (λ x, d x y) s))
  | Num x, Seq t => Ok (Seq (map (λ y, d x y) t))
  | Seq s, Seq t =>
      if bool_decide (length s = length t) then Ok (Seq (zip_with d s t))
      else match s, t with
           | [x], _ => Ok (Seq (map (λ y, d x y) t))
           | _, [y] => Ok (Seq (map (λ x, d x y) s))
           | _, _ =>
               Raise (ValueError "operands could not be broadcast together")
           end
  | _, _ => Raise (TypeError "unsupported operand type(s) for -")
  end.

(** ** The object store *)

(** A reference is a position in the store; the store is the list of the
    frames created so far. *)
Abbreviation ref := nat (only parsing).
Abbreviation heap := (list DataFrame) (only parsing).

(** A computation that may read and update stored frames and may raise. *)
Definition M (A : Type) : Type := heap → result A * heap.

#[global] Instance M_ret : MRet M := λ A a h, (Ok a, h).

#[global] Instance M_bind : MBind M := λ A B k m h,
  match m h with
  | (Ok a, h') => k a h'
  | (Raise e, h') => (Raise e, h')
  end.

Definition raise {A} (e : exn) : M A := λ h, (Raise e, h).

Definition lift {A} (r : result A) : M A := λ h, (r, h).

(** Read the frame a variable refers to. *)
Definition get (r : ref) : M DataFrame :=
  λ h, match h !! r with
       | Some df => (Ok df, h)
       | None => (Raise (ReferenceError "no such object"), h)
       end.

(** Replace a stored frame in place. *)
Definition put (r : ref) (df : DataFrame) : M unit :=
  λ h, (Ok tt, <[r := df]> h).

(** Store a newly created frame. *)
Definition new (df : DataFrame) : M ref :=
  λ h, (Ok (length h), h ++ [df]).

(** [DF[c] = v], the in-place column assignment. *)
Definition setitem_in_place (r : ref) (c : string) (v : nat → cell) : M unit :=
  df ← get r; put r (setitem df c v).

(** ** pair_data.py *)

Definition dquote : string := String (Ascii.ascii_of_nat 34) "".

(** The message of the [ValueError] raised at lines 31-36. *)
Definition config_error_msg : string :=
  "If you are calling `extract_pairs` with the flag"
  +:+ " `only_feature_diffs` set to True, " +:+ dquote +:+ "sequence"
  +:+ dquote +:+ " should not be"
  +:+ " present in `feature_names`".

Section Source.

Variable abs_sub : cell → cell → result cell.

(** Lines 124-152. *)
Definition abs_diff_between_all_row_pairs
    (DF_data_A DF_data_B : ref) (within_A : bool) : M DataFrame :=
  A ← get DF_data_A;
  B ← get DF_data_B;
  (* Broadcasting *)
  pairs_diffs ← lift (broadcast_abs_diff abs_sub A B);
  let '(num_examples, num_features) := shape A in
  pair_data ← lift (
    if within_A then
      (* Keep unique pairs within DF_data_A *)
      pairs_within ←
        mapM (λ i, match pairs_diffs !! i with
                   | Some plane => Ok (drop (i + 1) plane)
                   | None => Raise (IndexError "index out of bounds for axis 0")
                   end)
             (range 0 (num_examples - 1));
      np_concatenate pairs_within
    else
      (* Take all pairs of rows from DF_data_A and DF_data_B *)
      np_reshape (concat (concat pairs_diffs)) num_features);
  lift (pd_DataFrame pair_data (columns A)).

(** Lines 155-196. *)
Definition cartesian_product (DF_data_A DF_data_B : ref) (within_A : bool)
    (suffixes : string * string) : M DataFrame :=
  let tmp_cart_prod_colname := "_tmp_cart_prod" in
  let tmp_row_number_colname := "_tmp_row_number" in
  setitem_in_place DF_data_A tmp_cart_prod_colname (λ _, Num 0);;
  setitem_in_place DF_data_B tmp_cart_prod_colname (λ _, Num 0);;
  (if within_A then
     setitem_in_place DF_data_A tmp_row_number_colname (λ i, Num (Z.of_nat i));;
     setitem_in_place DF_data_B tmp_row_number_colname (λ i, Num (Z.of_nat i))
   else mret tt);;
  A ← get DF_data_A;
  B ← get DF_data_B;
  lift (
    DF_all_pairs ← merge A B tmp_cart_prod_colname suffixes;
    DF_all_pairs ← drop_column DF_all_pairs tmp_cart_prod_colname;
    if within_A then
      let row_number_colname_A := tmp_row_number_colname +:+ suffixes.1 in
      let row_number_colname_B := tmp_row_number_colname +:+ suffixes.2 in
      col_A ← getitem DF_all_pairs row_number_colname_A;
      col_B ← getitem DF_all_pairs row_number_colname_B;
      let nonredundant_rows := zip_with cell_gtb col_A col_B in
      let DF_all_pairs :=
        mkDF (columns DF_all_pairs)
             (select nonredundant_rows (rows DF_all_pairs)) in
      DF_all_pairs ← drop_column DF_all_pairs row_number_colname_A;
      DF_all_pairs ← drop_column DF_all_pairs row_number_colname_B;
      mret DF_all_pairs
    else mret DF_all_pairs).

(** Lines 80-121.  [DF_data_B = None] is the default argument. *)
Definition get_pair_data (only_feature_diffs : bool) (DF_data_A : ref)
    (DF_data_B : option ref) : M DataFrame :=
  let '(within_A, DF_data_B) :=
    match DF_data_B with
    | None => (true, DF_data_A)
    | Some b => (false, b)
    end in
  if only_feature_diffs
  then abs_diff_between_all_row_pairs DF_data_A DF_data_B within_A
  else cartesian_product DF_data_A DF_data_B within_A ("_A", "_B").

(** [DF_registration.loc[DF_registration['user_name'] == user_name,
    feature_names]], a new frame. *)
Definition rows_of_user (DF_registration : ref) (user_name : cell)
    (feature_names : list string) : M ref :=
  DF ← get DF_registration;
  col ← lift (getitem DF "user_name");
  let selector := map (λ c, cell_eqb c user_name) col in
  DF_features ← lift (loc DF selector feature_names);
  new DF_features.

(** Lines 41-58: the loop over pairs of distinct users; the value is the
    list [all_pair_DFs] it builds. *)
Definition negative_pair_DFs (DF_registration : ref) (user_names : list cell)
    (feature_names : list string) (only_feature_diffs : bool)
    : M (list DataFrame) :=
  let num_users := length user_names in
  per_i ←
    mapM (λ i,
      mapM (λ j,
        let user_name_A := cell_at user_names i in
        let user_name_B := cell_at user_names j in
        DF_features_A ← rows_of_user DF_registration user_name_A feature_names;
        DF_features_B ← rows_of_user DF_registration user_name_B feature_names;
        get_pair_data only_feature_diffs DF_features_A (Some DF_features_B))
      (range (i + 1) num_users))
    (range 0 (num_users - 1));
  mret (concat per_i).

(** Lines 63-72: the loop over users. *)
Definition positive_pair_DFs (DF_registration : ref) (user_names : list cell)
    (feature_names : list string) (only_feature_diffs : bool)
    : M (list DataFrame) :=
  mapM (λ user_name,
    DF_features ← rows_of_user DF_registration user_name feature_names;
    get_pair_data only_feature_diffs DF_features None)
  user_names.

(** Lines 5-77. *)
Definition extract_pairs (DF_registration : ref)
    (feature_names : list string) (only_feature_diffs : bool) : M DataFrame :=
  let sequence_in_feature_names := bool_decide ("sequence" ∈ feature_names) in
  if only_feature_diffs && sequence_in_feature_names
  then raise (ValueError config_error_msg)
  else
    DF ← get DF_registration;
    col ← lift (getitem DF "user_name");
    user_names ← lift (pd_unique col);
    (* negative examples (pairs of rows from two different users) *)
    all_pair_DFs ← negative_pair_DFs DF_registration user_names
                     feature_names only_feature_diffs;
    DF_negative ← lift (pd_concat all_pair_DFs);
    let DF_negative := setitem DF_negative "label" (λ _, Num 0) in
    (* positive examples (pairs of rows from the same user) *)
    all_pair_DFs ← positive_pair_DFs DF_registration user_names
                     feature_names only_feature_diffs;
    DF_positive ← lift (pd_concat all_pair_DFs);
    let DF_positive := setitem DF_positive "label" (λ _, Num 1) in
    lift (pd_concat [DF_negative; DF_positive]).

End Source.

(** ** What the generator computes, as values

    The generator only reads [DF_registration]; every frame it mutates is one
    it has created itself.  Its result is therefore a function of the table
    alone, written out here with the same steps as [extract_pairs]; that the
    two agree is [extract_pairs_runs] below. *)

(** The frame [rows_of_user] creates. *)
Definition user_frame (DF : DataFrame) (user_name : cell)
    (feature_names : list string) : result DataFrame :=
  col ← getitem DF "user_name";
  loc DF (map (λ c, cell_eqb c user_name) col) feature_names.

Section Values.

Variable abs_sub : cell → cell → result cell.

(** [get_pair_data] on two frames of its own, and on one frame alone. *)
Definition pair_data_between (flag : bool) (A B : DataFrame)
    : result DataFrame :=
  (get_pair_data abs_sub flag 0 (Some 1) [A; B]).1.

Definition pair_data_within (flag : bool) (A : DataFrame)
    : result DataFrame :=
  (get_pair_data abs_sub flag 0 None [A]).1.

Definition negative_tables (DF : DataFrame) (user_names : list cell)
    (feature_names : list string) (flag : bool) : result (list DataFrame) :=
  let num_users := length user_names in
  per_i ←
    mapM (λ i,
      mapM (λ j,
        A ← user_frame DF (cell_at user_names i) feature_names;
        B ← user_frame DF (cell_at user_names j) feature_names;
        pair_data_between flag A B)
      (range (i + 1) num_users))
    (range 0 (num_users - 1));
  mret (concat per_i).

Definition positive_tables (DF : DataFrame) (user_names : list cell)
    (feature_names : list string) (flag : bool) : result (list DataFrame) :=
  mapM (λ user_name,
    A ← user_frame DF user_name feature_names;
    pair_data_within flag A)
  user_names.

Definition extract_pairs_value (DF : DataFrame) (feature_names : list string)
    (flag : bool) : result DataFrame :=
  if flag && bool_decide ("sequence" ∈ feature_names)
  then Raise (ValueError config_error_msg)
  else
    col ← getitem DF "user_name";
    user_names ← pd_unique col;
    negatives ← negative_tables DF user_names feature_names flag;
    DF_negative ← pd_concat negatives;
    positives ← positive_tables DF user_names feature_names flag;
    DF_positive ← pd_concat positives;
    pd_concat [setitem DF_negative "label" (λ _, Num 0);
               setitem DF_positive "label" (λ _, Num 1)].

End Values.

(** [framed h m' m]: run behind a prefix [h] of unrelated objects, [m'] does
    what [m] does without it. *)
Definition framed {A} (h : heap) (m' m : M A) : Prop :=
  ∀ k, m' (h ++ k) = ((m k).1, h ++ (m k).2).

Definition shift_ref (n : nat) (b : option ref) : option ref :=
  (λ r, n + r) <$> b.

(** [runs_to r DF m v]: in every store that holds [DF] at [r], [m] has the
    outcome [v] and leaves the store as it was, up to new objects at its end. *)
Definition runs_to {A} (r : ref) (DF : DataFrame) (m : M A) (v : result A)
    : Prop :=
  ∀ H : heap, H !! r = Some DF →
    ∃ ext, m H = (v, H ++ ext).

(** The distinct subjects of a table, by first appearance (line 38). *)
Definition subjects (DF : DataFrame) : result (list cell) :=
  col ← getitem DF "user_name";
  pd_unique col.

(** ** Example tables *)

(** Subjects A, B, C with 2, 1 and 2 rows. *)
Definition table_212 : DataFrame :=
  mkDF ["user_name"; "x"; "y"]
    [ [Str "A"; Num 1; Num 10]; [Str "A"; Num 4; Num 20];
      [Str "B"; Num 9; Num 5];
      [Str "C"; Num 2; Num 2]; [Str "C"; Num 7; Num 3] ].

(** Subjects A and B with 2 and 3 rows. *)
Definition table_23 : DataFrame :=
  mkDF ["user_name"; "x"; "y"]
    [ [Str "A"; Num 1; Num 10]; [Str "A"; Num 4; Num 20];
      [Str "B"; Num 9; Num 5]; [Str "B"; Num 2; Num 2];
      [Str "B"; Num 7; Num 3] ].

(** One subject with 3 rows. *)
Definition table_3 : DataFrame :=
  mkDF ["user_name"; "x"]
    [ [Str "A"; Num 1]; [Str "A"; Num 4]; [Str "A"; Num 9] ].

(** Two subjects; the timing sequences are kept in a column that is not
    called "sequence". *)
Definition table_keystrokes : DataFrame :=
  mkDF ["user_name"; "keystrokes"]
    [ [Str "A"; Seq [0; 90; 150]%Z]; [Str "A"; Seq [0; 80; 170; 260]%Z];
      [Str "B"; Seq [0; 120]%Z]; [Str "B"; Seq [0; 100; 210]%Z] ].

(** Row groups of 1, 2 and 3 rows. *)
Definition group_1 : DataFrame := mkDF ["x"] [[Num 10]].
Definition group_2 : DataFrame := mkDF ["x"] [[Num 10]; [Num 20]].
Definition group_3 : DataFrame := mkDF ["x"] [[Num 10]; [Num 20]; [Num 40]].

(** Two subjects with 2 rows each and a feature that carries the name of
    the engine's temporary row-number column. *)
Definition table_reserved : DataFrame :=
  mkDF ["user_name"; "_tmp_row_number"]
    [ [Str "A"; Num 5]; [Str "A"; Num 6]; [Str "B"; Num 7]; [Str "B"; Num 8] ].

(** ** Vocabulary for the engine's results *)

(** The frame after line 174 (or 175), and after line 179 (or 180). *)
Definition with_key (df : DataFrame) : DataFrame :=
  setitem df "_tmp_cart_prod" (λ _, Num 0).

Definition with_row_number (df : DataFrame) : DataFrame :=
  setitem df "_tmp_row_number" (λ i, Num (Z.of_nat i)).

(** Lines 182-196 on the two frames as they are once the temporary columns
    have been assigned. *)
Definition join_and_filter (A B : DataFrame) (within_A : bool)
    (suffixes : string * string) : result DataFrame :=
  DF_all_pairs ← merge A B "_tmp_cart_prod" suffixes;
  DF_all_pairs ← drop_column DF_all_pairs "_tmp_cart_prod";
  if within_A then
    col_A ← getitem DF_all_pairs ("_tmp_row_number" +:+ suffixes.1);
    col_B ← getitem DF_all_pairs ("_tmp_row_number" +:+ suffixes.2);
    let DF_all_pairs :=
      mkDF (columns DF_all_pairs)
           (select (zip_with cell_gtb col_A col_B) (rows DF_all_pairs)) in
    DF_all_pairs ← drop_column DF_all_pairs ("_tmp_row_number" +:+ suffixes.1);
    DF_all_pairs ← drop_column DF_all_pairs ("_tmp_row_number" +:+ suffixes.2);
    mret DF_all_pairs
  else mret DF_all_pairs.

(** Each element with its position: row [i] of a group as [(i, row)]. *)
Definition numbered {A} (l : list A) : list (nat * A) :=
  zip (seq 0 (length l)) l.

(** All pairs (row of A, row of B), the rows of A outermost: the order of
    the cross join. *)
Definition cross_join {A} (la lb : list A) : list ((nat * A) * (nat * A)) :=
  list_prod (numbered la) (numbered lb).

(** The pairs of a cross join whose row numbers satisfy [keep]. *)
Definition retain {A} (keep : nat → nat → bool)
    (pairs : list ((nat * A) * (nat * A))) : list ((nat * A) * (nat * A)) :=
  List.filter (λ p, keep p.1.1 p.2.1) pairs.

(** The concat-mode row of a pair: the cells of the A row, then those of
    the B row. *)
Definition concat_row (p : (nat * list cell) * (nat * list cell)) : list cell :=
  p.1.2 ++ p.2.2.

Definition suffix_A (c : string) : string := c +:+ "_A".
Definition suffix_B (c : string) : string := c +:+ "_B".

(** The column labels of a pair table for the feature columns [cols]. *)
Definition pair_schema (only_feature_diffs : bool) (cols : list string)
    : list string :=
  if only_feature_diffs then cols
  else map suffix_A cols ++ map suffix_B cols.

(** The names [cartesian_product] reserves for its temporary columns. *)
Definition reserved (c : string) : Prop :=
  c = "_tmp_cart_prod" ∨ c = "_tmp_row_number".


(** A row group with feature columns [cs] once the temporary columns have
    been assigned: the key column, holding 0, and the further temporary
    columns [ex], holding [e i] in row [i]. *)
Definition prepared (cs ex : list string) (e : nat → list cell)
    (l : list (list cell)) : DataFrame :=
  mkDF (cs ++ "_tmp_cart_prod" :: ex)
       (map (λ p, p.2 ++ Num 0 :: e p.1) (numbered l)).

(** Lines 138-152 on the two frames read at lines 139-141. *)
Definition abs_diff_table (abs_sub : cell → cell → result cell)
    (A B : DataFrame) (within_A : bool) : result DataFrame :=
  pairs_diffs ← broadcast_abs_diff abs_sub A B;
  pair_data ←
    (if within_A then
       pairs_within ←
         mapM (λ i, match pairs_diffs !! i with
                    | Some plane => Ok (drop (i + 1) plane)
                    | None => Raise (IndexError "index out of bounds for axis 0")
                    end)
              (range 0 ((shape A).1 - 1));
       np_concatenate pairs_within
     else np_reshape (concat (concat pairs_diffs)) (shape A).2);
  pd_DataFrame pair_data (columns A).

(** [T] holds exactly the concat-mode rows of the pairs of [A]'s rows whose
    row numbers (A side, B side) satisfy [keep], in cross-join order. *)
Definition retains_exactly (keep : nat → nat → bool) (A T : DataFrame) : Prop :=
  rows T = map concat_row (retain keep (cross_join (rows A) (rows A))).

(** Every table of the list has the labels [cols]. *)
Definition uniform_schema (cols : list string) (tables : list DataFrame) : Prop :=
  Forall (λ T, columns T = cols) tables.

(** The labels of the assembled dataset: those of the pair tables and the
    label column of lines 61 and 75. *)
Definition output_schema (only_feature_diffs : bool) (feature_names : list string)
    : list string :=
  columns (setitem (mkDF (pair_schema only_feature_diffs feature_names) [])
                   "label" (λ _, Num 0)).

(** The number of rows of a table that carry the label [v]. *)
Definition count_label (v : Z) (T : DataFrame) : nat :=
  match getitem T "label" with
  | Ok col => length (List.filter (λ c, bool_decide (c = Num v)) col)
  | Raise _ => 0
  end.

(** The tables of one list have the labels [cols] and stack under
    [pd.concat] as they are. *)
Definition concatenates_cleanly (cols : list string) (tables : list DataFrame)
    : Prop :=
  uniform_schema cols tables
  ∧ (tables ≠ [] →
     pd_concat tables = Ok (mkDF cols (concat (map rows tables)))).



(** The row numbers (A side, B side) of a list of pairs. *)
Definition row_numbers {A} (pairs : list ((nat * A) * (nat * A)))
    : list (nat * nat) :=
  map (λ p, (p.1.1, p.2.1)) pairs.

(** The diff-mode row of a pair: [|a - b|], cell by cell. *)
Definition diff_row (abs_sub : cell → cell → result cell)
    (p : (nat * list cell) * (nat * list cell)) : result (list cell) :=
  row_abs_diff abs_sub p.1.2 p.2.2.

(** The elementwise absolute difference of the _A block and the _B block of
    a concat-mode row over [w] feature columns. *)
Definition blocks_abs_diff (abs_sub : cell → cell → result cell) (w : nat)
    (row : list cell) : result (list cell) :=
  row_abs_diff abs_sub (take w row) (drop w row).

(** All pairs of two groups in the order diff mode goes through them: the
    rows of B outermost. *)
Definition cross_join_by_B {A} (la lb : list A) : list ((nat * A) * (nat * A)) :=
  flat_map (λ qb, map (λ qa, (qa, qb)) (numbered la)) (numbered lb).

(** The number of rows of a table that belong to a subject. *)
Definition group_size (DF : DataFrame) (user_name : cell) : nat :=
  match getitem DF "user_name" with
  | Ok col => length (List.filter (λ c, cell_eqb c user_name) col)
  | Raise _ => 0
  end.

(** The pairs [(i, j)] the loops of lines 43-44 go through, in their order:
    [i < j < num_users]. *)
Definition subject_pairs (num_users : nat) : list (nat * nat) :=
  flat_map (λ i, map (λ j, (i, j)) (range (i + 1) num_users))
           (range 0 (num_users - 1)).

(** An outcome other than the exception of lines 31-36. *)
Definition no_config_error {A} (r : result A) : Prop :=
  r ≠ Raise (ValueError config_error_msg).

Definition never_config_error {A} (m : M A) : Prop :=
  ∀ h, no_config_error (m h).1.

(** * Reading the raw data (read_data.py) *)

(** ** Exceptions and outcomes *)

(** The exceptions of read_data.py and plots.py: those of pair_data.py and
    the ones that only occur here. *)
Inductive error :=
  | Exn (e : exn)
  | AssertionError
  | OSError (msg : string)
  | UnboundLocalError (name : string)
  | AttributeError (msg : string)
  | UndefinedVariableError (name : string).

#[global] Instance error_eq_dec : EqDecision error.
Proof. solve_decision. Defined.

Inductive outcome (A : Type) :=
  | Done (a : A)
  | Fail (e : error).
Arguments Done {A} a.
Arguments Fail {A} e.

#[global] Instance outcome_ret : MRet outcome := λ A a, Done a.

#[global] Instance outcome_bind : MBind outcome := λ A B k m,
  match m with
  | Done a => k a
  | Fail e => Fail e
  end.

Definition of_result {A} (r : result A) : outcome A :=
  match r with
  | Ok a => Done a
  | Raise e => Fail (Exn e)
  end.

(** ** Python strings and lists *)

(** [s.split(sep)] for a separator of one character: the pieces between the
    occurrences of [sep], at least one piece. *)
Fixpoint split (sep : Ascii.ascii) (s : string) : list string :=
  match s with
  | EmptyString => [EmptyString]
  | String c s' =>
      if decide (c = sep) then EmptyString :: split sep s'
      else match split sep s' with
           | w :: ws => String c w :: ws
           | [] => [String c EmptyString]
           end
  end.

(** [needle in hay] on strings. *)
Fixpoint contains (needle hay : string) : bool :=
  String.prefix needle hay
  || match hay with
     | EmptyString => false
     | String _ hay' => contains needle hay'
     end.

(** [l[i]] on a Python list. *)
Definition list_getitem {A} (l : list A) (i : nat) : result A :=
  match l !! i with
  | Some x => Ok x
  | None => Raise (IndexError "list index out of range")
  end.

Fixpoint insert_sorted (s : string) (l : list string) : list string :=
  match l with
  | [] => [s]
  | s' :: l' => if String.leb s s' then s :: l else s' :: insert_sorted s l'
  end.

(** [sorted(l)] on strings: code point order, which on the bytes of the
    text is the order of the bytes. *)
Definition sorted (l : list string) : list string :=
  foldr insert_sorted [] l.

(** ** The pandas calls of read_data.py *)

(** [row[c]] on a dict given as its items. *)
Fixpoint row_get (row : list (string * cell)) (c : string) : option cell :=
  match row with
  | [] => None
  | (k, v) :: row' => if decide (k = c) then Some v else row_get row' c
  end.

(** [df.append(row, ignore_index=True)] with [row] a dict, given as its
    items: a new frame with one more row.  The labels of [row] the frame
    lacks become new columns after the existing ones, in sorted order or in
    the order of the dict (this depends on the version of pandas;
    [sort_new_labels] says which); a cell nothing provides is [NaN]. *)
Definition df_append (sort_new_labels : bool) (df : DataFrame)
    (row : list (string * cell)) : DataFrame :=
  let new_labels :=
    List.filter (λ c, bool_decide (c ∉ columns df)) (map fst row) in
  let combined_columns :=
    columns df ++ (if sort_new_labels then sorted new_labels else new_labels) in
  mkDF combined_columns
    (reindex combined_columns df
     ++ [map (λ c, default NaN (row_get row c)) combined_columns]).

(** [df.drop(names, axis=1)]: removes the columns with these labels;
    [KeyError] when one of the labels is absent. *)
Definition drop_columns (df : DataFrame) (names : list string)
    : result DataFrame :=
  match List.filter (λ c, bool_decide (c ∉ columns df)) names with
  | [] =>
      let keep c := bool_decide (c ∉ names) in
      Ok (mkDF (List.filter keep (columns df))
            (map (keep_labelled keep (columns df)) (rows df)))
  | missing =>
      Raise (KeyError ("[" +:+ String.concat " "
                               (map (λ c, "'" +:+ c +:+ "'") missing)
                       +:+ "] not found in axis"))
  end.

(** ** numpy's 64-bit integers *)

Definition int64 (z : Z) : Prop := (- 2 ^ 63 ≤ z < 2 ^ 63)%Z.

(** The 64-bit two's complement integer an exact result wraps to. *)
Definition wrap64 (z : Z) : Z := ((z + 2 ^ 63) `mod` 2 ^ 64 - 2 ^ 63)%Z.

(** ** The file system *)

(** What the program sees of the file system: [os.stat(f).st_size], the
    lines that iterating over [open(f)] yields, with the exception that ends
    the iteration if there is one, and [glob.glob(pattern)]. *)
Record file_system := mkFS {
  st_size : string → outcome nat;
  open_lines : string → outcome (list string * option error);
  glob : string → list string
}.

(** [os.path.join(a, b)] (posixpath) *)
Definition os_path_join (a b : string) : string :=
  if String.prefix "/" b then b
  else if bool_decide (a = EmptyString) || String.prefix "/" (String.rev a)
  then a +:+ b
  else a +:+ "/" +:+ b.

(** [os.path.split(p)[-1]] (posixpath): what follows the last slash. *)
Definition os_path_split_tail (p : string) : string :=
  default EmptyString (last (split "/"%char p)).

(** ** class UserData *)

Record UserData := mkUserData {
  user_name : string;
  dataset : string;
  reg_data : option DataFrame;
  DF_sequences : DataFrame
}.

(** [UserData(user_name, dataset)], lines 8-12. *)
Definition UserData_init (user_name dataset : string) : UserData :=
  mkUserData user_name dataset None (mkDF [] []).

(** A method of [UserData]: it may replace [self.DF_sequences] and may
    raise. *)
Definition U (A : Type) : Type := UserData → outcome A * UserData.

#[global] Instance U_ret : MRet U := λ A a self, (Done a, self).

#[global] Instance U_bind : MBind U := λ A B k m self,
  match m self with
  | (Done a, self') => k a self'
  | (Fail e, self') => (Fail e, self')
  end.

Definition U_lift {A} (r : outcome A) : U A := λ self, (r, self).

Definition U_self : U UserData := λ self, (Done self, self).

Definition set_DF_sequences (df : DataFrame) : U unit :=
  λ self,
    (Done tt, mkUserData (user_name self) (dataset self) (reg_data self) df).

(** Lines 65-75.  [seq] is the content of the int64 array that [np.array]
    builds from a list of timestamps that fit in 64 bits; the subtraction
    of line 70 is numpy's, which wraps around.  The result is the cleaned
    array with the flags [false_start] and [odd]. *)
Definition _seq_cleanup (seq : list Z) : result (list Z * Z * Z) :=
  match seq with
  | [] => Raise (IndexError "index 0 is out of bounds for axis 0 with size 0")
  | first :: _ =>
      let '(seq, false_start) :=
        if bool_decide (first ≠ 0%Z)
        then (map (λ t, wrap64 (t - first)) seq, 1%Z)
        else (seq, 0%Z) in
      let '(seq, odd) :=
        if bool_decide (length seq `mod` 2 = 1)
        then (take (length seq - 1) seq, 1%Z)
        else (seq, 0%Z) in
      Ok (seq, false_start, odd)
  end.

(** [os.path.join(path, 'Dataset' + dataset, '*')], line 81. *)
Definition dataset_pattern (path dataset : string) : string :=
  os_path_join (os_path_join path ("Dataset" +:+ dataset)) "*".

(** The dict of lines 54-63, as its items. *)
Definition DF_sequences_row (self : UserData) (reg imp succ : Z)
    (seq : list Z) (false_start odd : Z) : list (string * cell) :=
  [ ("user_name", Str (user_name self));
    ("registration", Num reg);
    ("imposter", Num imp);
    ("success", Num succ);
    ("sequence", Seq seq);
    ("dataset", Str (dataset self));
    ("false_start", Num false_start);
    ("odd", Num odd) ].

Section ReadData.

(** How [DataFrame.append] orders new labels (see [df_append]). *)
Variable sort_new_labels : bool.

(** The builtin [int] on a string. *)
Variable int : string → result Z.

Variable fs : file_system.

(** Lines 51-63. *)
Definition _append_one_row_to_DF_sequences (reg imp : Z) (succ : string)
    (seq : list Z) : U unit :=
  '(seq, false_start, odd) ← U_lift (of_result (_seq_cleanup seq));
  succ ← U_lift (of_result
            (if decide (succ = "y") then Ok 1%Z
             else if decide (succ = "n") then Ok 0%Z
             else Raise (KeyError succ)));
  self ← U_self;
  set_DF_sequences
    (df_append sort_new_labels (DF_sequences self)
       (DF_sequences_row self reg imp succ seq false_start odd)).

(** The loop of lines 21-26 over the lines of a file: a line without a
    comma is skipped, the others are parsed. *)
Fixpoint read_timestamps (lines : list string) : result (list (list Z)) :=
  match lines with
  | [] => Ok []
  | line :: lines =>
      let timestamps := split ","%char line in
      if bool_decide (length timestamps = 1) then read_timestamps lines
      else ts ← mapM int timestamps;
           one_file_data ← read_timestamps lines;
           Ok (ts :: one_file_data)
  end.

(** Lines 14-49.  The [assert] of line 37 is executed (Python is not run
    with -O). *)
Definition add_file (filename : string) : U unit :=
  size ← U_lift (st_size fs filename);
  let file_empty := bool_decide (size = 0) in
  if file_empty then mret tt
  else
    '(lines, stopped) ← U_lift (open_lines fs filename);
    one_file_data ← U_lift (of_result (read_timestamps lines));
    match stopped with Some e => U_lift (Fail e) | None => mret tt end;;
    if contains "[]" filename then
      mapM (_append_one_row_to_DF_sequences 1 0 "y") one_file_data;;
      mret tt
    else
      if bool_decide (length one_file_data = 1) then
        let components := split "_"%char filename in
        c1 ← U_lift (of_result (list_getitem components 1));
        imposter ← U_lift (of_result (int c1));
        c2 ← U_lift (of_result (list_getitem components 2));
        success ← U_lift (of_result (list_getitem (split "."%char c2) 0));
        seq ← U_lift (of_result (list_getitem one_file_data 0));
        _append_one_row_to_DF_sequences 0 imposter success seq
      else U_lift (Fail AssertionError).

(** [all_user_data[user_name] = user_data] on a dict, given as its items in
    insertion order: a key that is present keeps its place. *)
Fixpoint dict_setitem (d : list (string * UserData)) (k : string)
    (v : UserData) : list (string * UserData) :=
  match d with
  | [] => [(k, v)]
  | (k', v') :: d' =>
      if decide (k' = k) then (k, v) :: d' else (k', v') :: dict_setitem d' k v
  end.

(** Lines 86-87: all the files of one user, in the order [glob] lists
    them. *)
Fixpoint add_files (filenames : list string) (self : UserData)
    : outcome UserData :=
  match filenames with
  | [] => Done self
  | filename :: filenames =>
      match add_file filename self with
      | (Done _, self) => add_files filenames self
      | (Fail e, _) => Fail e
      end
  end.

(** Lines 82-89 for the directories of one dataset. *)
Fixpoint add_users (dataset : string) (dirnames : list string)
    (all_user_data : list (string * UserData))
    : outcome (list (string * UserData)) :=
  match dirnames with
  | [] => Done all_user_data
  | dirname :: dirnames =>
      let user_name := os_path_split_tail dirname in
      let user_data := UserData_init user_name dataset in
      let user_filenames := glob fs (os_path_join dirname "*") in
      user_data ← add_files user_filenames user_data;
      add_users dataset dirnames
        (dict_setitem all_user_data user_name user_data)
  end.

(** Lines 80-89. *)
Fixpoint add_datasets (path : string) (datasets : list string)
    (all_user_data : list (string * UserData))
    : outcome (list (string * UserData)) :=
  match datasets with
  | [] => Done all_user_data
  | dataset :: datasets =>
      let dirnames := sorted (glob fs (dataset_pattern path dataset)) in
      all_user_data ← add_users dataset dirnames all_user_data;
      add_datasets path datasets all_user_data
  end.

(** Lines 78-100.  The values of the dict are taken in insertion order; the
    index that [ignore_index=True] renumbers is not part of a frame here. *)
Definition produce_whole_DF (path : string) (datasets : list string)
    (presentation : bool) : outcome DataFrame :=
  all_user_data ← add_datasets path datasets [];
  DF_whole ← of_result
               (pd_concat (map (λ kv, DF_sequences kv.2) all_user_data));
  if presentation then
    let redundant_colnames := ["dataset"; "odd"; "false_start"; "success"] in
    of_result (drop_columns DF_whole redundant_colnames)
  else Done DF_whole.

End ReadData.

(** ** Vocabulary for the statements about read_data.py *)

(** The two steps of [_seq_cleanup] on a non-empty array: the shift of
    line 70 and the cut of line 73. *)
Definition shifted (seq : list Z) (first : Z) : list Z :=
  map (λ t, wrap64 (t - first)) seq.

Definition even_prefix (seq : list Z) : list Z :=
  take (length seq - length seq `mod` 2) seq.

(** The cells of a dict, given as its items, under the labels [cols]. *)
Definition layout (cols : list string) (row : list (string * cell))
    : list cell :=
  map (λ c, default NaN (row_get row c)) cols.

(** The frame with the labels [cols] and one row per dict. *)
Definition table (cols : list string) (records : list (list (string * cell)))
    : DataFrame :=
  mkDF cols (map (layout cols) records).

(** The column [c] of a frame, all [NaN] when the frame has no such
    column. *)
Definition column_or_NaN (df : DataFrame) (c : string) : list cell :=
  match col_index c (columns df) with
  | Some p => map (λ r, cell_at r p) (rows df)
  | None => map (λ _, NaN) (rows df)
  end.

(** The labels of a frame of sequences, in the order [DataFrame.append]
    gives them. *)
Definition sequence_labels (sort_new_labels : bool) : list string :=
  let labels := ["user_name"; "registration"; "imposter"; "success";
                 "sequence"; "dataset"; "false_start"; "odd"] in
  if sort_new_labels then sorted labels else labels.

(** The array [_seq_cleanup] returns for [seq]. *)
Definition cleaned (seq : list Z) : list Z :=
  match _seq_cleanup seq with
  | Ok (seq, _, _) => seq
  | Raise _ => []
  end.

(** [self] after the dicts [records] have been appended to
    [self.DF_sequences], one after the other. *)
Definition appended (sort_new_labels : bool) (self : UserData)
    (records : list (list (string * cell))) : UserData :=
  mkUserData (user_name self) (dataset self) (reg_data self)
    (foldl (df_append sort_new_labels) (DF_sequences self) records).

(** The dict that [_append_one_row_to_DF_sequences] builds from the
    timestamps [ts], with [succ] already a number. *)
Definition record_of (self : UserData) (reg imp succ : Z) (ts : list Z)
    : list (string * cell) :=
  match _seq_cleanup ts with
  | Ok (seq, false_start, odd) =>
      DF_sequences_row self reg imp succ seq false_start odd
  | Raise _ => []
  end.

(** A dict as [add_file] appends them for the user [self]: at least two
    timestamps went in; a registration row is no imposter's and a
    success. *)
Definition sequence_record (self : UserData) (record : list (string * cell))
    : Prop :=
  ∃ reg imp succ ts,
    record = record_of self reg imp succ ts
    ∧ 2 ≤ length ts
    ∧ (succ = 0 ∨ succ = 1)%Z
    ∧ ((reg = 1 ∧ imp = 0 ∧ succ = 1) ∨ reg = 0)%Z.

(** The line has a comma. *)
Definition has_comma (line : string) : bool := contains "," line.

(** ** An instance of [int] and a small file system *)

Definition is_space (c : Ascii.ascii) : bool :=
  let n := Ascii.nat_of_ascii c in
  bool_decide (n = 32 ∨ 9 ≤ n ≤ 13 ∨ 28 ≤ n ≤ 31).

Definition digit (c : Ascii.ascii) : option Z :=
  let n := Ascii.nat_of_ascii c in
  if bool_decide (48 ≤ n ≤ 57) then Some (Z.of_nat (n - 48)) else None.

Fixpoint digits (acc : Z) (s : string) : option Z :=
  match s with
  | EmptyString => Some acc
  | String c s' =>
      match digit c with
      | Some d => digits (10 * acc + d) s'
      | None => None
      end
  end.

Fixpoint lstrip (s : string) : string :=
  match s with
  | EmptyString => EmptyString
  | String c s' => if is_space c then lstrip s' else s
  end.

(** What Python's [int] gives on plain decimal text: white space around an
    optional sign and at least one digit.  Text with underscores between
    digits or with digits outside ASCII, which Python reads as well, is
    outside this instance and is made to raise. *)
Definition int_decimal (s : string) : result Z :=
  let body := String.rev (lstrip (String.rev (lstrip s))) in
  let invalid := Raise (ValueError "invalid literal for int() with base 10") in
  let unsigned (sign : Z) (s : string) :=
    match s with
    | EmptyString => invalid
    | _ => match digits 0 s with
           | Some n => Ok (sign * n)%Z
           | None => invalid
           end
    end in
  match body with
  | String c s' =>
      if decide (c = "-"%char) then unsigned (-1)%Z s'
      else if decide (c = "+"%char) then unsigned 1%Z s'
      else unsigned 1%Z body
  | EmptyString => invalid
  end.

Definition newline : string := String (Ascii.ascii_of_nat 10) EmptyString.

(** Two users of dataset A under [data]: [u1] with a registration file of
    two sequences, an empty file and a test file; [u2] with a registration
    file of one sequence, a blank line and a line with one timestamp. *)
Definition example_fs : file_system :=
  let files : list (string * list string) :=
    [ ("data/DatasetA/u1/reg[].txt",
       ["0,100,250,300" +:+ newline; "5,105,255" +:+ newline]);
      ("data/DatasetA/u1/empty.txt", []);
      ("data/DatasetA/u1/t_1_n.txt", ["0,90,260,310" +:+ newline]);
      ("data/DatasetA/u2/reg[].txt",
       ["7,107" +:+ newline; newline; "12" +:+ newline]) ] in
  let content (f : string) :=
    snd <$> List.find (λ kv, bool_decide (kv.1 = f)) files in
  mkFS
    (λ f, match content f with
          | Some lines => Done (String.length (String.concat EmptyString lines))
          | None => Fail (OSError "No such file or directory")
          end)
    (λ f, match content f with
          | Some lines => Done (lines, None)
          | None => Fail (OSError "No such file or directory")
          end)
    (λ pattern,
       if decide (pattern = "data/DatasetA/*")
       then ["data/DatasetA/u2"; "data/DatasetA/u1"]
       else if decide (pattern = "data/DatasetA/u1/*")
       then ["data/DatasetA/u1/reg[].txt"; "data/DatasetA/u1/empty.txt";
             "data/DatasetA/u1/t_1_n.txt"]
       else if decide (pattern = "data/DatasetA/u2/*")
       then ["data/DatasetA/u2/reg[].txt"]
       else []).

(** The frame that holds the dicts [records], appended one after the other
    to [pd.DataFrame()]. *)
Definition frame_of (sort_new_labels : bool)
    (records : list (list (string * cell))) : DataFrame :=
  match records with
  | [] => mkDF [] []
  | _ => table (sequence_labels sort_new_labels) records
  end.

(** The labels that are left of [sequence_labels] when
    [presentation=True]. *)
Definition presentation_labels (sort_new_labels : bool) : list string :=
  List.filter
    (λ c, bool_decide (c ∉ ["dataset"; "odd"; "false_start"; "success"]))
    (sequence_labels sort_new_labels).

(** What holds of the dict [all_user_data] all along: the keys are
    distinct, and the value of a key is the user of that name with the rows
    read from one of the datasets [D]. *)
Definition users_inv (sort_new_labels : bool) (D : string → Prop)
    (d : list (string * UserData)) : Prop :=
  NoDup (map fst d)
  ∧ Forall (λ kv, user_name kv.2 = kv.1
                  ∧ D (dataset kv.2)
                  ∧ ∃ records,
                      DF_sequences kv.2 = frame_of sort_new_labels records
                      ∧ Forall (sequence_record kv.2) records) d.

(** * Plotting the sequences of a user (plots.py) *)

(** The calls to [matplotlib.pyplot] that [plot_user_sequences] makes, with
    the arguments that vary ([plt.plot] always gets alpha=0.5, marker='o',
    linestyle='--'). *)
Inductive plt_call :=
  | plt_plot (y : cell)
  | plt_title (label : string) (fontsize : Z)
  | plt_xlabel (label : string) (fontsize : Z)
  | plt_ylabel (label : string) (fontsize : Z)
  | plt_xticks (ticks : list nat)
  | plt_show.

(** A function given as [sequence_processor]: its [__name__], if it has
    one, and what it returns or raises on a sequence. *)
Record processor := mkProcessor {
  processor_name : option string;
  processor_call : cell → outcome cell
}.

(** [len(v)]: the length of an array and of a text (counted in ASCII
    characters); a number has none. *)
Definition len (v : cell) : result nat :=
  match v with
  | Seq s => Ok (length s)
  | Str s => Ok (String.length s)
  | Num _ | NaN => Raise (TypeError "object has no len()")
  end.

(** [range(0, stop, step)] for a positive [step]. *)
Definition range_step (stop step : nat) : list nat :=
  map (λ i, i * step) (seq 0 ((stop + step - 1) / step)).

(** [DF.query('(user_name == @user_name) and (registration == 1)')
    ['sequence']], lines 18-20: the names in the query must be columns, then
    the rows are selected, then the column is taken. *)
Definition query_registration_sequences (DF_whole : DataFrame)
    (user_name : string) : outcome (list cell) :=
  match col_index "user_name" (columns DF_whole),
        col_index "registration" (columns DF_whole) with
  | None, _ => Fail (UndefinedVariableError "user_name")
  | _, None => Fail (UndefinedVariableError "registration")
  | Some pu, Some pr =>
      let mask :=
        map (λ r, cell_eqb (cell_at r pu) (Str user_name)
                  && cell_eqb (cell_at r pr) (Num 1)) (rows DF_whole) in
      of_result (getitem (mkDF (columns DF_whole) (select mask (rows DF_whole)))
                   "sequence")
  end.

(** The loop of lines 21-23: the calls made so far, and the last value of
    [seq] if the body has run. *)
Fixpoint plot_sequences (sequence_processor : cell → outcome cell)
    (sequences : list cell) (seq : option cell) (calls : list plt_call)
    : outcome (option cell) * list plt_call :=
  match sequences with
  | [] => (Done seq, calls)
  | s :: sequences =>
      match sequence_processor s with
      | Fail e => (Fail e, calls)
      | Done s' =>
          plot_sequences sequence_processor sequences (Some s')
            (calls ++ [plt_plot s'])
      end
  end.

(** Lines 9-16: the function applied to each sequence, the title and the
    label of the y axis. *)
Definition titles (sequence_processor : option processor)
    : outcome ((cell → outcome cell) * string * string) :=
  match sequence_processor with
  | None => Done (Done, "Sequence " +:+ dquote +:+ "as-is" +:+ dquote,
                  "sequence")
  | Some p =>
      match processor_name p with
      | None => Fail (AttributeError "object has no attribute '__name__'")
      | Some processor_name =>
          Done (processor_call p,
                "Plot for " +:+ dquote +:+ processor_name +:+ dquote,
                processor_name +:+ "(sequence)")
      end
  end.

(** Lines 8-32.  The result is the outcome and the calls to [plt] made, in
    order.  The tick of line 30 is the integer quotient (which is what
    [int(len(seq)/10)] gives for any length below 2^50). *)
Definition plot_user_sequences (DF_whole : DataFrame) (user_name : string)
    (sequence_processor : option processor)
    : outcome unit * list plt_call :=
  match titles sequence_processor with
  | Fail e => (Fail e, [])
  | Done (sequence_processor, title, ylabel) =>
      match query_registration_sequences DF_whole user_name with
      | Fail e => (Fail e, [])
      | Done DF_one_user_sequences =>
          match plot_sequences sequence_processor DF_one_user_sequences
                  None [] with
          | (Fail e, calls) => (Fail e, calls)
          | (Done seq, calls) =>
              let base_fontsize := 20%Z in
              let calls :=
                calls ++ [plt_title title base_fontsize;
                          plt_xlabel "index" (base_fontsize - 4);
                          plt_ylabel ylabel (base_fontsize - 4)] in
              match seq with
              | None =>
                  (Fail (UnboundLocalError "seq"), calls)
              | Some seq =>
                  match len seq with
                  | Raise e => (Fail (Exn e), calls)
                  | Ok n =>
                      let tick := n / 10 + 1 in
                      (Done tt,
                       calls ++ [plt_xticks (range_step n tick); plt_show])
                  end
              end
          end
      end
  end.

(** * Reasoning about computations on the object store *)

Lemma bind_run {A B} (m : M A) (k : A → M B) (h : heap) :
  (m ≫= k) h =
  match m h with
  | (Ok a, h') => k a h'
  | (Raise e, h') => (Raise e, h')
  end.
Proof. reflexivity. Qed.

Lemma rbind_ok {A B} (m : result A) (k : A → result B) (b : B) :
  m ≫= k = Ok b → ∃ a, m = Ok a ∧ k a = Ok b.
Proof. destruct m as [a|e]; [eauto | discriminate]. Qed.

Lemma framed_ret {A} h (a : A) : framed h (mret a) (mret a).
Proof. intros k. reflexivity. Qed.

Lemma framed_lift {A} h (r : result A) : framed h (lift r) (lift r).
Proof. intros k. reflexivity. Qed.

Lemma framed_bind {A B} h (m' m : M A) (k' k : A → M B) :
  framed h m' m → (∀ a, framed h (k' a) (k a)) →
  framed h (m' ≫= k') (m ≫= k).
Proof.
  intros Hm Hk q. rewrite !bind_run, Hm.
  destruct (m q) as [[a|e] q']; simpl; [apply Hk | reflexivity].
Qed.

Lemma framed_get h r : framed h (get (length h + r)) (get r).
Proof.
  intros k. unfold get.
  rewrite lookup_app_r by lia.
  replace (length h + r - length h) with r by lia.
  destruct (k !! r); reflexivity.
Qed.

Lemma framed_put h r df : framed h (put (length h + r) df) (put r df).
Proof. intros k. unfold put. simpl. by rewrite insert_app_r. Qed.

Lemma framed_setitem_in_place h r c v :
  framed h (setitem_in_place (length h + r) c v) (setitem_in_place r c v).
Proof.
  apply framed_bind; [apply framed_get | intros; apply framed_put].
Qed.

Ltac framed_steps :=
  repeat first
    [ apply framed_ret | apply framed_lift | apply framed_get
    | apply framed_put | apply framed_setitem_in_place
    | apply framed_bind; [| intros ?]
    | match goal with |- framed _ (if ?b then _ else _) _ => destruct b end ].

Lemma framed_abs_diff f h a b w :
  framed h (abs_diff_between_all_row_pairs f (length h + a) (length h + b) w)
           (abs_diff_between_all_row_pairs f a b w).
Proof. unfold abs_diff_between_all_row_pairs, shape. framed_steps. Qed.

Lemma framed_cartesian_product h a b w s :
  framed h (cartesian_product (length h + a) (length h + b) w s)
           (cartesian_product a b w s).
Proof. unfold cartesian_product. framed_steps. Qed.

Lemma framed_get_pair_data f h flag a b :
  framed h (get_pair_data f flag (length h + a) (shift_ref (length h) b))
           (get_pair_data f flag a b).
Proof.
  unfold get_pair_data.
  destruct b as [b|]; simpl; destruct flag;
    auto using framed_abs_diff, framed_cartesian_product.
Qed.

Lemma runs_lift {A} r DF (v : result A) : runs_to r DF (lift v) v.
Proof. intros H _. exists []. by rewrite app_nil_r. Qed.

Lemma runs_ret {A} r DF (a : A) : runs_to r DF (mret a) (Ok a).
Proof. intros H _. exists []. by rewrite app_nil_r. Qed.

Lemma runs_raise {A} r DF e : runs_to r DF (raise e) (@Raise A e).
Proof. intros H _. exists []. by rewrite app_nil_r. Qed.

Lemma runs_get r DF : runs_to r DF (get r) (Ok DF).
Proof.
  intros H HDF. exists []. unfold get. by rewrite HDF, app_nil_r.
Qed.

Lemma runs_bind {A B} r DF (m : M A) (k : A → M B) v w :
  runs_to r DF m v → (∀ a, v = Ok a → runs_to r DF (k a) (w a)) →
  runs_to r DF (m ≫= k) (v ≫= w).
Proof.
  intros Hm Hk H HDF. rewrite bind_run.
  destruct (Hm H HDF) as [ext ->].
  destruct v as [a|e]; simpl.
  - destruct (Hk a eq_refl (H ++ ext)) as [ext' ->].
    { by apply lookup_app_l_Some. }
    exists (ext ++ ext'). by rewrite app_assoc.
  - by exists ext.
Qed.

Lemma runs_get_bind {B} r DF (k : DataFrame → M B) w :
  runs_to r DF (k DF) w → runs_to r DF (get r ≫= k) w.
Proof.
  intros Hk. apply (runs_bind r DF _ _ (Ok DF) (λ _, w)); [apply runs_get|].
  by intros ? [= <-].
Qed.

Lemma runs_mapM {A B} r DF (f : A → M B) (g : A → result B) l :
  (∀ x, x ∈ l → runs_to r DF (f x) (g x)) →
  runs_to r DF (mapM f l) (mapM g l).
Proof.
  induction l as [|x l IH]; intros Hf; simpl.
  - apply runs_ret.
  - apply runs_bind; [apply Hf; left | intros y _].
    apply runs_bind; [apply IH; intros; apply Hf; by right | intros ys _].
    apply runs_ret.
Qed.

Lemma rows_of_user_run r DF u fn (H : heap) :
  H !! r = Some DF →
  rows_of_user r u fn H =
  match user_frame DF u fn with
  | Ok A => (Ok (length H), H ++ [A])
  | Raise e => (Raise e, H)
  end.
Proof.
  intros HDF. unfold rows_of_user, user_frame.
  rewrite bind_run. unfold get at 1. rewrite HDF.
  rewrite bind_run. unfold lift at 1.
  destruct (getitem DF "user_name") as [col|e]; simpl; [|done].
  rewrite bind_run. unfold lift at 1.
  by destruct (loc DF _ fn).
Qed.

Lemma runs_between f r DF flag uA uB fn :
  runs_to r DF
    (DF_features_A ← rows_of_user r uA fn;
     DF_features_B ← rows_of_user r uB fn;
     get_pair_data f flag DF_features_A (Some DF_features_B))
    (A ← user_frame DF uA fn;
     B ← user_frame DF uB fn;
     pair_data_between f flag A B).
Proof.
  intros H HDF. rewrite bind_run, (rows_of_user_run r DF) by done.
  destruct (user_frame DF uA fn) as [A|e]; simpl.
  2: { exists []. by rewrite app_nil_r. }
  rewrite bind_run, (rows_of_user_run r DF) by (by apply lookup_app_l_Some).
  destruct (user_frame DF uB fn) as [B|e]; simpl.
  2: { by exists [A]. }
  rewrite length_app, <- app_assoc. simpl.
  pose proof (framed_get_pair_data f H flag 0 (Some 1) [A; B]) as Hfr.
  simpl in Hfr. rewrite Nat.add_0_r in Hfr. rewrite Hfr.
  unfold pair_data_between. eauto.
Qed.

Lemma runs_within f r DF flag u fn :
  runs_to r DF
    (DF_features ← rows_of_user r u fn;
     get_pair_data f flag DF_features None)
    (A ← user_frame DF u fn; pair_data_within f flag A).
Proof.
  intros H HDF. rewrite bind_run, (rows_of_user_run r DF) by done.
  destruct (user_frame DF u fn) as [A|e]; simpl.
  2: { exists []. by rewrite app_nil_r. }
  pose proof (framed_get_pair_data f H flag 0 None [A]) as Hfr.
  simpl in Hfr. rewrite Nat.add_0_r in Hfr. rewrite Hfr.
  unfold pair_data_within. eauto.
Qed.

Lemma runs_negative f r DF user_names fn flag :
  runs_to r DF (negative_pair_DFs f r user_names fn flag)
               (negative_tables f DF user_names fn flag).
Proof.
  unfold negative_pair_DFs, negative_tables.
  apply runs_bind; [| intros; apply runs_ret].
  apply runs_mapM; intros i _. apply runs_mapM; intros j _.
  apply runs_between.
Qed.

Lemma runs_positive f r DF user_names fn flag :
  runs_to r DF (positive_pair_DFs f r user_names fn flag)
               (positive_tables f DF user_names fn flag).
Proof.
  unfold positive_pair_DFs, positive_tables.
  apply runs_mapM; intros u _. apply runs_within.
Qed.

(** The generator computes [extract_pairs_value] of the table and only adds
    objects to the store. *)
Lemma extract_pairs_runs f r DF fn flag :
  runs_to r DF (extract_pairs f r fn flag) (extract_pairs_value f DF fn flag).
Proof.
  unfold extract_pairs, extract_pairs_value.
  destruct (flag && bool_decide ("sequence" ∈ fn)); [apply runs_raise|].
  apply runs_get_bind.
  apply runs_bind; [apply runs_lift | intros col _].
  apply runs_bind; [apply runs_lift | intros user_names _].
  apply runs_bind; [apply runs_negative | intros negatives _].
  apply runs_bind; [apply runs_lift | intros DF_negative _].
  apply runs_bind; [apply runs_positive | intros positives _].
  apply runs_bind; [apply runs_lift | intros DF_positive _].
  apply runs_lift.
Qed.

(** * The configuration check *)

Lemma nc_ok {A} (a : A) : no_config_error (Ok a).
Proof. done. Qed.

Lemma nc_bind {A B} (m : result A) (k : A → result B) :
  no_config_error m → (∀ a, no_config_error (k a)) →
  no_config_error (m ≫= k).
Proof.
  intros Hm Hk. destruct m as [a|e]; [apply Hk|].
  intros [= ->]. by apply Hm.
Qed.

Lemma nc_mapM {A B} (f : A → result B) l :
  (∀ x, no_config_error (f x)) → no_config_error (mapM f l).
Proof.
  intros Hf. induction l as [|x l IH]; simpl; [done|].
  apply nc_bind; [done | intros y]. apply nc_bind; [done | done].
Qed.

(** Closes [no_config_error] goals on the pandas and numpy primitives: each
    raises a [KeyError], a [TypeError], an [IndexError] or a [ValueError]
    with a message of its own. *)
Ltac nc_prim :=
  repeat first
    [ apply nc_ok
    | apply nc_bind; [| intros ?]
    | apply nc_mapM; intros ?
    | match goal with
      | |- no_config_error (match ?x with _ => _ end) => destruct x
      end
    | (intros [=]; vm_compute in *; discriminate)
    | done ].

Lemma nc_getitem df c : no_config_error (getitem df c).
Proof. unfold getitem. nc_prim. Qed.

Lemma nc_loc df mask names : no_config_error (loc df mask names).
Proof. unfold loc. nc_prim. Qed.

Lemma nc_drop_column df c : no_config_error (drop_column df c).
Proof. unfold drop_column. nc_prim. Qed.

Lemma nc_merge A B key s : no_config_error (merge A B key s).
Proof. unfold merge. nc_prim. Qed.

Lemma nc_pd_concat dfs : no_config_error (pd_concat dfs).
Proof. unfold pd_concat. nc_prim. Qed.

Lemma nc_pd_unique col : no_config_error (pd_unique col).
Proof. unfold pd_unique. nc_prim. Qed.

Lemma nc_np_concatenate l : no_config_error (np_concatenate l).
Proof. unfold np_concatenate. nc_prim. Qed.

Lemma nc_np_reshape l w : no_config_error (np_reshape l w).
Proof. unfold np_reshape. nc_prim. Qed.

Lemma nc_pd_DataFrame d c : no_config_error (pd_DataFrame d c).
Proof. unfold pd_DataFrame. nc_prim. Qed.

Lemma nc_broadcast_width a b : no_config_error (broadcast_width a b).
Proof. unfold broadcast_width. nc_prim. Qed.

Lemma nc_broadcast_abs_diff f A B :
  (∀ a b, no_config_error (f a b)) →
  no_config_error (broadcast_abs_diff f A B).
Proof.
  intros Hf. unfold broadcast_abs_diff, row_abs_diff.
  apply nc_bind; [apply nc_broadcast_width | intros w]. nc_prim.
Qed.

Lemma nc_np_abs_sub a b : no_config_error (np_abs_sub a b).
Proof. unfold np_abs_sub. nc_prim. Qed.

Lemma never_ret {A} (a : A) : never_config_error (mret a).
Proof. intros h. done. Qed.

Lemma never_lift {A} (r : result A) :
  no_config_error r → never_config_error (lift r).
Proof. intros Hr h. exact Hr. Qed.

Lemma never_bind {A B} (m : M A) (k : A → M B) :
  never_config_error m → (∀ a, never_config_error (k a)) →
  never_config_error (m ≫= k).
Proof.
  intros Hm Hk h. rewrite bind_run. specialize (Hm h).
  destruct (m h) as [[a|e] h']; simpl in *; [apply Hk|].
  intros [= ->]. by apply Hm.
Qed.

Lemma never_mapM {A B} (f : A → M B) l :
  (∀ x, never_config_error (f x)) → never_config_error (mapM f l).
Proof.
  intros Hf. induction l as [|x l IH]; simpl; [apply never_ret|].
  apply never_bind; [done | intros y].
  apply never_bind; [done | intros ys]. apply never_ret.
Qed.

Lemma never_get r : never_config_error (get r).
Proof. intros h. unfold get. by destruct (h !! r). Qed.

Lemma never_put r df : never_config_error (put r df).
Proof. intros h. done. Qed.

Lemma never_new df : never_config_error (new df).
Proof. intros h. done. Qed.

Ltac never_steps :=
  repeat first
    [ apply never_ret | apply never_get | apply never_put | apply never_new
    | apply never_bind; [| intros ?]
    | apply never_mapM; intros ?
    | match goal with
      | |- never_config_error (if ?b then _ else _) => destruct b
      | |- never_config_error (let '(_, _) := ?p in _) => destruct p
      end ].

Lemma never_setitem_in_place r c v : never_config_error (setitem_in_place r c v).
Proof. unfold setitem_in_place. never_steps. Qed.

Lemma never_abs_diff f a b w :
  (∀ x y, no_config_error (f x y)) →
  never_config_error (abs_diff_between_all_row_pairs f a b w).
Proof.
  intros Hf. unfold abs_diff_between_all_row_pairs, shape. never_steps.
  - apply never_lift. by apply nc_broadcast_abs_diff.
  - apply never_lift. destruct w.
    + apply nc_bind; [| intros; apply nc_np_concatenate]. nc_prim.
    + apply nc_np_reshape.
  - apply never_lift, nc_pd_DataFrame.
Qed.

Lemma never_cartesian_product a b w s :
  never_config_error (cartesian_product a b w s).
Proof.
  unfold cartesian_product. never_steps;
    try apply never_setitem_in_place.
  apply never_lift.
  apply nc_bind; [apply nc_merge | intros ?].
  apply nc_bind; [apply nc_drop_column | intros ?].
  destruct w; [| apply nc_ok].
  repeat (apply nc_bind;
          [first [apply nc_getitem | apply nc_drop_column] | intros ?]).
  apply nc_ok.
Qed.

Lemma never_get_pair_data f flag a b :
  (∀ x y, no_config_error (f x y)) →
  never_config_error (get_pair_data f flag a b).
Proof.
  intros Hf. unfold get_pair_data.
  destruct b, flag; auto using never_abs_diff, never_cartesian_product.
Qed.

Lemma never_rows_of_user r u fn : never_config_error (rows_of_user r u fn).
Proof.
  unfold rows_of_user. never_steps.
  - apply never_lift, nc_getitem.
  - apply never_lift, nc_loc.
Qed.

(** Past the check of lines 29-36 nothing raises its exception. *)
Lemma never_after_check f r fn flag :
  (∀ x y, no_config_error (f x y)) →
  never_config_error
    (DF ← get r;
     col ← lift (getitem DF "user_name");
     user_names ← lift (pd_unique col);
     all_pair_DFs ← negative_pair_DFs f r user_names fn flag;
     DF_negative ← lift (pd_concat all_pair_DFs);
     let DF_negative := setitem DF_negative "label" (λ _, Num 0) in
     all_pair_DFs ← positive_pair_DFs f r user_names fn flag;
     DF_positive ← lift (pd_concat all_pair_DFs);
     let DF_positive := setitem DF_positive "label" (λ _, Num 1) in
     lift (pd_concat [DF_negative; DF_positive])).
Proof.
  intros Hf. unfold negative_pair_DFs, positive_pair_DFs.
  never_steps;
    first [ apply never_rows_of_user
          | by apply never_get_pair_data
          | apply never_lift;
            first [ apply nc_getitem | apply nc_pd_unique | apply nc_pd_concat
                  | apply nc_loc ] ].
Qed.

Lemma config_error_run f r fn h :
  "sequence" ∈ fn →
  extract_pairs f r fn true h = (Raise (ValueError config_error_msg), h).
Proof. intros Hin. unfold extract_pairs. by rewrite bool_decide_eq_true_2. Qed.

Lemma config_error_iff f r fn flag h :
  (∀ x y, no_config_error (f x y)) →
  (extract_pairs f r fn flag h).1 = Raise (ValueError config_error_msg)
  ↔ flag = true ∧ "sequence" ∈ fn.
Proof.
  intros Hf. split.
  - intros Hrun. unfold extract_pairs in Hrun.
    destruct (flag && bool_decide ("sequence" ∈ fn)) eqn:Hc.
    + by apply andb_true_iff in Hc as [-> Hin%bool_decide_eq_true].
    + by apply (never_after_check f r fn flag) in Hrun.
  - intros [-> Hin]. by rewrite config_error_run.
Qed.

(** C6.  With [only_feature_diffs] set and "sequence" among the feature
    names, [extract_pairs] raises the configuration [ValueError] whatever the
    store holds (even when the table is missing a column or absent) and
    leaves the store as it was: nothing has been created or computed.  With
    any other combination that exception is not the outcome.  (The cell
    arithmetic [f] is assumed not to raise that very message itself.) *)
Theorem extract_pairs_config_error
    (f : cell → cell → result cell) (r : ref) (fn : list string)
    (flag : bool) (h : heap)
    (Hf : ∀ x y, no_config_error (f x y)) :
  (flag = true ∧ "sequence" ∈ fn →
     extract_pairs f r fn flag h = (Raise (ValueError config_error_msg), h))
  ∧ (¬ (flag = true ∧ "sequence" ∈ fn) →
     (extract_pairs f r fn flag h).1 ≠ Raise (ValueError config_error_msg)).
Proof.
  split.
  - intros [-> Hin]. by apply config_error_run.
  - intros Hnot Hrun. by apply Hnot, (config_error_iff f r fn flag h).
Qed.

Lemma extract_pairs_config_error_witness :
  extract_pairs np_abs_sub 0 ["x"; "sequence"] true [table_212]
    = (Raise (ValueError config_error_msg), [table_212])
  ∧ (extract_pairs np_abs_sub 0 ["x"; "sequence"] false [table_212]).1
    ≠ Raise (ValueError config_error_msg)
  ∧ (extract_pairs np_abs_sub 0 ["x"; "y"] true [table_23]).1
    ≠ Raise (ValueError config_error_msg).
Proof.
  split; [| split].
  - apply (extract_pairs_config_error np_abs_sub 0 ["x"; "sequence"] true
             [table_212] nc_np_abs_sub).
    split; [reflexivity | compute_done].
  - apply (extract_pairs_config_error np_abs_sub 0 ["x"; "sequence"] false
             [table_212] nc_np_abs_sub).
    intros [Hflag _]. discriminate Hflag.
  - apply (extract_pairs_config_error np_abs_sub 0 ["x"; "y"] true
             [table_23] nc_np_abs_sub).
    intros [_ Hin]. revert Hin. compute_done.
Defined.

(** C10.  In diff mode the configuration exception is the outcome exactly
    when the literal name "sequence" is a member of [feature_names]: the
    condition mentions neither the table nor any cell of it, so two runs on
    different stores and tables with the same names agree on it, and names
    without "sequence" pass whatever their columns hold. *)
Theorem config_check_is_name_based
    (f1 f2 : cell → cell → result cell) (r1 r2 : ref) (fn : list string)
    (h1 h2 : heap)
    (Hf1 : ∀ x y, no_config_error (f1 x y))
    (Hf2 : ∀ x y, no_config_error (f2 x y)) :
  ((extract_pairs f1 r1 fn true h1).1 = Raise (ValueError config_error_msg)
     ↔ "sequence" ∈ fn)
  ∧ ((extract_pairs f1 r1 fn true h1).1 = Raise (ValueError config_error_msg)
     ↔ (extract_pairs f2 r2 fn true h2).1 = Raise (ValueError config_error_msg))
  ∧ ("sequence" ∉ fn →
     (extract_pairs f1 r1 fn true h1).1 ≠ Raise (ValueError config_error_msg)).
Proof.
  pose proof (config_error_iff f1 r1 fn true h1 Hf1) as H1.
  pose proof (config_error_iff f2 r2 fn true h2 Hf2) as H2.
  tauto.
Qed.

Lemma config_check_is_name_based_witness :
  ((extract_pairs np_abs_sub 0 ["keystrokes"] true [table_keystrokes]).1
     = Raise (ValueError config_error_msg) ↔ "sequence" ∈ ["keystrokes"])
  ∧ ((extract_pairs np_abs_sub 0 ["keystrokes"] true [table_keystrokes]).1
       = Raise (ValueError config_error_msg)
     ↔ (extract_pairs np_abs_sub 1 ["keystrokes"] true [table_23; table_212]).1
       = Raise (ValueError config_error_msg))
  ∧ ("sequence" ∉ ["keystrokes"] →
     (extract_pairs np_abs_sub 0 ["keystrokes"] true [table_keystrokes]).1
       ≠ Raise (ValueError config_error_msg)).
Proof.
  exact (config_check_is_name_based np_abs_sub np_abs_sub 0 1 ["keystrokes"]
           [table_keystrokes] [table_23; table_212]
           nc_np_abs_sub nc_np_abs_sub).
Defined.

(** * The generator and the store *)

Lemma extract_pairs_no_table f r fn flag (h : heap) :
  h !! r = None →
  extract_pairs f r fn flag h =
  (Raise (if flag && bool_decide ("sequence" ∈ fn)
          then ValueError config_error_msg
          else ReferenceError "no such object"), h).
Proof.
  intros Hr. unfold extract_pairs.
  destruct (flag && bool_decide ("sequence" ∈ fn)); [done|].
  rewrite bind_run. unfold get. by rewrite Hr.
Qed.


(** C9.  The outcome of the generator is a function of its input: two runs
    given the same table (same rows in the same order), the same feature
    names and the same flag have the same outcome, row for row, wherever the
    table is stored and whatever else the two stores hold. *)
Theorem extract_pairs_deterministic
    (f : cell → cell → result cell) (r1 r2 : ref) (fn : list string)
    (flag : bool) (h1 h2 : heap) :
  h1 !! r1 = h2 !! r2 →
  (extract_pairs f r1 fn flag h1).1 = (extract_pairs f r2 fn flag h2).1.
Proof.
  intros Heq. destruct (h1 !! r1) as [DF|] eqn:H1.
  - destruct (extract_pairs_runs f r1 DF fn flag h1 H1) as [ext1 ->].
    destruct (extract_pairs_runs f r2 DF fn flag h2 (eq_sym Heq)) as [ext2 ->].
    reflexivity.
  - by rewrite !extract_pairs_no_table.
Qed.

Lemma extract_pairs_deterministic_witness :
  (extract_pairs np_abs_sub 0 ["x"; "y"] false [table_23]).1
  = (extract_pairs np_abs_sub 2 ["x"; "y"] false
       [table_212; group_3; table_23; group_2]).1.
Proof.
  apply (extract_pairs_deterministic np_abs_sub 0 2 ["x"; "y"] false
           [table_23] [table_212; group_3; table_23; group_2]).
  reflexivity.
Defined.

(** * The engine *)

(** ** Running the engine on frames of its own *)

Lemma cartesian_product_between_run A B s :
  cartesian_product 0 1 false s [A; B] =
  (join_and_filter (with_key A) (with_key B) false s, [with_key A; with_key B]).
Proof. reflexivity. Qed.

Lemma cartesian_product_within_run A s :
  let A' := with_row_number (with_row_number (with_key (with_key A))) in
  cartesian_product 0 0 true s [A] = (join_and_filter A' A' true s, [A']).
Proof. reflexivity. Qed.

(** ** Lists, labels, strings *)

Lemma string_to_list_app (s t : string) :
  String.list_ascii_of_string (s +:+ t)
  = String.list_ascii_of_string s ++ String.list_ascii_of_string t.
Proof. induction s as [|a s IH]; simpl; [done | by rewrite IH]. Qed.

Lemma string_to_list_length (s : string) :
  length (String.list_ascii_of_string s) = String.length s.
Proof. induction s as [|a s IH]; simpl; [done | by rewrite IH]. Qed.

Lemma string_to_list_inj (s t : string) :
  String.list_ascii_of_string s = String.list_ascii_of_string t → s = t.
Proof.
  intros Heq.
  rewrite <- (String.string_of_list_ascii_of_string s),
          <- (String.string_of_list_ascii_of_string t).
  by rewrite Heq.
Qed.

(** Two names with suffixes of the same length are equal only if both the
    names and the suffixes are. *)
Lemma append_suffix_inj (s t u v : string) :
  String.length u = String.length v →
  s +:+ u = t +:+ v → s = t ∧ u = v.
Proof.
  intros Hlen Heq.
  apply (f_equal String.list_ascii_of_string) in Heq.
  rewrite !string_to_list_app in Heq.
  apply app_inj_2 in Heq as [Hs Hu].
  - split; by apply string_to_list_inj.
  - by rewrite !string_to_list_length.
Qed.

Lemma suffixed_ne_key (c u : string) :
  u = "_A" ∨ u = "_B" → c +:+ u ≠ "_tmp_cart_prod".
Proof.
  intros Hu Heq. change "_tmp_cart_prod" with ("_tmp_cart_pr" +:+ "od") in Heq.
  apply append_suffix_inj in Heq as [_ ->]; [by destruct Hu | by destruct Hu as [->| ->]].
Qed.

(** ** Column positions *)

Lemma col_index_None c cols : c ∉ cols → col_index c cols = None.
Proof.
  induction cols as [|c' cs IH]; simpl; [done|].
  intros [Hne Hnin]%not_elem_of_cons.
  rewrite decide_False by done. by rewrite IH.
Qed.

Lemma col_index_Some c cols p :
  col_index c cols = Some p → cols !! p = Some c.
Proof.
  revert p. induction cols as [|c' cs IH]; intros p; simpl; [done|].
  destruct (decide (c = c')) as [->|Hne]; [by intros [= <-]|].
  destruct (col_index c cs) as [q|]; [|done]. intros [= <-]. by apply IH.
Qed.

Lemma col_index_elem_of c cols : c ∈ cols → is_Some (col_index c cols).
Proof.
  induction cols as [|c' cs IH]; simpl; [by intros ?%elem_of_nil|].
  intros Hin. destruct (decide (c = c')); [by eexists|].
  apply elem_of_cons in Hin as [?|Hin]; [done|].
  destruct (IH Hin) as [q ->]. by eexists.
Qed.

Lemma col_index_app_fresh c l l' :
  c ∉ l → col_index c (l ++ c :: l') = Some (length l).
Proof.
  induction l as [|c' l IH]; simpl.
  - intros _. by rewrite decide_True.
  - intros [Hne Hnin]%not_elem_of_cons.
    rewrite decide_False by done. by rewrite IH.
Qed.

(** ** Rows under labels *)

Lemma keep_labelled_app keep c1 c2 r1 r2 :
  length c1 = length r1 →
  keep_labelled keep (c1 ++ c2) (r1 ++ r2)
  = keep_labelled keep c1 r1 ++ keep_labelled keep c2 r2.
Proof.
  intros Hlen. unfold keep_labelled.
  by rewrite zip_with_app, List.filter_app, map_app.
Qed.

Lemma keep_labelled_cons keep c cs x r :
  keep_labelled keep (c :: cs) (x :: r)
  = (if keep c then [x] else []) ++ keep_labelled keep cs r.
Proof. unfold keep_labelled. simpl. by destruct (keep c). Qed.

Lemma keep_labelled_nil keep : keep_labelled keep [] [] = [].
Proof. reflexivity. Qed.

Lemma keep_labelled_all keep cs r :
  length r = length cs → Forall (λ c, keep c = true) cs →
  keep_labelled keep cs r = r.
Proof.
  revert r. induction cs as [|c cs IH]; intros [|x r] Hlen Hall;
    try done.
  apply Forall_cons in Hall as [Hc Hall].
  rewrite keep_labelled_cons, Hc, IH; [done | by simplify_eq/= | done].
Qed.

Lemma filter_all {A} (keep : A → bool) l :
  Forall (λ c, keep c = true) l → List.filter keep l = l.
Proof.
  induction 1 as [|c l Hc _ IH]; simpl; [done|]. by rewrite Hc, IH.
Qed.

Lemma cell_at_app_fresh (r : list cell) x rest n :
  length r = n → cell_at (r ++ x :: rest) n = x.
Proof.
  intros <-. unfold cell_at. by rewrite list_lookup_middle.
Qed.

(** ** Numbered rows and the cross join *)

Lemma imap_zip_seq {A B} (f : nat → A → B) (l : list A) (k : nat) :
  imap (λ i, f (k + i)) l = map (λ p, f p.1 p.2) (zip (seq k (length l)) l).
Proof.
  revert k. induction l as [|x l IH]; intros k; [done|].
  rewrite imap_cons. simpl. rewrite Nat.add_0_r. f_equal.
  rewrite <- (IH (S k)). apply imap_ext. intros i y _. simpl.
  f_equal. lia.
Qed.

Lemma imap_numbered {A B} (f : nat → A → B) (l : list A) :
  imap f l = map (λ p, f p.1 p.2) (numbered l).
Proof. apply (imap_zip_seq f l 0). Qed.

Lemma numbered_snd {A} (l : list A) : map snd (numbered l) = l.
Proof. unfold numbered. apply (snd_zip (seq 0 (length l)) l). by rewrite length_seq. Qed.

Lemma numbered_length {A} (l : list A) : length (numbered l) = length l.
Proof. unfold numbered. rewrite length_zip_with, length_seq. lia. Qed.

Lemma numbered_elem_of {A} (l : list A) p :
  p ∈ numbered l → l !! p.1 = Some p.2.
Proof.
  unfold numbered. intros Hin.
  apply list_elem_of_lookup in Hin as [i Hi].
  apply lookup_zip_with_Some in Hi as (a & b & -> & Ha & Hb).
  apply lookup_seq in Ha as [-> _]. done.
Qed.

Lemma flat_map_map_prod {A B C} (F : A → B → C) (l1 : list A) (l2 : list B) :
  flat_map (λ x, map (F x) l2) l1 = map (λ p, F p.1 p.2) (list_prod l1 l2).
Proof.
  induction l1 as [|x l1 IH]; simpl; [done|].
  rewrite IH, map_app, map_map. done.
Qed.

Lemma list_prod_map {A B A' B'} (g1 : A → A') (g2 : B → B') l1 l2 :
  list_prod (map g1 l1) (map g2 l2)
  = map (λ p, (g1 p.1, g2 p.2)) (list_prod l1 l2).
Proof.
  induction l1 as [|x l1 IH]; simpl; [done|].
  rewrite IH, map_app, !map_map. done.
Qed.

Lemma flat_map_fmap {A B C} (f : B → list C) (g : A → B) l :
  flat_map f (map g l) = flat_map (λ x, f (g x)) l.
Proof. induction l as [|x l IH]; simpl; [done | by rewrite IH]. Qed.

Lemma select_map {A B} (g : A → B) (keep : A → bool) (l : list A) :
  select (map keep l) (map g l) = map g (List.filter keep l).
Proof.
  unfold select. induction l as [|x l IH]; simpl; [done|].
  destruct (keep x); simpl; by rewrite IH.
Qed.

Lemma numbered_row_length (l : list (list cell)) n p :
  Forall (λ r, length r = n) l → p ∈ numbered l → length p.2 = n.
Proof.
  intros Hall Hin%numbered_elem_of.
  by apply (Forall_lookup_1 _ _ _ _ Hall Hin).
Qed.

Lemma map_ext_elem_of {A B} (f g : A → B) l :
  (∀ x, x ∈ l → f x = g x) → map f l = map g l.
Proof. intros H. apply map_ext_in. intros x Hx. by apply H, list_elem_of_In. Qed.

Lemma elem_of_map {A B} (f : A → B) l y :
  y ∈ map f l → ∃ x, y = f x ∧ x ∈ l.
Proof.
  intros (x & <- & Hx)%list_elem_of_In%in_map_iff.
  exists x. by rewrite list_elem_of_In.
Qed.

Lemma flat_map_ext_elem_of {A B} (f g : A → list B) l :
  (∀ x, x ∈ l → f x = g x) → flat_map f l = flat_map g l.
Proof.
  induction l as [|x l IH]; intros H; simpl; [done|].
  rewrite H by left. rewrite IH; [done|]. intros y Hy. apply H. by right.
Qed.

Lemma filter_all_elem_of {A} (keep : A → bool) l :
  (∀ x, x ∈ l → keep x = true) → List.filter keep l = l.
Proof. intros H. apply filter_all. by apply Forall_forall. Qed.

(** ** The join of two prepared frames *)

Section Prepared.

Variables (cs ex : list string) (e : nat → list cell).
Hypothesis Hkey_cs : "_tmp_cart_prod" ∉ cs.
Hypothesis Hkey_ex : "_tmp_cart_prod" ∉ ex.
Hypothesis He : ∀ i, length (e i) = length ex.

Lemma merge_prepared_columns :
  map (λ c, if bool_decide (c ≠ "_tmp_cart_prod"
                            ∧ c ∈ cs ++ "_tmp_cart_prod" :: ex)
            then c +:+ "_A" else c) (cs ++ "_tmp_cart_prod" :: ex)
  ++ map (λ c, if bool_decide (c ∈ cs ++ "_tmp_cart_prod" :: ex)
               then c +:+ "_B" else c)
         (List.filter (neqb "_tmp_cart_prod") (cs ++ "_tmp_cart_prod" :: ex))
  = (map suffix_A cs ++ "_tmp_cart_prod" :: map suffix_A ex)
    ++ (map suffix_B cs ++ map suffix_B ex).
Proof using Hkey_cs Hkey_ex.
  assert (Hcs : ∀ c, c ∈ cs → c ≠ "_tmp_cart_prod") by (by intros c Hin ->).
  assert (Hex : ∀ c, c ∈ ex → c ≠ "_tmp_cart_prod") by (by intros c Hin ->).
  assert (Hin_cs : ∀ c, c ∈ cs → c ∈ cs ++ "_tmp_cart_prod" :: ex).
  { intros c Hc. rewrite elem_of_app. tauto. }
  assert (Hin_ex : ∀ c, c ∈ ex → c ∈ cs ++ "_tmp_cart_prod" :: ex).
  { intros c Hc. rewrite elem_of_app, elem_of_cons. tauto. }
  f_equal.
  - rewrite map_app, map_cons. rewrite bool_decide_eq_false_2 by tauto.
    f_equal; [| f_equal]; apply map_ext_elem_of; intros c Hc;
      rewrite bool_decide_eq_true_2; auto.
  - rewrite List.filter_app. cbn [List.filter].
    unfold neqb at 2. rewrite bool_decide_eq_false_2 by tauto.
    rewrite !filter_all_elem_of, map_app.
    + f_equal; apply map_ext_elem_of; intros c Hc;
        rewrite bool_decide_eq_true_2; auto.
    + intros c Hc. apply bool_decide_eq_true_2. auto.
    + intros c Hc. apply bool_decide_eq_true_2. auto.
Qed.

Lemma prepared_key (l : list (list cell)) p :
  Forall (λ r, length r = length cs) l → p ∈ numbered l →
  cell_at (p.2 ++ Num 0 :: e p.1) (length cs) = Num 0.
Proof using Type.
  intros Hall Hin. apply cell_at_app_fresh. by eapply numbered_row_length.
Qed.

Lemma keep_prepared (r : list cell) i :
  length r = length cs →
  keep_labelled (neqb "_tmp_cart_prod") (cs ++ "_tmp_cart_prod" :: ex)
    (r ++ Num 0 :: e i)
  = r ++ e i.
Proof using Hkey_cs Hkey_ex He.
  intros Hlen.
  rewrite keep_labelled_app, keep_labelled_cons by done.
  unfold neqb at 2. rewrite bool_decide_eq_false_2 by tauto.
  rewrite !keep_labelled_all; try done.
  - apply Forall_forall. intros c Hc. apply bool_decide_eq_true_2.
    by intros ->.
  - apply Forall_forall. intros c Hc. apply bool_decide_eq_true_2.
    by intros ->.
Qed.

Lemma merge_prepared (la lb : list (list cell)) :
  Forall (λ r, length r = length cs) la →
  Forall (λ r, length r = length cs) lb →
  merge (prepared cs ex e la) (prepared cs ex e lb) "_tmp_cart_prod" ("_A", "_B")
  = Ok (mkDF (map suffix_A cs
              ++ "_tmp_cart_prod"
                 :: (map suffix_A ex ++ map suffix_B cs ++ map suffix_B ex))
             (map (λ p, p.1.2 ++ Num 0 :: (e p.1.1 ++ p.2.2 ++ e p.2.1))
                  (cross_join la lb))).
Proof using Hkey_cs Hkey_ex He.
  intros Hla Hlb. unfold merge, prepared. cbn [columns rows fst snd].
  rewrite col_index_app_fresh by done.
  rewrite merge_prepared_columns. do 2 f_equal.
  { by rewrite <- app_assoc. }
  rewrite flat_map_fmap.
  rewrite (flat_map_ext_elem_of _
             (λ p, map (λ q, p.2 ++ Num 0 :: (e p.1 ++ q.2 ++ e q.1))
                       (numbered lb))).
  { apply (flat_map_map_prod
             (λ p q, p.2 ++ Num 0 :: (e p.1 ++ q.2 ++ e q.1))). }
  intros p Hp. rewrite filter_all_elem_of.
  - rewrite map_map. apply map_ext_elem_of. intros q Hq.
    rewrite keep_prepared by (by eapply numbered_row_length).
    by rewrite <- app_assoc.
  - intros rb [q [-> Hq]]%elem_of_map.
    apply bool_decide_eq_true_2.
    by rewrite (prepared_key lb q), (prepared_key la p).
Qed.

End Prepared.

(** ** Reading and dropping one column

    The frame has the labels [pre ++ c :: post] and, for every [x] of [l], the
    row [g1 x ++ v x :: g2 x] with [g1 x] under [pre]. *)

Section OneColumn.

Context {X : Type}.
Variables (c : string) (pre post : list string).
Variables (g1 g2 : X → list cell) (v : X → cell) (l : list X).
Hypothesis Hpre : c ∉ pre.
Hypothesis Hg1 : ∀ x, x ∈ l → length (g1 x) = length pre.

Lemma getitem_column :
  getitem (mkDF (pre ++ c :: post) (map (λ x, g1 x ++ v x :: g2 x) l)) c
  = Ok (map v l).
Proof using Hpre Hg1.
  unfold getitem. cbn [columns rows].
  rewrite col_index_app_fresh by done. f_equal.
  rewrite map_map. apply map_ext_elem_of. intros x Hx.
  apply cell_at_app_fresh. auto.
Qed.

Hypothesis Hpost : c ∉ post.
Hypothesis Hg2 : ∀ x, x ∈ l → length (g2 x) = length post.

Lemma drop_column_column :
  drop_column (mkDF (pre ++ c :: post) (map (λ x, g1 x ++ v x :: g2 x) l)) c
  = Ok (mkDF (pre ++ post) (map (λ x, g1 x ++ g2 x) l)).
Proof using Hpre Hg1 Hpost Hg2.
  assert (Hkeep : ∀ cols : list string, c ∉ cols →
            Forall (λ c', neqb c c' = true) cols).
  { intros cols Hnin. apply Forall_forall. intros c' Hc'.
    apply bool_decide_eq_true_2. by intros ->. }
  unfold drop_column. cbn [columns rows].
  rewrite bool_decide_eq_true_2
    by (rewrite elem_of_app, elem_of_cons; tauto).
  do 2 f_equal.
  - rewrite List.filter_app. cbn [List.filter].
    unfold neqb at 2. rewrite bool_decide_eq_false_2 by tauto.
    by rewrite !filter_all by auto.
  - rewrite map_map. apply map_ext_elem_of. intros x Hx.
    rewrite keep_labelled_app, keep_labelled_cons by (symmetry; auto).
    unfold neqb at 2. rewrite bool_decide_eq_false_2 by tauto.
    by rewrite !keep_labelled_all by auto.
Qed.

End OneColumn.

(** ** Suffixed labels *)

Lemma key_not_suffixed_A cs : "_tmp_cart_prod" ∉ map suffix_A cs.
Proof.
  intros [c [Heq _]]%elem_of_map. symmetry in Heq. unfold suffix_A in Heq.
  by apply suffixed_ne_key in Heq; [| left].
Qed.

Lemma key_not_suffixed_B cs : "_tmp_cart_prod" ∉ map suffix_B cs.
Proof.
  intros [c [Heq _]]%elem_of_map. symmetry in Heq. unfold suffix_B in Heq.
  by apply suffixed_ne_key in Heq; [| right].
Qed.

Lemma suffix_A_elem_of c cs : suffix_A c ∈ map suffix_A cs → c ∈ cs.
Proof.
  intros [c' [Heq Hin]]%elem_of_map. unfold suffix_A, suffix_B in Heq.
  by apply append_suffix_inj in Heq as [-> _].
Qed.

Lemma suffix_B_elem_of c cs : suffix_B c ∈ map suffix_B cs → c ∈ cs.
Proof.
  intros [c' [Heq Hin]]%elem_of_map. unfold suffix_A, suffix_B in Heq.
  by apply append_suffix_inj in Heq as [-> _].
Qed.

Lemma suffix_A_not_B c cs : suffix_A c ∉ map suffix_B cs.
Proof.
  intros [c' [Heq Hin]]%elem_of_map. unfold suffix_A, suffix_B in Heq.
  by apply append_suffix_inj in Heq as [_ ?].
Qed.

Lemma suffix_B_not_A c cs : suffix_B c ∉ map suffix_A cs.
Proof.
  intros [c' [Heq Hin]]%elem_of_map. unfold suffix_A, suffix_B in Heq.
  by apply append_suffix_inj in Heq as [_ ?].
Qed.

Lemma cross_join_lengths (la lb : list (list cell)) n p :
  Forall (λ r, length r = n) la → Forall (λ r, length r = n) lb →
  p ∈ cross_join la lb → length p.1.2 = n ∧ length p.2.2 = n.
Proof.
  intros Hla Hlb Hp. unfold cross_join in Hp.
  destruct p as [pa pb]. apply list_elem_of_In, in_prod_iff in Hp as [Ha Hb].
  apply list_elem_of_In in Ha, Hb.
  split; [by apply (numbered_row_length la) | by apply (numbered_row_length lb)].
Qed.

(** ** Lines 182-196 on prepared frames *)

Section Join.

Variables (cs ex : list string) (e : nat → list cell).
Hypothesis Hkey_cs : "_tmp_cart_prod" ∉ cs.
Hypothesis Hkey_ex : "_tmp_cart_prod" ∉ ex.
Hypothesis He : ∀ i, length (e i) = length ex.
Variables (la lb : list (list cell)).
Hypothesis Hla : Forall (λ r, length r = length cs) la.
Hypothesis Hlb : Forall (λ r, length r = length cs) lb.

(** Lines 182-184: the cross join, without the key column. *)
Lemma merge_drop_prepared :
  (DF_all_pairs ← merge (prepared cs ex e la) (prepared cs ex e lb)
                    "_tmp_cart_prod" ("_A", "_B");
   drop_column DF_all_pairs "_tmp_cart_prod")
  = Ok (mkDF (map suffix_A cs
              ++ map suffix_A ex ++ map suffix_B cs ++ map suffix_B ex)
             (map (λ p, p.1.2 ++ e p.1.1 ++ p.2.2 ++ e p.2.1)
                  (cross_join la lb))).
Proof using All.
  rewrite merge_prepared by done. cbn [mbind result_bind].
  apply (drop_column_column "_tmp_cart_prod" (map suffix_A cs)
           (map suffix_A ex ++ map suffix_B cs ++ map suffix_B ex)
           (λ p, p.1.2) (λ p, e p.1.1 ++ p.2.2 ++ e p.2.1) (λ _, Num 0)).
  - apply key_not_suffixed_A.
  - intros p Hp. rewrite length_map.
    by eapply (cross_join_lengths la lb).
  - rewrite !not_elem_of_app. split_and!.
    + intros [c [Heq Hc]]%elem_of_map. unfold suffix_A in Heq. symmetry in Heq.
      by apply suffixed_ne_key in Heq; [| left].
    + apply key_not_suffixed_B.
    + intros [c [Heq Hc]]%elem_of_map. unfold suffix_B in Heq. symmetry in Heq.
      by apply suffixed_ne_key in Heq; [| right].
  - intros p Hp. rewrite !length_app, !length_map, !He.
    destruct (cross_join_lengths la lb (length cs) p) as [_ ->]; done.
Qed.

End Join.

(** Two different groups: the whole cross join. *)
Lemma join_between cs (la lb : list (list cell)) :
  "_tmp_cart_prod" ∉ cs →
  Forall (λ r, length r = length cs) la →
  Forall (λ r, length r = length cs) lb →
  join_and_filter (prepared cs [] (λ _, []) la) (prepared cs [] (λ _, []) lb)
                  false ("_A", "_B")
  = Ok (mkDF (pair_schema false cs) (map concat_row (cross_join la lb))).
Proof.
  intros Hkey Hla Hlb.
  pose proof (merge_drop_prepared cs [] (λ _, []) Hkey (not_elem_of_nil _)
                (λ _, eq_refl) la lb Hla Hlb) as Hmd.
  apply rbind_ok in Hmd as (M & HM & HD).
  unfold join_and_filter. rewrite HM. cbn [mbind result_bind]. rewrite HD.
  cbn [mbind result_bind mret result_ret map app]. unfold pair_schema.
  rewrite app_nil_r. do 2 f_equal.
  apply map_ext. intros p. unfold concat_row. by rewrite app_nil_r.
Qed.

Lemma zip_with_map_same {A B C D} (h : B → C → D) (f : A → B) (g : A → C) l :
  zip_with h (map f l) (map g l) = map (λ x, h (f x) (g x)) l.
Proof. induction l as [|x l IH]; simpl; [done | by rewrite IH]. Qed.

Lemma row_number_gtb (i j : nat) :
  cell_gtb (Num (Z.of_nat i)) (Num (Z.of_nat j)) = (j <? i).
Proof.
  simpl. destruct (Z.ltb_spec (Z.of_nat j) (Z.of_nat i)),
    (Nat.ltb_spec j i); (done || lia).
Qed.

Lemma retain_elem_of {A} keep (pairs : list ((nat * A) * (nat * A))) p :
  p ∈ retain keep pairs → p ∈ pairs.
Proof.
  unfold retain. rewrite !list_elem_of_In, filter_In. tauto.
Qed.

(** One group against itself (or two groups with [within_A] set): the pairs
    whose A row number is greater than their B row number. *)
Lemma join_within cs (la lb : list (list cell)) :
  "_tmp_cart_prod" ∉ cs → "_tmp_row_number" ∉ cs →
  Forall (λ r, length r = length cs) la →
  Forall (λ r, length r = length cs) lb →
  let number i := [Num (Z.of_nat i)] in
  join_and_filter (prepared cs ["_tmp_row_number"] number la)
                  (prepared cs ["_tmp_row_number"] number lb)
                  true ("_A", "_B")
  = Ok (mkDF (pair_schema false cs)
          (map concat_row (retain (λ i j, j <? i) (cross_join la lb)))).
Proof.
  intros Hkey Hrow Hla Hlb number.
  assert (Hlen : ∀ p, p ∈ cross_join la lb →
            length p.1.2 = length cs ∧ length p.2.2 = length cs).
  { intros p. by apply cross_join_lengths. }
  assert (Hex : "_tmp_cart_prod" ∉ ["_tmp_row_number"]).
  { by intros [= ]%list_elem_of_singleton. }
  pose proof (merge_drop_prepared cs ["_tmp_row_number"] number Hkey Hex
                (λ _, eq_refl) la lb Hla Hlb) as Hmd.
  apply rbind_ok in Hmd as (M & HM & HD).
  unfold join_and_filter. rewrite HM. cbn [mbind result_bind]. rewrite HD.
  clear M HM HD. cbn [mbind result_bind map app fst snd columns rows].
  set (pairs := cross_join la lb) in *.
  set (rowA := "_tmp_row_number" +:+ "_A").
  set (rowB := "_tmp_row_number" +:+ "_B").
  change (suffix_A "_tmp_row_number") with rowA.
  change (suffix_B "_tmp_row_number") with rowB.
  assert (HrowA : rowA ∉ map suffix_A cs)
    by (by intros ?%(suffix_A_elem_of "_tmp_row_number")).
  assert (HrowB : rowB ∉ map suffix_B cs)
    by (by intros ?%(suffix_B_elem_of "_tmp_row_number")).
  assert (HrowAB : rowA ∉ map suffix_B cs)
    by apply (suffix_A_not_B "_tmp_row_number").
  assert (HrowBA : rowB ∉ map suffix_A cs)
    by apply (suffix_B_not_A "_tmp_row_number").
  match goal with |- getitem ?T _ ≫= _ = _ => set (T0 := T) end.
  assert (HgA : getitem T0 rowA = Ok (map (λ p, Num (Z.of_nat p.1.1)) pairs)).
  { apply (getitem_column rowA (map suffix_A cs) (map suffix_B cs ++ [rowB])
             (λ p, p.1.2) (λ p, p.2.2 ++ number p.2.1)
             (λ p, Num (Z.of_nat p.1.1)) pairs); [done|].
    intros p Hp. rewrite length_map. by apply Hlen. }
  assert (HgB : getitem T0 rowB = Ok (map (λ p, Num (Z.of_nat p.2.1)) pairs)).
  { etrans; [| apply (getitem_column rowB
                        (map suffix_A cs ++ rowA :: map suffix_B cs) []
                        (λ p, p.1.2 ++ Num (Z.of_nat p.1.1) :: p.2.2)
                        (λ _, []) (λ p, Num (Z.of_nat p.2.1)) pairs)].
    - unfold T0. do 2 f_equal; [by rewrite <- app_assoc|].
      apply map_ext. intros p. by rewrite <- app_assoc.
    - rewrite not_elem_of_app, not_elem_of_cons. split_and!; [done| |done].
      unfold rowA, rowB. intros Heq. by apply append_suffix_inj in Heq as [_ ?].
    - intros p Hp. rewrite !length_app. simpl. rewrite !length_map.
      destruct (Hlen p Hp) as [-> ->]. done. }
  rewrite HgA. cbn [mbind result_bind]. rewrite HgB. cbn [mbind result_bind].
  unfold T0. cbn [columns rows].
  rewrite zip_with_map_same, select_map.
  rewrite (List.filter_ext _ (λ p, p.2.1 <? p.1.1))
    by (intros; apply row_number_gtb).
  fold (retain (λ i j, j <? i) pairs).
  set (kept := retain (λ i j : nat, j <? i) pairs).
  assert (Hkept : ∀ p, p ∈ kept →
            length p.1.2 = length cs ∧ length p.2.2 = length cs).
  { intros p Hp%retain_elem_of. by apply Hlen. }
  match goal with |- drop_column ?T _ ≫= _ = _ => set (T1 := T) end.
  assert (HdA : drop_column T1 rowA
            = Ok (mkDF (map suffix_A cs ++ map suffix_B cs ++ [rowB])
                    (map (λ p, p.1.2 ++ p.2.2 ++ number p.2.1) kept))).
  { apply (drop_column_column rowA (map suffix_A cs) (map suffix_B cs ++ [rowB])
             (λ p, p.1.2) (λ p, p.2.2 ++ number p.2.1)
             (λ p, Num (Z.of_nat p.1.1)) kept).
    - done.
    - intros p Hp. rewrite length_map. by apply Hkept.
    - rewrite not_elem_of_app, list_elem_of_singleton. split; [done|].
      unfold rowA, rowB. intros Heq.
      by apply append_suffix_inj in Heq as [_ ?].
    - intros p Hp. rewrite !length_app. simpl. rewrite !length_map.
      by destruct (Hkept p Hp) as [_ ->]. }
  rewrite HdA. cbn [mbind result_bind].
  match goal with |- drop_column ?T _ ≫= _ = _ => set (T2 := T) end.
  assert (HdB : drop_column T2 rowB
            = Ok (mkDF ((map suffix_A cs ++ map suffix_B cs) ++ [])
                    (map (λ p, (p.1.2 ++ p.2.2) ++ []) kept))).
  { etrans; [| apply (drop_column_column rowB
                        (map suffix_A cs ++ map suffix_B cs) []
                        (λ p, p.1.2 ++ p.2.2) (λ _, [])
                        (λ p, Num (Z.of_nat p.2.1)) kept)].
    - unfold T2. do 2 f_equal; [by rewrite <- app_assoc|].
      apply map_ext. intros p. by rewrite <- app_assoc.
    - by rewrite not_elem_of_app.
    - intros p Hp. rewrite !length_app, !length_map.
      by destruct (Hkept p Hp) as [-> ->].
    - apply not_elem_of_nil.
    - done. }
  rewrite HdB. cbn [mbind result_bind mret result_ret]. unfold pair_schema.
  rewrite app_nil_r. do 2 f_equal.
  apply map_ext. intros p. unfold concat_row. by rewrite app_nil_r.
Qed.

(** ** Lines 173-180: assigning the temporary columns *)

Lemma imap_id_lookup {A} (f : nat → A → A) (l : list A) :
  (∀ i x, l !! i = Some x → f i x = x) → imap f l = l.
Proof.
  intros Hf. apply list_eq. intros i. rewrite list_lookup_imap.
  destruct (l !! i) as [x|] eqn:Hi; simpl; [| done]. by rewrite (Hf i x).
Qed.

Lemma imap_map_zip_seq {A B C} (f : nat → B → C) (g : nat * A → B)
    (l : list A) (k : nat) :
  imap (λ i, f (k + i)) (map g (zip (seq k (length l)) l))
  = map (λ p, f p.1 (g p)) (zip (seq k (length l)) l).
Proof.
  revert k. induction l as [|x l IH]; intros k; [done|].
  cbn [length seq zip_with map]. rewrite imap_cons. cbn [fst].
  rewrite Nat.add_0_r. f_equal.
  rewrite <- (IH (S k)). apply imap_ext. intros i y _. simpl. f_equal. lia.
Qed.

Lemma imap_map_numbered {A B C} (f : nat → B → C) (g : nat * A → B) (l : list A) :
  imap f (map g (numbered l)) = map (λ p, f p.1 (g p)) (numbered l).
Proof. apply (imap_map_zip_seq f g l 0). Qed.

Lemma with_key_prepared A :
  "_tmp_cart_prod" ∉ columns A →
  with_key A = prepared (columns A) [] (λ _, []) (rows A).
Proof.
  intros Hkey. unfold with_key, setitem, prepared.
  rewrite col_index_None by done. f_equal.
  apply (imap_numbered (λ _ r, r ++ [Num 0])).
Qed.

Lemma with_key_again cs ex e (l : list (list cell)) :
  "_tmp_cart_prod" ∉ cs →
  Forall (λ r, length r = length cs) l →
  with_key (prepared cs ex e l) = prepared cs ex e l.
Proof.
  intros Hkey Hl. unfold with_key, setitem, prepared. cbn [columns rows].
  rewrite col_index_app_fresh by done. f_equal.
  rewrite imap_map_numbered. apply map_ext_elem_of. intros p Hp.
  apply list_insert_id, list_lookup_middle.
  symmetry. by eapply numbered_row_length.
Qed.

Lemma with_row_number_prepared cs (l : list (list cell)) :
  "_tmp_cart_prod" ∉ cs → "_tmp_row_number" ∉ cs →
  with_row_number (prepared cs [] (λ _, []) l)
  = prepared cs ["_tmp_row_number"] (λ i, [Num (Z.of_nat i)]) l.
Proof.
  intros Hkey Hrow. unfold with_row_number, setitem, prepared.
  cbn [columns rows]. rewrite col_index_None.
  - f_equal; [by rewrite <- app_assoc|].
    rewrite imap_map_numbered. apply map_ext. intros p.
    by rewrite <- app_assoc.
  - rewrite not_elem_of_app, list_elem_of_singleton. done.
Qed.

Lemma with_row_number_again cs (l : list (list cell)) :
  "_tmp_cart_prod" ∉ cs → "_tmp_row_number" ∉ cs →
  Forall (λ r, length r = length cs) l →
  let P := prepared cs ["_tmp_row_number"] (λ i, [Num (Z.of_nat i)]) l in
  with_row_number P = P.
Proof.
  intros Hkey Hrow Hl P. unfold P, with_row_number, setitem, prepared.
  cbn [columns rows].
  assert (Hidx : col_index "_tmp_row_number"
                   (cs ++ ["_tmp_cart_prod"; "_tmp_row_number"])
                 = Some (length cs + 1)).
  { change (cs ++ ["_tmp_cart_prod"; "_tmp_row_number"])
      with (cs ++ ["_tmp_cart_prod"] ++ ["_tmp_row_number"]).
    rewrite app_assoc, col_index_app_fresh.
    - by rewrite length_app.
    - rewrite not_elem_of_app, list_elem_of_singleton. done. }
  rewrite Hidx. f_equal.
  rewrite imap_map_numbered. apply map_ext_elem_of. intros p Hp.
  apply list_insert_id.
  change (p.2 ++ [Num 0; Num (Z.of_nat p.1)])
    with (p.2 ++ [Num 0] ++ [Num (Z.of_nat p.1)]).
  rewrite app_assoc. apply list_lookup_middle.
  rewrite length_app. simpl. f_equal. symmetry.
  by eapply numbered_row_length.
Qed.

(** The frame a group has become when line 182 joins it with itself. *)
Lemma prepare_within A :
  well_formed A →
  "_tmp_cart_prod" ∉ columns A → "_tmp_row_number" ∉ columns A →
  with_row_number (with_row_number (with_key (with_key A)))
  = prepared (columns A) ["_tmp_row_number"] (λ i, [Num (Z.of_nat i)]) (rows A).
Proof.
  intros Hwf Hkey Hrow. unfold well_formed in Hwf.
  rewrite (with_key_prepared A) by done.
  rewrite with_key_again by done.
  rewrite (with_row_number_prepared (columns A)) by done.
  by apply with_row_number_again.
Qed.

(** ** Concat mode: the table of a work item *)

Lemma reserved_free_key (cols : list string) :
  Forall (λ c, ¬ reserved c) cols → "_tmp_cart_prod" ∉ cols.
Proof.
  intros Hfree Hin. rewrite Forall_forall in Hfree. eapply Hfree; [done|].
  by left.
Qed.

Lemma reserved_free_row_number (cols : list string) :
  Forall (λ c, ¬ reserved c) cols → "_tmp_row_number" ∉ cols.
Proof.
  intros Hfree Hin. rewrite Forall_forall in Hfree. eapply Hfree; [done|].
  by right.
Qed.

(** Two groups of different subjects: one row per pair of rows. *)
Lemma pair_data_between_concat f A B :
  well_formed A → well_formed B → columns B = columns A →
  Forall (λ c, ¬ reserved c) (columns A) →
  pair_data_between f false A B
  = Ok (mkDF (pair_schema false (columns A))
          (map concat_row (cross_join (rows A) (rows B)))).
Proof.
  intros HA HB Hcols Hfree.
  pose proof (reserved_free_key _ Hfree) as Hkey.
  unfold pair_data_between, get_pair_data.
  rewrite cartesian_product_between_run. cbn [fst].
  rewrite !with_key_prepared by (by rewrite ?Hcols).
  rewrite Hcols. apply join_between; try done.
  unfold well_formed in HB. by rewrite Hcols in HB.
Qed.

(** The rows of one subject: one row per pair of rows in which the A row
    comes later in the group than the B row. *)
Lemma pair_data_within_concat f A :
  well_formed A →
  Forall (λ c, ¬ reserved c) (columns A) →
  pair_data_within f false A
  = Ok (mkDF (pair_schema false (columns A))
          (map concat_row
             (retain (λ i j, j <? i) (cross_join (rows A) (rows A))))).
Proof.
  intros HA Hfree.
  pose proof (reserved_free_key _ Hfree) as Hkey.
  pose proof (reserved_free_row_number _ Hfree) as Hrow.
  unfold pair_data_within, get_pair_data.
  rewrite cartesian_product_within_run. cbn [fst].
  rewrite prepare_within by done.
  by apply join_within.
Qed.

Lemma abs_diff_between_run f A B :
  abs_diff_between_all_row_pairs f 0 1 false [A; B]
  = (abs_diff_table f A B false, [A; B]).
Proof.
  unfold abs_diff_between_all_row_pairs, abs_diff_table, shape.
  unfold mbind at 1 2 3 4 5, M_bind, get, lift. simpl.
  destruct (broadcast_abs_diff f A B) as [pairs_diffs|e]; simpl; [| done].
  by destruct (np_reshape _ _).
Qed.

Lemma abs_diff_within_run f A :
  abs_diff_between_all_row_pairs f 0 0 true [A]
  = (abs_diff_table f A A true, [A]).
Proof.
  unfold abs_diff_between_all_row_pairs, abs_diff_table, shape.
  unfold mbind at 1 2 3 4 5, M_bind, get, lift. simpl.
  destruct (broadcast_abs_diff f A A) as [pairs_diffs|e]; simpl; [| done].
  destruct (mapM _ _) as [pairs_within|e]; simpl; [| done].
  by destruct (np_concatenate pairs_within).
Qed.

(** * C4: which pairs concat mode keeps within a group *)

(** C4, as the code has it.  For a group [A] of well-formed rows whose
    labels are not the reserved temporary names, concat mode within the
    group returns the concat rows of exactly those pairs of the cross join
    of [A] with itself whose A row number is greater than the B row number,
    in cross-join order, under the suffixed labels; and the stored group has
    been given the key column and the row-number column 0, 1, ... that the
    filter reads. *)
Theorem within_concat_keeps_later_A_rows
    (f : cell → cell → result cell) (A : DataFrame)
    (Hwf : well_formed A)
    (Hfree : Forall (λ c, ¬ reserved c) (columns A)) :
  ∃ T,
    get_pair_data f false 0 None [A]
    = (Ok T, [prepared (columns A) ["_tmp_row_number"]
                (λ i, [Num (Z.of_nat i)]) (rows A)])
    ∧ columns T = pair_schema false (columns A)
    ∧ retains_exactly (λ i j, j <? i) A T.
Proof.
  pose proof (pair_data_within_concat f A Hwf Hfree) as HT.
  unfold pair_data_within, get_pair_data in HT.
  rewrite cartesian_product_within_run in HT. cbn [fst] in HT.
  exists (mkDF (pair_schema false (columns A))
            (map concat_row
               (retain (λ i j, j <? i) (cross_join (rows A) (rows A))))).
  split; [| split; reflexivity].
  unfold get_pair_data. rewrite cartesian_product_within_run, HT.
  rewrite prepare_within;
    auto using reserved_free_key, reserved_free_row_number.
Qed.

Lemma group_3_well_formed : well_formed group_3.
Proof. repeat constructor. Defined.

Lemma group_3_reserved_free : Forall (λ c, ¬ reserved c) (columns group_3).
Proof. repeat constructor. intros [H|H]; discriminate H. Defined.

Lemma within_concat_keeps_later_A_rows_witness :
  ∃ T,
    get_pair_data np_abs_sub false 0 None [group_3]
    = (Ok T, [prepared (columns group_3) ["_tmp_row_number"]
                (λ i, [Num (Z.of_nat i)]) (rows group_3)])
    ∧ columns T = pair_schema false (columns group_3)
    ∧ retains_exactly (λ i j, j <? i) group_3 T.
Proof.
  exact (within_concat_keeps_later_A_rows np_abs_sub group_3
           group_3_well_formed group_3_reserved_free).
Defined.

(** C4 as the claim words it fails: on the group of rows 10 and 20 the one
    row kept is (20, 10), A row 1 with B row 0; the pair with the smaller A
    row number, (10, 20), is dropped. *)
Lemma within_concat_keeps_smaller_A_rows_counterexample :
  ∃ T,
    (get_pair_data np_abs_sub false 0 None [group_2]).1 = Ok T
    ∧ rows T = [[Num 20; Num 10]]
    ∧ map concat_row (retain (λ i j, i <? j)
                        (cross_join (rows group_2) (rows group_2)))
      = [[Num 10; Num 20]]
    ∧ ¬ retains_exactly (λ i j, i <? j) group_2 T.
Proof.
  eexists. split; [reflexivity|]. split; [reflexivity|].
  split; [reflexivity|]. unfold retains_exactly. by vm_compute.
Qed.

(** * Degenerate inputs *)

Lemma negative_tables_few_subjects f DF us fn flag :
  length us < 2 → negative_tables f DF us fn flag = Ok [].
Proof.
  intros Hlen. unfold negative_tables, range.
  replace (length us - 1 - 0) with 0 by lia. reflexivity.
Qed.

(** C5, as the code has it.  On a table with fewer than two distinct
    subjects the generator returns no dataset: once past the configuration
    check, the list of cross-subject tables is empty and [pd.concat] of it
    at line 60 raises. *)
Theorem fewer_than_two_subjects_raises
    (f : cell → cell → result cell) (r : ref) (fn : list string)
    (flag : bool) (h : heap) (DF : DataFrame) (us : list cell)
    (Hr : h !! r = Some DF)
    (Hus : subjects DF = Ok us)
    (Hfew : length us < 2) :
  (extract_pairs f r fn flag h).1
  = Raise (ValueError (if flag && bool_decide ("sequence" ∈ fn)
                       then config_error_msg
                       else "No objects to concatenate")).
Proof.
  destruct (extract_pairs_runs f r DF fn flag h Hr) as [ext ->]. cbn [fst].
  unfold extract_pairs_value.
  destruct (flag && bool_decide ("sequence" ∈ fn)); [done|].
  unfold subjects in Hus. apply rbind_ok in Hus as (col & Hcol & Hus).
  rewrite Hcol. cbn [mbind result_bind]. rewrite Hus. cbn [mbind result_bind].
  by rewrite negative_tables_few_subjects.
Qed.

Lemma fewer_than_two_subjects_raises_witness :
  (extract_pairs np_abs_sub 0 ["x"] false [table_3]).1
  = Raise (ValueError "No objects to concatenate").
Proof.
  apply (fewer_than_two_subjects_raises np_abs_sub 0 ["x"] false [table_3]
           table_3 [Str "A"]); [reflexivity | reflexivity | simpl; lia].
Defined.

(** * A group of one row in diff mode *)

Lemma abs_diff_table_few_rows f A B :
  length (rows A) < 2 →
  abs_diff_table f A B true
  = (broadcast_abs_diff f A B ≫= λ _,
     Raise (ValueError "need at least one array to concatenate")).
Proof.
  intros Hlen. unfold abs_diff_table, shape, range. cbn [fst].
  replace (length (rows A) - 1 - 0) with 0 by lia.
  by destruct (broadcast_abs_diff f A B).
Qed.

(** C1, as the code has it.  In diff mode a within-subject work item over
    a group of fewer than two rows yields no table at all: the list of
    slices built at line 146 is empty and [np.concatenate] raises at line
    147 (unless the subtraction has already raised).  Concat mode returns
    the empty table for the same group. *)
Theorem within_diff_single_row_raises
    (f : cell → cell → result cell) (A : DataFrame)
    (Hfew : length (rows A) < 2) :
  get_pair_data f true 0 None [A]
  = (broadcast_abs_diff f A A ≫= λ _,
     Raise (ValueError "need at least one array to concatenate"), [A]).
Proof.
  unfold get_pair_data. rewrite abs_diff_within_run.
  by rewrite abs_diff_table_few_rows.
Qed.

Lemma within_diff_single_row_raises_witness :
  get_pair_data np_abs_sub true 0 None [group_1]
  = (Raise (ValueError "need at least one array to concatenate"), [group_1]).
Proof.
  apply (within_diff_single_row_raises np_abs_sub group_1). simpl. lia.
Defined.

Example within_concat_single_row :
  (get_pair_data np_abs_sub false 0 None [group_1]).1
  = Ok (mkDF ["x_A"; "x_B"] []).
Proof. reflexivity. Qed.

(** C2, as the code has it.  On subjects with 2, 1 and 2 rows in diff mode
    the generator returns no dataset: the eight cross-subject rows are
    computed, then the within-subject item of the one-row subject raises.
    In concat mode the same table gives the 10 rows of the claim, 8
    labelled 0 and 2 labelled 1. *)
Theorem scenario_2_1_2_diff_mode_raises :
  (extract_pairs np_abs_sub 0 ["x"; "y"] true [table_212]).1
  = Raise (ValueError "need at least one array to concatenate")
  ∧ ∃ T, (extract_pairs np_abs_sub 0 ["x"; "y"] false [table_212]).1 = Ok T
         ∧ length (rows T) = 10
         ∧ count_label 0 T = 8 ∧ count_label 1 T = 2.
Proof.
  split; [by vm_compute|].
  eexists. split; [by vm_compute|]. by vm_compute.
Qed.

(** C3, as the code has it.  For the within-subject work item of a one-row
    group the two modes do not correspond: concat mode returns a table (with
    no rows), diff mode returns none. *)
Theorem modes_differ_on_single_row_group :
  (get_pair_data np_abs_sub false 0 None [group_1]).1
    = Ok (mkDF ["x_A"; "x_B"] [])
  ∧ (get_pair_data np_abs_sub true 0 None [group_1]).1
    = Raise (ValueError "need at least one array to concatenate").
Proof. split; reflexivity. Qed.

(** * C7: the schema of the pair tables *)

Lemma mapM_length {A B} (g : A → result B) l ys :
  mapM g l = Ok ys → length ys = length l.
Proof.
  revert ys. induction l as [|x l IH]; intros ys; simpl.
  - by intros [= <-].
  - intros (y & _ & (ys' & Hys & [= <-])%rbind_ok)%rbind_ok.
    simpl. f_equal. by apply IH.
Qed.

Lemma mapM_Forall {A B} (g : A → result B) (P : B → Prop) l ys :
  mapM g l = Ok ys → (∀ x y, x ∈ l → g x = Ok y → P y) → Forall P ys.
Proof.
  revert ys. induction l as [|x l IH]; intros ys; simpl.
  - intros [= <-] _. constructor.
  - intros (y & Hy & (ys' & Hys & [= <-])%rbind_ok)%rbind_ok Hg.
    constructor; [apply (Hg x); [left | done] |].
    apply IH; [done|]. intros x' y' Hx'. apply Hg. by right.
Qed.

Lemma loc_ok df mask names T :
  loc df mask names = Ok T → columns T = names ∧ well_formed T.
Proof.
  unfold loc. intros (ps & Hps & [= <-])%rbind_ok. split; [done|].
  unfold well_formed. cbn [columns rows]. apply Forall_forall.
  intros row (r & -> & _)%elem_of_map.
  rewrite length_map. by apply mapM_length in Hps.
Qed.

Lemma user_frame_ok DF u fn A :
  user_frame DF u fn = Ok A → columns A = fn ∧ well_formed A.
Proof.
  unfold user_frame. intros (col & _ & Hloc)%rbind_ok. by eapply loc_ok.
Qed.

Lemma pd_DataFrame_ok data cols T :
  pd_DataFrame data cols = Ok T → T = mkDF cols data.
Proof. unfold pd_DataFrame. by destruct (forallb _ _); intros [= <-]. Qed.

Lemma abs_diff_table_columns f A B w T :
  abs_diff_table f A B w = Ok T → columns T = columns A.
Proof.
  unfold abs_diff_table.
  intros (pd & _ & (data & _ & ->%pd_DataFrame_ok)%rbind_ok)%rbind_ok.
  done.
Qed.

Lemma pair_data_between_schema f flag fn A B T :
  Forall (λ c, ¬ reserved c) fn →
  columns A = fn → well_formed A → columns B = fn → well_formed B →
  pair_data_between f flag A B = Ok T → columns T = pair_schema flag fn.
Proof.
  intros Hfree HcA HA HcB HB. destruct flag.
  - unfold pair_data_between, get_pair_data.
    rewrite abs_diff_between_run. cbn [fst]. intros HT.
    apply abs_diff_table_columns in HT. by rewrite HT.
  - rewrite pair_data_between_concat; try done; try congruence.
    intros [= <-]. by rewrite HcA.
Qed.

Lemma pair_data_within_schema f flag fn A T :
  Forall (λ c, ¬ reserved c) fn →
  columns A = fn → well_formed A →
  pair_data_within f flag A = Ok T → columns T = pair_schema flag fn.
Proof.
  intros Hfree HcA HA. destruct flag.
  - unfold pair_data_within, get_pair_data.
    rewrite abs_diff_within_run. cbn [fst]. intros HT.
    apply abs_diff_table_columns in HT. by rewrite HT.
  - rewrite pair_data_within_concat; try done; try congruence.
    intros [= <-]. by rewrite HcA.
Qed.

Lemma negative_tables_schema f DF us fn flag tables :
  Forall (λ c, ¬ reserved c) fn →
  negative_tables f DF us fn flag = Ok tables →
  uniform_schema (pair_schema flag fn) tables.
Proof.
  intros Hfree. unfold negative_tables.
  intros (per_i & Hper & [= <-])%rbind_ok.
  apply Forall_concat. eapply mapM_Forall; [exact Hper|].
  intros i ts _ Hts. cbv beta in Hts.
  eapply mapM_Forall; [exact Hts|].
  intros j T _ (A & [HcA HA]%user_frame_ok
                & (B & [HcB HB]%user_frame_ok & HT)%rbind_ok)%rbind_ok.
  exact (pair_data_between_schema f flag fn A B T Hfree HcA HA HcB HB HT).
Qed.

Lemma positive_tables_schema f DF us fn flag tables :
  Forall (λ c, ¬ reserved c) fn →
  positive_tables f DF us fn flag = Ok tables →
  uniform_schema (pair_schema flag fn) tables.
Proof.
  intros Hfree. unfold positive_tables. intros Hts.
  eapply mapM_Forall; [exact Hts|].
  intros u T _ (A & [HcA HA]%user_frame_ok & HT)%rbind_ok.
  exact (pair_data_within_schema f flag fn A T Hfree HcA HA HT).
Qed.

(** In diff mode the labels are those of the first frame, whatever they
    are called. *)
Lemma pair_data_between_schema_diff f A B T :
  pair_data_between f true A B = Ok T → columns T = columns A.
Proof.
  unfold pair_data_between, get_pair_data.
  rewrite abs_diff_between_run. cbn [fst]. apply abs_diff_table_columns.
Qed.

Lemma pair_data_within_schema_diff f A T :
  pair_data_within f true A = Ok T → columns T = columns A.
Proof.
  unfold pair_data_within, get_pair_data.
  rewrite abs_diff_within_run. cbn [fst]. apply abs_diff_table_columns.
Qed.

Lemma negative_tables_schema_modes f DF us fn flag tables :
  (flag = false → Forall (λ c, ¬ reserved c) fn) →
  negative_tables f DF us fn flag = Ok tables →
  uniform_schema (pair_schema flag fn) tables.
Proof.
  intros Hfree. destruct flag; [|by apply negative_tables_schema, Hfree].
  unfold negative_tables.
  intros (per_i & Hper & [= <-])%rbind_ok.
  apply Forall_concat. eapply mapM_Forall; [exact Hper|].
  intros i ts _ Hts. cbv beta in Hts.
  eapply mapM_Forall; [exact Hts|].
  intros j T _ (A & [HcA HA]%user_frame_ok
                & (B & _ & HT)%rbind_ok)%rbind_ok.
  apply pair_data_between_schema_diff in HT. by rewrite HT.
Qed.

Lemma positive_tables_schema_modes f DF us fn flag tables :
  (flag = false → Forall (λ c, ¬ reserved c) fn) →
  positive_tables f DF us fn flag = Ok tables →
  uniform_schema (pair_schema flag fn) tables.
Proof.
  intros Hfree. destruct flag; [|by apply positive_tables_schema, Hfree].
  unfold positive_tables. intros Hts.
  eapply mapM_Forall; [exact Hts|].
  intros u T _ (A & [HcA HA]%user_frame_ok & HT)%rbind_ok.
  apply pair_data_within_schema_diff in HT. by rewrite HT.
Qed.

Lemma uniform_schema_concat cols tables :
  uniform_schema cols tables → concatenates_cleanly cols tables.
Proof.
  intros Hu. split; [done|]. destruct tables as [|T0 ts]; [done|]. intros _.
  unfold pd_concat. apply Forall_cons in Hu as Hu'. destruct Hu' as [H0 _].
  rewrite (proj2 (forallb_forall _ _)), H0; [done|].
  intros T HT%list_elem_of_In. apply bool_decide_eq_true_2.
  rewrite H0. by apply (proj1 (Forall_forall _ _) Hu).
Qed.

Lemma pair_schema_length flag fn :
  length (pair_schema flag fn) = (if flag then 1 else 2) * length fn.
Proof.
  unfold pair_schema. destruct flag; [lia|].
  rewrite length_app, !length_map. lia.
Qed.

(** X24.  Where the tables of one generation pass do share their labels:
    in diff mode for every list of feature names, and in concat mode when
    no feature name is one of the names the engine reserves for its
    temporary columns.  There every table the two loops produce has the
    labels [pair_schema]: the feature names in diff mode, each feature name
    with the suffix _A and then each with the suffix _B in concat mode.
    The labels depend on the flag and the names only, not on the table or
    its groups, and the tables of each loop stack under [pd.concat] as they
    are, rows after rows. *)
Theorem pair_tables_share_schema
    (f : cell → cell → result cell) (r : ref) (DF : DataFrame)
    (fn : list string) (flag : bool) (us : list cell) (h : heap)
    (Hfree : flag = false → Forall (λ c, ¬ reserved c) fn)
    (Hr : h !! r = Some DF) :
  (∀ tables, (negative_pair_DFs f r us fn flag h).1 = Ok tables →
     concatenates_cleanly (pair_schema flag fn) tables)
  ∧ (∀ tables, (positive_pair_DFs f r us fn flag h).1 = Ok tables →
     concatenates_cleanly (pair_schema flag fn) tables)
  ∧ length (pair_schema flag fn) = (if flag then 1 else 2) * length fn.
Proof.
  destruct (runs_negative f r DF us fn flag h Hr) as [extn ->].
  destruct (runs_positive f r DF us fn flag h Hr) as [extp ->].
  cbn [fst]. split_and!.
  - intros tables Ht.
    by eapply uniform_schema_concat, negative_tables_schema_modes.
  - intros tables Ht.
    by eapply uniform_schema_concat, positive_tables_schema_modes.
  - apply pair_schema_length.
Qed.

Lemma pair_tables_share_schema_witness :
  ∃ negatives positives,
    (negative_pair_DFs np_abs_sub 0 [Str "A"; Str "B"] ["x"; "y"] false
       [table_23]).1 = Ok negatives
    ∧ (positive_pair_DFs np_abs_sub 0 [Str "A"; Str "B"] ["x"; "y"] false
         [table_23]).1 = Ok positives
    ∧ concatenates_cleanly ["x_A"; "y_A"; "x_B"; "y_B"] negatives
    ∧ concatenates_cleanly ["x_A"; "y_A"; "x_B"; "y_B"] positives.
Proof.
  assert (Hfree : Forall (λ c, ¬ reserved c) ["x"; "y"]).
  { repeat constructor; intros [H|H]; discriminate H. }
  destruct (pair_tables_share_schema np_abs_sub 0 table_23 ["x"; "y"] false
              [Str "A"; Str "B"] [table_23] (λ _, Hfree) eq_refl)
    as (Hn & Hp & _).
  eexists _, _. split; [reflexivity|]. split; [reflexivity|].
  split; [apply Hn | apply Hp]; reflexivity.
Defined.

(** C7, as the code has it.  A table whose feature column carries the name
    of the temporary row-number column, two subjects of two rows each,
    concat mode.  The cross-subject work item returns a table with the two
    suffixed labels; each within-subject work item overwrites the feature
    with its row numbers and then drops both suffixed columns, so it
    returns a table with no column at all, where a table of a frame with
    one column is to have two.  The tables of the pass have no common
    schema, and the assembled dataset holds missing values where the
    within-subject rows lack the columns. *)
Theorem reserved_feature_name_breaks_schema :
  ∃ negatives positives,
    (negative_pair_DFs np_abs_sub 0 [Str "A"; Str "B"] ["_tmp_row_number"]
       false [table_reserved]).1 = Ok negatives
    ∧ (positive_pair_DFs np_abs_sub 0 [Str "A"; Str "B"] ["_tmp_row_number"]
         false [table_reserved]).1 = Ok positives
    ∧ map columns negatives = [["_tmp_row_number_A"; "_tmp_row_number_B"]]
    ∧ map columns positives = [[]; []]
    ∧ (get_pair_data np_abs_sub false 0 None
         [mkDF ["_tmp_row_number"] [[Num 5]; [Num 6]]]).1
      = Ok (mkDF [] [[]])
    ∧ ¬ uniform_schema (pair_schema false ["_tmp_row_number"])
          (negatives ++ positives)
    ∧ (¬ ∃ cols, uniform_schema cols (negatives ++ positives))
    ∧ (extract_pairs np_abs_sub 0 ["_tmp_row_number"] false
         [table_reserved]).1
      = Ok (mkDF ["_tmp_row_number_A"; "_tmp_row_number_B"; "label"]
              [ [Num 5; Num 7; Num 0]; [Num 5; Num 8; Num 0];
                [Num 6; Num 7; Num 0]; [Num 6; Num 8; Num 0];
                [NaN; NaN; Num 1]; [NaN; NaN; Num 1] ]).
Proof.
  eexists _, _. split; [by vm_compute|]. split; [by vm_compute|].
  split; [reflexivity|]. split; [reflexivity|]. split; [by vm_compute|].
  split_and!.
  - intros Hu. apply Forall_app in Hu as [_ Hu].
    apply Forall_cons in Hu as [Hu _]. discriminate Hu.
  - intros [cols Hu]. apply Forall_app in Hu as [Hn Hp].
    apply Forall_cons in Hn as [Hn _]. apply Forall_cons in Hp as [Hp _].
    simpl in Hn, Hp. congruence.
  - by vm_compute.
Qed.

(** * C8: what the engine and the generator change *)














Lemma setitem_columns df c v :
  columns (setitem df c v)
  = columns (setitem (mkDF (columns df) []) c (λ _, Num 0)).
Proof. unfold setitem. cbn [columns]. by destruct (col_index c (columns df)). Qed.

Lemma pd_concat_uniform cols tables T :
  uniform_schema cols tables → pd_concat tables = Ok T → columns T = cols.
Proof.
  intros Hu HT. destruct tables as [|T0 ts]; [done|].
  destruct (uniform_schema_concat cols (T0 :: ts) Hu) as [_ Hc].
  rewrite Hc in HT by done. by injection HT as <-.
Qed.

(** The labels of the assembled dataset. *)
Lemma extract_pairs_value_schema f DF fn flag T :
  Forall (λ c, ¬ reserved c) fn →
  extract_pairs_value f DF fn flag = Ok T →
  columns T = output_schema flag fn.
Proof.
  intros Hfree. unfold extract_pairs_value.
  destruct (flag && bool_decide ("sequence" ∈ fn)); [done|].
  intros (col & _ & HT)%rbind_ok.
  apply rbind_ok in HT as (us & _ & HT).
  apply rbind_ok in HT as (negatives & Hneg & HT).
  apply rbind_ok in HT as (DF_negative & Hcn & HT).
  apply rbind_ok in HT as (positives & Hpos & HT).
  apply rbind_ok in HT as (DF_positive & Hcp & HT).
  apply negative_tables_schema in Hneg; [| done].
  apply positive_tables_schema in Hpos; [| done].
  apply (pd_concat_uniform _ _ _ Hneg) in Hcn.
  apply (pd_concat_uniform _ _ _ Hpos) in Hcp.
  apply (pd_concat_uniform (output_schema flag fn)) in HT; [done|].
  unfold output_schema.
  repeat constructor; by rewrite setitem_columns, ?Hcn, ?Hcp.
Qed.


(** * Counting the pairs of a group *)

Lemma numbered_fst {A} (l : list A) : map fst (numbered l) = seq 0 (length l).
Proof.
  unfold numbered. apply (fst_zip (seq 0 (length l)) l). by rewrite length_seq.
Qed.

Lemma filter_map_comm {A B} (keep : B → bool) (g : A → B) l :
  List.filter keep (map g l) = map g (List.filter (λ x, keep (g x)) l).
Proof.
  induction l as [|x l IH]; simpl; [done|].
  destruct (keep (g x)); simpl; by rewrite IH.
Qed.

Lemma row_numbers_cross_join {A} (la lb : list A) :
  row_numbers (cross_join la lb)
  = list_prod (seq 0 (length la)) (seq 0 (length lb)).
Proof.
  unfold row_numbers, cross_join.
  rewrite <- (numbered_fst la), <- (numbered_fst lb).
  by rewrite list_prod_map.
Qed.

Lemma row_numbers_retain {A} keep (pairs : list ((nat * A) * (nat * A))) :
  row_numbers (retain keep pairs)
  = List.filter (λ q, keep q.1 q.2) (row_numbers pairs).
Proof. unfold row_numbers, retain. by rewrite filter_map_comm. Qed.

Lemma filter_list_prod_length {A B} (keep : A * B → bool) l1 l2 :
  length (List.filter keep (list_prod l1 l2))
  = sum_list (map (λ x, length (List.filter (λ y, keep (x, y)) l2)) l1).
Proof.
  induction l1 as [|x l1 IH]; simpl; [done|].
  rewrite List.filter_app, length_app, IH. f_equal.
  by rewrite filter_map_comm, length_map.
Qed.

Lemma filter_none {A} (keep : A → bool) l :
  (∀ x, x ∈ l → keep x = false) → List.filter keep l = [].
Proof.
  induction l as [|x l IH]; intros H; simpl; [done|].
  rewrite H by left. apply IH. intros y Hy. apply H. by right.
Qed.

Lemma filter_below_length (i n : nat) :
  i ≤ n → length (List.filter (λ j, j <? i) (seq 0 n)) = i.
Proof.
  intros Hi. replace n with (i + (n - i)) by lia.
  rewrite seq_app, List.filter_app, length_app.
  rewrite filter_all_elem_of, filter_none.
  - rewrite length_seq. simpl. lia.
  - intros j [Hj _]%elem_of_seq. apply Nat.ltb_ge. lia.
  - intros j [_ Hj]%elem_of_seq. apply Nat.ltb_lt. lia.
Qed.

Lemma sum_list_seq (n : nat) : 2 * sum_list (seq 0 n) = n * (n - 1).
Proof.
  induction n as [|n IH]; [done|].
  rewrite seq_S, sum_list_with_app. simpl. nia.
Qed.

(** The number of pairs kept within a group of [n] rows. *)
Lemma later_pairs_length (n : nat) :
  2 * length (List.filter (λ q : nat * nat, q.2 <? q.1)
                (list_prod (seq 0 n) (seq 0 n)))
  = n * (n - 1).
Proof.
  rewrite filter_list_prod_length.
  rewrite (map_ext_elem_of _ id).
  - rewrite map_id. apply sum_list_seq.
  - intros i [_ Hi]%elem_of_seq. apply (filter_below_length i n). lia.
Qed.

Lemma later_pairs_elem_of (n i j : nat) :
  (i, j) ∈ List.filter (λ q : nat * nat, q.2 <? q.1)
             (list_prod (seq 0 n) (seq 0 n))
  ↔ j < i < n.
Proof.
  rewrite list_elem_of_In, filter_In, in_prod_iff, <- !list_elem_of_In.
  rewrite !elem_of_seq. simpl. rewrite Nat.ltb_lt. lia.
Qed.

Lemma NoDup_list_prod {A B} (l1 : list A) (l2 : list B) :
  NoDup l1 → NoDup l2 → NoDup (list_prod l1 l2).
Proof.
  intros H1 H2. induction H1 as [|x l1 Hx H1 IH]; simpl; [constructor|].
  apply NoDup_app. split_and!.
  - apply (NoDup_fmap_2 (pair x)). done.
  - intros p [y [-> Hy]]%elem_of_map. rewrite list_elem_of_In, in_prod_iff.
    rewrite <- !list_elem_of_In. tauto.
  - done.
Qed.

Lemma NoDup_list_filter {A} (keep : A → bool) l :
  NoDup l → NoDup (List.filter keep l).
Proof.
  intros H. apply NoDup_ListNoDup, List.NoDup_filter. by apply NoDup_ListNoDup.
Qed.

Lemma later_pairs_NoDup (n : nat) :
  NoDup (List.filter (λ q : nat * nat, q.2 <? q.1)
           (list_prod (seq 0 n) (seq 0 n))).
Proof. apply NoDup_list_filter, NoDup_list_prod; apply NoDup_seq. Qed.

(** * mapM in the result monad *)

Lemma mapM_Forall2 {A B} (g : A → result B) l ys :
  mapM g l = Ok ys ↔ Forall2 (λ x y, g x = Ok y) l ys.
Proof.
  revert ys. induction l as [|x l IH]; intros ys; simpl.
  - split; [by intros [= <-]; constructor | by inversion 1].
  - split.
    + intros (y & Hy & (ys' & Hys & [= <-])%rbind_ok)%rbind_ok.
      constructor; [done | by apply IH].
    + inversion 1 as [|?? y ys' Hy Hys]; subst.
      apply IH in Hys. by rewrite Hy, Hys.
Qed.

Lemma mapM_ext {A B} (g g' : A → result B) l :
  (∀ x, x ∈ l → g x = g' x) → mapM g l = mapM g' l.
Proof.
  induction l as [|x l IH]; intros H; simpl; [done|].
  rewrite H by left. rewrite IH; [done|]. intros y Hy. apply H. by right.
Qed.

Lemma mapM_map {A B C} (g : B → result C) (h : A → B) l :
  mapM g (map h l) = mapM (λ x, g (h x)) l.
Proof. induction l as [|x l IH]; simpl; [done | by rewrite IH]. Qed.

Lemma mapM_app_eq {A B} (g : A → result B) l1 l2 :
  mapM g (l1 ++ l2)
  = (y1 ← mapM g l1; y2 ← mapM g l2; Ok (y1 ++ y2)).
Proof.
  induction l1 as [|x l1 IH]; simpl.
  - by destruct (mapM g l2).
  - destruct (g x) as [y|e]; simpl; [| done]. rewrite IH.
    destruct (mapM g l1) as [y1|e]; simpl; [| done].
    by destruct (mapM g l2).
Qed.

Lemma mapM_flat_map_eq {A B C} (g : B → result C) (h : A → list B) l :
  mapM g (flat_map h l)
  = (yss ← mapM (λ x, mapM g (h x)) l; Ok (concat yss)).
Proof.
  induction l as [|x l IH]; simpl; [done|].
  rewrite mapM_app_eq, IH.
  destruct (mapM g (h x)) as [y1|e]; simpl; [| done].
  by destruct (mapM _ l).
Qed.

Lemma mapM_numbered {A B} (g : A → result B) (l : list A) :
  mapM (λ q, g q.2) (numbered l) = mapM g l.
Proof. by rewrite <- (mapM_map g snd), numbered_snd. Qed.

Lemma mapM_drop {A B} (g : A → result B) l ys k :
  mapM g l = Ok ys → mapM g (drop k l) = Ok (drop k ys).
Proof. rewrite !mapM_Forall2. apply Forall2_drop. Qed.

(** * Diff mode on frames of the same width *)

Lemma broadcast_same_width f A B :
  length (columns B) = length (columns A) →
  broadcast_abs_diff f A B
  = mapM (λ rb, mapM (λ ra, row_abs_diff f ra rb) (rows A)) (rows B).
Proof.
  intros Hw. unfold broadcast_abs_diff, broadcast_width, stretch.
  rewrite Hw, !bool_decide_eq_true_2 by done. cbn [mbind result_bind].
  apply mapM_ext. intros rb _. apply mapM_ext. intros ra _.
  by rewrite !bool_decide_eq_true_2.
Qed.

(** The whole broadcast array as one list of rows, B rows outermost. *)
Lemma broadcast_by_B f A B :
  length (columns B) = length (columns A) →
  (pairs_diffs ← broadcast_abs_diff f A B; Ok (concat pairs_diffs))
  = mapM (diff_row f) (cross_join_by_B (rows A) (rows B)).
Proof.
  intros Hw. rewrite broadcast_same_width by done.
  unfold cross_join_by_B. rewrite mapM_flat_map_eq.
  rewrite <- (mapM_numbered _ (rows B)). f_equal.
  apply mapM_ext. intros qb _. rewrite mapM_map.
  by rewrite <- (mapM_numbered _ (rows A)).
Qed.

Lemma row_abs_diff_length f ra rb r :
  row_abs_diff f ra rb = Ok r → length r = length ra `min` length rb.
Proof.
  unfold row_abs_diff. intros ->%mapM_length. apply length_zip_with.
Qed.

Lemma broadcast_row_lengths f A B pairs_diffs :
  well_formed A → well_formed B →
  length (columns B) = length (columns A) →
  broadcast_abs_diff f A B = Ok pairs_diffs →
  Forall (Forall (λ r, length r = length (columns A))) pairs_diffs.
Proof.
  intros HA HB Hw. rewrite broadcast_same_width by done. intros Hpd.
  unfold well_formed in *. rewrite Forall_forall in HA, HB.
  eapply mapM_Forall; [exact Hpd|]. intros rb plane Hrb Hplane.
  eapply mapM_Forall; [exact Hplane|]. intros ra r Hra Hr.
  apply row_abs_diff_length in Hr. rewrite Hr, HA, HB, Hw by done. lia.
Qed.

Lemma chunks_concat (rs : list (list cell)) w :
  Forall (λ r, length r = w) rs → chunks (length rs) w (concat rs) = rs.
Proof.
  induction 1 as [|r rs Hr _ IH]; simpl; [done|].
  rewrite take_app_length', drop_app_length' by done. by rewrite IH.
Qed.

Lemma concat_length_uniform (rs : list (list cell)) w :
  Forall (λ r, length r = w) rs → length (concat rs) = length rs * w.
Proof.
  induction 1 as [|r rs Hr _ IH]; simpl; [done|].
  rewrite length_app, IH, Hr. lia.
Qed.

Lemma np_reshape_concat (rs : list (list cell)) w :
  w ≠ 0 → Forall (λ r, length r = w) rs → np_reshape (concat rs) w = Ok rs.
Proof.
  intros Hw Hrs. unfold np_reshape.
  rewrite bool_decide_eq_false_2 by done.
  rewrite (concat_length_uniform rs w) by done.
  rewrite bool_decide_eq_true_2 by (by apply Nat.Div0.mod_mul).
  rewrite Nat.div_mul by done. by rewrite chunks_concat.
Qed.

Lemma pd_DataFrame_rows data cols :
  Forall (λ r, length r = length cols) data →
  pd_DataFrame data cols = Ok (mkDF cols data).
Proof.
  intros Hd. unfold pd_DataFrame.
  rewrite (proj2 (forallb_forall _ _)); [done|].
  intros r Hr%list_elem_of_In. apply bool_decide_eq_true_2.
  by apply (proj1 (Forall_forall _ _) Hd).
Qed.

(** Diff mode on two different groups: one row per pair of rows, the B rows
    outermost; an exception exactly when a subtraction raises. *)
Lemma pair_data_between_diff f A B :
  well_formed A → well_formed B → columns B = columns A → columns A ≠ [] →
  pair_data_between f true A B
  = (rs ← mapM (diff_row f) (cross_join_by_B (rows A) (rows B));
     Ok (mkDF (columns A) rs)).
Proof.
  intros HA HB Hcols Hne.
  assert (Hw : length (columns B) = length (columns A)) by by rewrite Hcols.
  unfold pair_data_between, get_pair_data.
  rewrite abs_diff_between_run. cbn [fst].
  unfold abs_diff_table. rewrite <- broadcast_by_B by done.
  destruct (broadcast_abs_diff f A B) as [pd|e] eqn:Hpd; [| done].
  cbn [mbind result_bind]. unfold shape. cbn [snd].
  pose proof (broadcast_row_lengths f A B pd HA HB Hw Hpd) as Hlen.
  apply Forall_concat in Hlen.
  rewrite np_reshape_concat; [| by destruct (columns A) | done].
  cbn [mbind result_bind]. by apply pd_DataFrame_rows.
Qed.

(** * Diff mode within a group *)

Lemma filter_zip_seq_drop {A} (l : list A) (j k : nat) :
  List.filter (λ q, j <? q.1) (zip (seq k (length l)) l)
  = drop (j + 1 - k) (zip (seq k (length l)) l).
Proof.
  revert k. induction l as [|x l IH]; intros k.
  { simpl. by rewrite drop_nil. }
  cbn [length seq zip_with List.filter fst].
  rewrite IH. destruct (Nat.ltb_spec j k) as [Hlt|Hge].
  - replace (j + 1 - k) with 0 by lia.
    replace (j + 1 - S k) with 0 by lia. done.
  - replace (j + 1 - k) with (S (j + 1 - S k)) by lia. done.
Qed.

Lemma drop_numbered_filter {A} (l : list A) (j : nat) :
  drop (j + 1) (numbered l) = List.filter (λ q, j <? q.1) (numbered l).
Proof.
  unfold numbered. rewrite filter_zip_seq_drop. f_equal. lia.
Qed.

Lemma filter_flat_map {A B} (keep : B → bool) (h : A → list B) l :
  List.filter keep (flat_map h l) = flat_map (λ x, List.filter keep (h x)) l.
Proof.
  induction l as [|x l IH]; simpl; [done|].
  by rewrite List.filter_app, IH.
Qed.

Lemma retain_by_B_structure {A} (l : list A) :
  retain (λ i j, j <? i) (cross_join_by_B l l)
  = flat_map (λ qb, map (λ qa, (qa, qb)) (drop (qb.1 + 1) (numbered l)))
             (numbered l).
Proof.
  unfold retain, cross_join_by_B. rewrite filter_flat_map.
  apply flat_map_ext. intros qb. rewrite filter_map_comm. cbn [fst snd].
  by rewrite drop_numbered_filter.
Qed.

Lemma numbered_lookup {A} (l : list A) i q :
  numbered l !! i = Some q → q.1 = i ∧ l !! i = Some q.2.
Proof.
  unfold numbered. intros (a & b & -> & Ha & Hb)%lookup_zip_with_Some.
  apply lookup_seq in Ha as [-> _]. done.
Qed.

(** Line 146: the slices [pairs_diffs[i, i+1:]]. *)
Lemma slices_run (pd : list (list (list cell))) k :
  k ≤ length pd →
  mapM (λ i, match pd !! i with
             | Some plane => Ok (drop (i + 1) plane)
             | None => Raise (IndexError "index out of bounds for axis 0")
             end) (seq 0 k)
  = Ok (imap (λ i plane, drop (i + 1) plane) (take k pd)).
Proof.
  induction k as [|k IH]; intros Hk; [done|].
  rewrite seq_S, mapM_app_eq, IH by lia. cbn [mbind result_bind mapM Nat.add].
  destruct (lookup_lt_is_Some_2 pd k) as [plane Hplane]; [lia|].
  rewrite Hplane. cbn [mbind result_bind mret result_ret].
  rewrite (take_S_r _ _ _ Hplane), imap_app. cbn [imap].
  rewrite length_take, Nat.min_l by lia. by rewrite Nat.add_0_r.
Qed.

(** The rows diff mode keeps within a group, plane by plane. *)
Lemma later_rows_run f (l : list (list cell)) pd :
  mapM (λ rb, mapM (λ ra, row_abs_diff f ra rb) l) l = Ok pd →
  mapM (diff_row f) (retain (λ i j, j <? i) (cross_join_by_B l l))
  = Ok (concat (imap (λ i plane, drop (i + 1) plane) pd)).
Proof.
  intros Hpd. rewrite retain_by_B_structure, mapM_flat_map_eq.
  assert (Hplanes :
    mapM (λ qb, mapM (diff_row f)
                  (map (λ qa, (qa, qb)) (drop (qb.1 + 1) (numbered l))))
         (numbered l)
    = Ok (imap (λ i plane, drop (i + 1) plane) pd)); [| by rewrite Hplanes].
  apply mapM_Forall2. apply mapM_Forall2 in Hpd.
  apply Forall2_same_length_lookup. split.
  - rewrite numbered_length, length_imap. by eapply Forall2_length.
  - intros i qb z [Hi Hqb]%numbered_lookup Hz.
    apply list_lookup_imap_Some in Hz as (plane & Hplane & ->).
    pose proof (Forall2_lookup_lr _ _ _ _ _ _ Hpd Hqb Hplane) as Hrow.
    cbv beta in Hrow. rewrite mapM_map, Hi. unfold diff_row. cbn [fst snd].
    apply mapM_drop.
    by rewrite (mapM_numbered (λ ra, row_abs_diff f ra qb.2)).
Qed.

Lemma imap_last_plane (pd : list (list (list cell))) n :
  length pd = n → Forall (λ plane, length plane = n) pd →
  concat (imap (λ i plane, drop (i + 1) plane) pd)
  = concat (imap (λ i plane, drop (i + 1) plane) (take (n - 1) pd)).
Proof.
  intros Hn Hplanes. destruct n as [|n].
  { by destruct pd. }
  replace (S n - 1) with n by lia.
  destruct (lookup_lt_is_Some_2 pd n) as [plane Hplane]; [lia|].
  rewrite <- (take_drop n pd) at 1.
  rewrite (drop_S _ _ _ Hplane), drop_ge by lia.
  rewrite imap_app. cbn [imap]. rewrite concat_app. cbn [concat].
  rewrite length_take, Nat.min_l, Nat.add_0_r by lia.
  rewrite drop_ge, !app_nil_r; [done|].
  rewrite Forall_forall in Hplanes. rewrite (Hplanes plane); [lia|].
  by eapply list_elem_of_lookup_2.
Qed.

Lemma np_concatenate_nonempty arrays :
  arrays ≠ [] → np_concatenate arrays = Ok (concat arrays).
Proof. by destruct arrays. Qed.

(** Diff mode within a group of at least two rows: one row per pair of
    rows in which the A row comes later in the group than the B row, the B
    rows outermost; an exception exactly when a subtraction of the broadcast
    raises. *)
Lemma pair_data_within_diff f A :
  well_formed A → 2 ≤ length (rows A) →
  pair_data_within f true A
  = (_ ← broadcast_abs_diff f A A;
     rs ← mapM (diff_row f)
            (retain (λ i j, j <? i) (cross_join_by_B (rows A) (rows A)));
     Ok (mkDF (columns A) rs)).
Proof.
  intros HA Hn.
  unfold pair_data_within, get_pair_data.
  rewrite abs_diff_within_run. cbn [fst]. unfold abs_diff_table.
  destruct (broadcast_abs_diff f A A) as [pd|e] eqn:Hpd; [| done].
  cbn [mbind result_bind]. unfold shape, range. cbn [fst].
  pose proof (broadcast_row_lengths f A A pd HA HA eq_refl Hpd) as Hlen.
  rewrite broadcast_same_width in Hpd by done.
  assert (Hpdn : length pd = length (rows A)) by (by apply mapM_length in Hpd).
  assert (Hplanes : Forall (λ plane, length plane = length (rows A)) pd).
  { eapply mapM_Forall; [exact Hpd|]. intros rb plane _ Hplane.
    by apply mapM_length in Hplane. }
  rewrite (later_rows_run f (rows A) pd Hpd). cbn [mbind result_bind].
  rewrite Nat.sub_0_r, slices_run by lia. cbn [mbind result_bind].
  rewrite (imap_last_plane pd (length (rows A))) by done.
  set (slices := imap _ (take _ pd)).
  assert (Hslices : slices ≠ []).
  { intros Hnil%(f_equal length). unfold slices in Hnil.
    rewrite length_imap, length_take in Hnil. simpl in Hnil. lia. }
  rewrite np_concatenate_nonempty by done. cbn [mbind result_bind].
  apply pd_DataFrame_rows.
  apply Forall_concat. unfold slices.
  apply Forall_forall. intros sl Hsl.
  apply elem_of_lookup_imap in Hsl as (i & plane & -> & Hplane).
  apply Forall_drop.
  apply lookup_take_Some in Hplane as [Hplane _].
  rewrite Forall_forall in Hlen. apply Hlen.
  by eapply list_elem_of_lookup_2.
Qed.

(** * The two orders of going through the pairs *)

Lemma NoDup_numbered {A} (l : list A) : NoDup (numbered l).
Proof. unfold numbered. apply NoDup_zip_l, NoDup_seq. Qed.

Lemma elem_of_cross_join {A} (la lb : list A) p :
  p ∈ cross_join la lb ↔ p.1 ∈ numbered la ∧ p.2 ∈ numbered lb.
Proof.
  unfold cross_join. destruct p as [qa qb].
  by rewrite list_elem_of_In, in_prod_iff, <- !list_elem_of_In.
Qed.

Lemma elem_of_cross_join_by_B {A} (la lb : list A) p :
  p ∈ cross_join_by_B la lb ↔ p.1 ∈ numbered la ∧ p.2 ∈ numbered lb.
Proof.
  unfold cross_join_by_B. rewrite list_elem_of_In, in_flat_map. split.
  - intros (qb & Hqb & (qa & <- & Hqa)%in_map_iff).
    by rewrite !list_elem_of_In.
  - intros [Hqa Hqb]. exists p.2. rewrite <- list_elem_of_In. split; [done|].
    apply in_map_iff. exists p.1. rewrite <- list_elem_of_In.
    by destruct p.
Qed.

Lemma NoDup_cross_join {A} (la lb : list A) : NoDup (cross_join la lb).
Proof. apply NoDup_list_prod; apply NoDup_numbered. Qed.

Lemma NoDup_cross_join_by_B {A} (la lb : list A) :
  NoDup (cross_join_by_B la lb).
Proof.
  unfold cross_join_by_B.
  pose proof (NoDup_numbered lb) as Hlb.
  induction Hlb as [|qb l2 Hqb _ IH]; simpl; [constructor|].
  apply NoDup_app. split_and!.
  - assert (Inj (=) (=) (λ qa : nat * A, (qa, qb))) by (by intros ?? [= ->]).
    apply (NoDup_fmap_2 (λ qa, (qa, qb))), NoDup_numbered.
  - intros p (qa & -> & _)%elem_of_map.
    rewrite list_elem_of_In, in_flat_map.
    intros (qb' & Hqb' & (qa' & [= _ ->] & _)%in_map_iff).
    by apply list_elem_of_In in Hqb'.
  - done.
Qed.

Lemma cross_join_orders {A} (la lb : list A) :
  cross_join_by_B la lb ≡ₚ cross_join la lb.
Proof.
  apply NoDup_Permutation;
    [apply NoDup_cross_join_by_B | apply NoDup_cross_join |].
  intros p. by rewrite elem_of_cross_join, elem_of_cross_join_by_B.
Qed.

Lemma elem_of_retain {A} keep (pairs : list ((nat * A) * (nat * A))) p :
  p ∈ retain keep pairs ↔ p ∈ pairs ∧ keep p.1.1 p.2.1 = true.
Proof. unfold retain. by rewrite !list_elem_of_In, filter_In. Qed.

Lemma retain_orders {A} keep (la lb : list A) :
  retain keep (cross_join_by_B la lb) ≡ₚ retain keep (cross_join la lb).
Proof.
  apply NoDup_Permutation.
  - apply NoDup_list_filter, NoDup_cross_join_by_B.
  - apply NoDup_list_filter, NoDup_cross_join.
  - intros p.
    by rewrite !elem_of_retain, elem_of_cross_join, elem_of_cross_join_by_B.
Qed.

(** The pairs kept within a group of [n] rows, by their row numbers: each
    pair of different rows once, the later row on the A side. *)
Lemma retained_row_numbers {A} (l : list A) :
  let kept := retain (λ i j, j <? i) (cross_join l l) in
  let n := length l in
  length kept = n * (n - 1) / 2
  ∧ NoDup (row_numbers kept)
  ∧ (∀ i j, (i, j) ∈ row_numbers kept ↔ j < i < n).
Proof.
  intros kept n. unfold kept.
  assert (Hnum : row_numbers (retain (λ i j, j <? i) (cross_join l l))
                 = List.filter (λ q : nat * nat, q.2 <? q.1)
                     (list_prod (seq 0 n) (seq 0 n))).
  { by rewrite row_numbers_retain, row_numbers_cross_join. }
  split_and!.
  - rewrite <- (length_map (λ p, (p.1.1, p.2.1))).
    change (length (row_numbers (retain (λ i j, j <? i) (cross_join l l)))
            = n * (n - 1) / 2).
    rewrite Hnum. pose proof (later_pairs_length n) as H2.
    apply Nat.div_unique_exact; [done | lia].
  - rewrite Hnum. apply later_pairs_NoDup.
  - intros i j. rewrite Hnum. apply later_pairs_elem_of.
Qed.

(** * One row per pair *)

Lemma retained_pairs_are_rows {A} keep (l : list A) p :
  p ∈ retain keep (cross_join l l) →
  l !! p.1.1 = Some p.1.2 ∧ l !! p.2.1 = Some p.2.2.
Proof.
  intros [[Ha Hb]%elem_of_cross_join _]%elem_of_retain.
  split; by apply numbered_elem_of.
Qed.

(** X1.  Concat mode within a group of [n] rows: the table has one row for
    each pair of different rows of the group, [n (n - 1) / 2] rows in all; no
    row pairs a row with itself and no two rows come from the same two rows
    of the group. *)
Theorem within_concat_one_row_per_pair
    (f : cell → cell → result cell) (A : DataFrame)
    (Hwf : well_formed A)
    (Hfree : Forall (λ c, ¬ reserved c) (columns A)) :
  let n := length (rows A) in
  let kept := retain (λ i j, j <? i) (cross_join (rows A) (rows A)) in
  (get_pair_data f false 0 None [A]).1
  = Ok (mkDF (pair_schema false (columns A)) (map concat_row kept))
  ∧ length (map concat_row kept) = n * (n - 1) / 2
  ∧ NoDup (row_numbers kept)
  ∧ (∀ i j, (i, j) ∈ row_numbers kept ↔ j < i < n)
  ∧ (∀ i, (i, i) ∉ row_numbers kept)
  ∧ (∀ i j, i < n → j < n → i ≠ j →
       ((i, j) ∈ row_numbers kept ↔ (j, i) ∉ row_numbers kept))
  ∧ (∀ p, p ∈ kept →
       rows A !! p.1.1 = Some p.1.2 ∧ rows A !! p.2.1 = Some p.2.2).
Proof.
  intros n kept.
  destruct (retained_row_numbers (rows A)) as (Hlen & Hnd & Hin).
  fold n kept in Hlen, Hnd, Hin. split_and!.
  - by apply (pair_data_within_concat f A).
  - by rewrite length_map.
  - done.
  - done.
  - intros i. rewrite Hin. lia.
  - intros i j Hi Hj Hij. rewrite !Hin. lia.
  - intros p. apply retained_pairs_are_rows.
Qed.

Lemma within_concat_one_row_per_pair_witness :
  (get_pair_data np_abs_sub false 0 None [group_3]).1
  = Ok (mkDF ["x_A"; "x_B"]
          [[Num 20; Num 10]; [Num 40; Num 10]; [Num 40; Num 20]])
  ∧ length [[Num 20; Num 10]; [Num 40; Num 10]; [Num 40; Num 20]]
    = 3 * (3 - 1) / 2.
Proof.
  destruct (within_concat_one_row_per_pair np_abs_sub group_3
              group_3_well_formed group_3_reserved_free) as (HT & Hlen & _).
  split; [exact HT | exact Hlen].
Defined.

Lemma abs_diff_table_no_columns f A B D :
  columns A = [] → abs_diff_table f A B false ≠ Ok D.
Proof.
  intros Hc. unfold abs_diff_table, shape. rewrite Hc. cbn [length snd].
  by destruct (broadcast_abs_diff f A B).
Qed.

(** The rows of the diff table of one group are the diff rows of the pairs
    concat mode keeps, gone through B-major. *)
Lemma pair_data_within_diff_rows f A T :
  well_formed A →
  pair_data_within f true A = Ok T →
  let n := length (rows A) in
  ∃ kept,
    kept ≡ₚ retain (λ i j, j <? i) (cross_join (rows A) (rows A))
    ∧ mapM (diff_row f) kept = Ok (rows T)
    ∧ columns T = columns A
    ∧ length (rows T) = n * (n - 1) / 2
    ∧ NoDup (row_numbers kept)
    ∧ (∀ i j, (i, j) ∈ row_numbers kept ↔ j < i < n)
    ∧ 2 ≤ n.
Proof.
  intros Hwf HT n.
  assert (Hn : 2 ≤ n).
  { destruct (decide (2 ≤ n)) as [|Hfew]; [done|]. exfalso.
    unfold pair_data_within, get_pair_data in HT.
    rewrite abs_diff_within_run in HT. cbn [fst] in HT.
    rewrite abs_diff_table_few_rows in HT by (unfold n in Hfew; lia).
    by destruct (broadcast_abs_diff f A A). }
  rewrite pair_data_within_diff in HT by done.
  apply rbind_ok in HT as (pd & _ & HT).
  apply rbind_ok in HT as (rs & Hrs & [= <-]).
  pose proof (retain_orders (λ i j, j <? i) (rows A) (rows A)) as Hperm.
  destruct (retained_row_numbers (rows A)) as (Hlen & Hnd & Hin).
  exists (retain (λ i j, j <? i) (cross_join_by_B (rows A) (rows A))).
  assert (Hnums : row_numbers
                    (retain (λ i j, j <? i) (cross_join_by_B (rows A) (rows A)))
                  ≡ₚ row_numbers
                       (retain (λ i j, j <? i) (cross_join (rows A) (rows A)))).
  { unfold row_numbers. by apply Permutation_map. }
  split_and!; [done | done | done | | | | done].
  - cbn [rows]. apply mapM_length in Hrs. rewrite Hrs.
    by rewrite (Permutation_length Hperm).
  - by rewrite Hnums.
  - intros i j. by rewrite Hnums.
Qed.

(** X2.  Diff mode within a group of [n] rows, when it returns a table:
    the table has one row for each pair of different rows of the group,
    [n (n - 1) / 2] rows in all, the diff row of the pair; the pairs are
    those concat mode keeps, gone through in another order. *)
Theorem within_diff_one_row_per_pair
    (f : cell → cell → result cell) (A T : DataFrame)
    (Hwf : well_formed A)
    (HT : (get_pair_data f true 0 None [A]).1 = Ok T) :
  let n := length (rows A) in
  ∃ kept,
    kept ≡ₚ retain (λ i j, j <? i) (cross_join (rows A) (rows A))
    ∧ mapM (diff_row f) kept = Ok (rows T)
    ∧ columns T = columns A
    ∧ length (rows T) = n * (n - 1) / 2
    ∧ NoDup (row_numbers kept)
    ∧ (∀ i j, (i, j) ∈ row_numbers kept ↔ j < i < n)
    ∧ 2 ≤ n.
Proof. exact (pair_data_within_diff_rows f A T Hwf HT). Qed.

Lemma within_diff_one_row_per_pair_witness :
  ∃ kept,
    kept ≡ₚ retain (λ i j, j <? i) (cross_join (rows group_3) (rows group_3))
    ∧ mapM (diff_row np_abs_sub) kept = Ok [[Num 10]; [Num 30]; [Num 20]]
    ∧ length [[Num 10]; [Num 30]; [Num 20]] = 3 * (3 - 1) / 2.
Proof.
  destruct (within_diff_one_row_per_pair np_abs_sub group_3
              (mkDF ["x"] [[Num 10]; [Num 30]; [Num 20]])
              group_3_well_formed eq_refl)
    as (kept & Hperm & Hrows & _ & Hlen & _).
  exists kept. split; [exact Hperm|]. split; [exact Hrows | exact Hlen].
Defined.

(** * The two modes on the same work item *)

Lemma blocks_of_concat_row f w p :
  length p.1.2 = w → blocks_abs_diff f w (concat_row p) = diff_row f p.
Proof.
  intros Hw. unfold blocks_abs_diff, concat_row, diff_row.
  by rewrite take_app_length', drop_app_length'.
Qed.

Lemma blocks_of_concat_rows f w (pairs : list _) :
  (∀ p, p ∈ pairs → length p.1.2 = w) →
  mapM (blocks_abs_diff f w) (map concat_row pairs) = mapM (diff_row f) pairs.
Proof.
  intros Hw. rewrite mapM_map. apply mapM_ext. intros p Hp.
  by apply blocks_of_concat_row, Hw.
Qed.

(** X3.  Whenever diff mode returns a table for a work item, concat mode
    returns one too, and the rows of the concat table, taken in a suitable order
    and reduced to the elementwise absolute difference of their _A block and
    their _B block, are the rows of the diff table. *)
Theorem modes_correspond
    (f : cell → cell → result cell) (A B : DataFrame)
    (HA : well_formed A) (HB : well_formed B)
    (Hcols : columns B = columns A)
    (Hfree : Forall (λ c, ¬ reserved c) (columns A)) :
  let w := length (columns A) in
  (∀ D, (get_pair_data f true 0 (Some 1) [A; B]).1 = Ok D →
     ∃ C C', (get_pair_data f false 0 (Some 1) [A; B]).1 = Ok C
             ∧ rows C ≡ₚ C'
             ∧ mapM (blocks_abs_diff f w) C' = Ok (rows D)
             ∧ length (rows C) = length (rows A) * length (rows B))
  ∧ (∀ D, (get_pair_data f true 0 None [A]).1 = Ok D →
       ∃ C C', (get_pair_data f false 0 None [A]).1 = Ok C
               ∧ rows C ≡ₚ C'
               ∧ mapM (blocks_abs_diff f w) C' = Ok (rows D)).
Proof.
  intros w. unfold well_formed in HA, HB. rewrite Hcols in HB. split.
  - intros D HD.
    change (pair_data_between f true A B = Ok D) in HD.
    destruct (decide (columns A = [])) as [Hnil|Hne].
    { unfold pair_data_between, get_pair_data in HD.
      rewrite abs_diff_between_run in HD.
      by apply abs_diff_table_no_columns in HD. }
    rewrite pair_data_between_diff in HD;
      [| done | by unfold well_formed; rewrite Hcols | done | done].
    apply rbind_ok in HD as (rs & Hrs & [= <-]).
    exists (mkDF (pair_schema false (columns A))
              (map concat_row (cross_join (rows A) (rows B)))),
           (map concat_row (cross_join_by_B (rows A) (rows B))).
    split_and!.
    + apply (pair_data_between_concat f A B); try done.
      by unfold well_formed; rewrite Hcols.
    + cbn [rows]. apply Permutation_map. symmetry. apply cross_join_orders.
    + rewrite blocks_of_concat_rows; [done|].
      intros p [Hp _]%elem_of_cross_join_by_B.
      by apply (numbered_row_length (rows A)).
    + cbn [rows]. unfold cross_join.
      by rewrite length_map, length_prod, !numbered_length.
  - intros D HD.
    destruct (pair_data_within_diff_rows f A D HA HD)
      as (kept & Hperm & Hrows & _).
    exists (mkDF (pair_schema false (columns A))
              (map concat_row
                 (retain (λ i j, j <? i) (cross_join (rows A) (rows A))))),
           (map concat_row kept).
    split_and!.
    + by apply (pair_data_within_concat f A).
    + cbn [rows]. apply Permutation_map. by symmetry.
    + rewrite blocks_of_concat_rows; [done|].
      intros p Hp. rewrite Hperm in Hp.
      apply elem_of_retain in Hp as [[Hp _]%elem_of_cross_join _].
      by apply (numbered_row_length (rows A)).
Qed.

Lemma modes_correspond_witness :
  ∃ C C',
    (get_pair_data np_abs_sub false 0 None [group_3]).1 = Ok C
    ∧ rows C ≡ₚ C'
    ∧ mapM (blocks_abs_diff np_abs_sub 1) C'
      = Ok [[Num 10]; [Num 30]; [Num 20]].
Proof.
  destruct (modes_correspond np_abs_sub group_3 group_3
              group_3_well_formed group_3_well_formed eq_refl
              group_3_reserved_free) as [_ Hwithin].
  exact (Hwithin (mkDF ["x"] [[Num 10]; [Num 30]; [Num 20]]) eq_refl).
Defined.

(** * Counting the rows of the assembled dataset *)

(** The table of two different groups, when there is one: its rows, its
    labels, one cell per label. *)
Lemma pair_data_between_rows f flag A B T :
  well_formed A → well_formed B → columns B = columns A →
  (flag = false → Forall (λ c, ¬ reserved c) (columns A)) →
  pair_data_between f flag A B = Ok T →
  length (rows T) = length (rows A) * length (rows B)
  ∧ well_formed T.
Proof.
  intros HA HB Hcols Hfree HT. destruct flag.
  - destruct (decide (columns A = [])) as [Hnil|Hne].
    { unfold pair_data_between, get_pair_data in HT.
      rewrite abs_diff_between_run in HT.
      by apply abs_diff_table_no_columns in HT. }
    rewrite pair_data_between_diff in HT by done.
    apply rbind_ok in HT as (rs & Hrs & [= <-]). cbn [rows]. split.
    + apply mapM_length in Hrs. rewrite Hrs. unfold cross_join_by_B.
      rewrite (flat_map_map_prod (λ qb qa, (qa, qb))).
      rewrite length_map, length_prod, !numbered_length. lia.
    + unfold well_formed. cbn [rows columns].
      eapply mapM_Forall; [exact Hrs|].
      intros p r [Hp Hq]%elem_of_cross_join_by_B Hr.
      apply row_abs_diff_length in Hr. rewrite Hr.
      unfold well_formed in HA, HB. rewrite Hcols in HB.
      rewrite (numbered_row_length (rows A) (length (columns A)) p.1),
              (numbered_row_length (rows B) (length (columns A)) p.2);
        [lia | done..].
  - rewrite pair_data_between_concat in HT by auto. injection HT as <-.
    cbn [rows]. split.
    + unfold cross_join.
      by rewrite length_map, length_prod, !numbered_length.
    + unfold well_formed. cbn [rows columns]. apply Forall_forall.
      intros r (p & -> & Hp)%elem_of_map.
      unfold well_formed in HA, HB. rewrite Hcols in HB.
      destruct (cross_join_lengths _ _ _ p HA HB Hp) as [Ha Hb].
      unfold concat_row. rewrite !length_app, !length_map. lia.
Qed.

(** The table of one group, when there is one. *)
Lemma pair_data_within_rows f flag A T :
  well_formed A → Forall (λ c, ¬ reserved c) (columns A) →
  pair_data_within f flag A = Ok T →
  length (rows T) = length (rows A) * (length (rows A) - 1) / 2
  ∧ well_formed T.
Proof.
  intros HA Hfree HT. destruct flag.
  - destruct (pair_data_within_diff_rows f A T HA HT)
      as (kept & Hperm & Hrows & Hcols & Hlen & _).
    split; [done|]. unfold well_formed. rewrite Hcols.
    eapply mapM_Forall; [exact Hrows|]. intros p r Hp Hr.
    apply row_abs_diff_length in Hr. rewrite Hr.
    rewrite Hperm in Hp.
    apply elem_of_retain in Hp as [Hp _].
    destruct (cross_join_lengths _ _ _ p HA HA Hp) as [-> ->]. lia.
  - rewrite pair_data_within_concat in HT by done. injection HT as <-.
    destruct (retained_row_numbers (rows A)) as (Hlen & _).
    cbn [rows]. split; [by rewrite length_map|].
    unfold well_formed. cbn [rows columns]. apply Forall_forall.
    intros r (p & -> & Hp)%elem_of_map.
    apply elem_of_retain in Hp as [Hp _].
    destruct (cross_join_lengths _ _ _ p HA HA Hp) as [Ha Hb].
    unfold concat_row. rewrite !length_app, !length_map. lia.
Qed.

Lemma select_filter {A} (keep : A → bool) (l : list A) :
  select (map keep l) l = List.filter keep l.
Proof.
  rewrite <- (map_id l) at 2. rewrite select_map. apply map_id.
Qed.

(** The frame of a subject has one row per row of the subject. *)
Lemma user_frame_rows DF u fn A :
  user_frame DF u fn = Ok A → length (rows A) = group_size DF u.
Proof.
  unfold user_frame, group_size.
  destruct (getitem DF "user_name") as [col|e] eqn:Hcol; [| done].
  cbn [mbind result_bind]. unfold loc.
  intros (ps & _ & [= <-])%rbind_ok. cbn [rows]. rewrite length_map.
  unfold getitem in Hcol.
  destruct (col_index "user_name" (columns DF)) as [p|]; [| done].
  injection Hcol as <-. rewrite map_map, select_filter.
  by rewrite filter_map_comm, length_map.
Qed.

Lemma mapM_map_eq {A B C} (g : A → result B) (φ : B → C) (ψ : A → C) l ys :
  mapM g l = Ok ys →
  (∀ x y, x ∈ l → g x = Ok y → φ y = ψ x) →
  map φ ys = map ψ l.
Proof.
  rewrite mapM_Forall2. induction 1 as [|x y l ys Hxy _ IH]; intros Hg.
  - done.
  - cbn [map]. f_equal.
    + apply Hg; [left | done].
    + apply IH. intros x' y' Hx'. apply Hg. by right.
Qed.

(** The row counts of the tables of lines 43-58, one per pair of subjects. *)
Lemma negative_tables_rows f DF us fn flag tables :
  Forall (λ c, ¬ reserved c) fn →
  negative_tables f DF us fn flag = Ok tables →
  map (λ T, length (rows T)) tables
  = map (λ q, group_size DF (cell_at us q.1) * group_size DF (cell_at us q.2))
      (subject_pairs (length us))
  ∧ Forall well_formed tables.
Proof.
  intros Hfree. unfold negative_tables.
  intros (per_i & Hper & [= <-])%rbind_ok.
  assert (Hpair : ∀ i j T,
    (A ← user_frame DF (cell_at us i) fn;
     B ← user_frame DF (cell_at us j) fn;
     pair_data_between f flag A B) = Ok T →
    length (rows T)
    = group_size DF (cell_at us i) * group_size DF (cell_at us j)
    ∧ well_formed T).
  { intros i j T (A & HA & HT)%rbind_ok.
    apply rbind_ok in HT as (B & HB & HT).
    destruct (user_frame_ok _ _ _ _ HA) as [HcA HwA].
    destruct (user_frame_ok _ _ _ _ HB) as [HcB HwB].
    apply pair_data_between_rows in HT as [Hlen Hwf];
      [| done | done | congruence | intros _; by rewrite HcA].
    by rewrite Hlen, (user_frame_rows _ _ _ _ HA), (user_frame_rows _ _ _ _ HB). }
  split.
  - unfold subject_pairs. rewrite flat_map_concat_map, !concat_map, map_map.
    f_equal. eapply mapM_map_eq; [exact Hper|].
    intros i ts _ Hts. cbn beta. rewrite map_map.
    eapply mapM_map_eq; [exact Hts|].
    intros j T _ HT. cbn [fst snd]. by apply (Hpair i j T).
  - apply Forall_concat. eapply mapM_Forall; [exact Hper|].
    intros i ts _ Hts. eapply mapM_Forall; [exact Hts|].
    intros j T _ HT. by apply (Hpair i j T).
Qed.

(** The row counts of the tables of lines 64-72, one per subject. *)
Lemma positive_tables_rows f DF us fn flag tables :
  Forall (λ c, ¬ reserved c) fn →
  positive_tables f DF us fn flag = Ok tables →
  map (λ T, length (rows T)) tables
  = map (λ u, group_size DF u * (group_size DF u - 1) / 2) us
  ∧ Forall well_formed tables.
Proof.
  intros Hfree Hts. unfold positive_tables in Hts.
  assert (Hone : ∀ u T,
    (A ← user_frame DF u fn; pair_data_within f flag A) = Ok T →
    length (rows T) = group_size DF u * (group_size DF u - 1) / 2
    ∧ well_formed T).
  { intros u T (A & HA & HT)%rbind_ok.
    destruct (user_frame_ok _ _ _ _ HA) as [HcA HwA].
    apply pair_data_within_rows in HT as [Hlen Hwf];
      [| done | by rewrite HcA].
    by rewrite Hlen, (user_frame_rows _ _ _ _ HA). }
  split.
  - eapply mapM_map_eq; [exact Hts|]. intros u T _ HT. by apply (Hone u T).
  - eapply mapM_Forall; [exact Hts|]. intros u T _ HT. by apply (Hone u T).
Qed.

(** ** The label column *)

Lemma col_index_not_elem_of c cols : col_index c cols = None → c ∉ cols.
Proof.
  intros Hnone Hin. apply col_index_elem_of in Hin as [p Hp]. congruence.
Qed.

(** Reading back a column that has just been assigned a scalar. *)
Lemma getitem_setitem df c k :
  well_formed df →
  getitem (setitem df c (λ _, k)) c = Ok (map (λ _, k) (rows df)).
Proof.
  intros Hwf. unfold setitem, getitem.
  destruct (col_index c (columns df)) as [p|] eqn:Hp; cbn [columns rows].
  - rewrite Hp. f_equal.
    apply col_index_Some, lookup_lt_Some in Hp.
    unfold well_formed in Hwf. revert Hwf. generalize 0.
    induction (rows df) as [|r rs IH]; intros n Hrs; [done|].
    apply Forall_cons in Hrs as [Hr Hrs]. cbn [imap map]. f_equal.
    + unfold cell_at. rewrite list_lookup_insert_eq by lia. done.
    + apply (IH (S n) Hrs).
  - apply col_index_not_elem_of in Hp.
    rewrite (col_index_app_fresh c (columns df) []) by done. f_equal.
    unfold well_formed in Hwf. revert Hwf. generalize 0.
    induction (rows df) as [|r rs IH]; intros n Hrs; [done|].
    apply Forall_cons in Hrs as [Hr Hrs]. cbn [imap map]. f_equal.
    + by apply cell_at_app_fresh.
    + apply (IH (S n) Hrs).
Qed.

Lemma setitem_rows_length df c v :
  length (rows (setitem df c v)) = length (rows df).
Proof.
  unfold setitem. destruct (col_index c (columns df)); cbn [rows];
    by rewrite length_imap.
Qed.

Lemma pd_concat_two X Y :
  columns Y = columns X →
  pd_concat [X; Y] = Ok (mkDF (columns X) (rows X ++ rows Y)).
Proof.
  intros Hc. unfold pd_concat. cbn [forallb]. rewrite Hc.
  rewrite !bool_decide_eq_true_2 by done. cbn [andb map concat].
  by rewrite app_nil_r.
Qed.

Lemma getitem_stacked X Y c colX colY :
  columns Y = columns X →
  getitem X c = Ok colX → getitem Y c = Ok colY →
  getitem (mkDF (columns X) (rows X ++ rows Y)) c = Ok (colX ++ colY).
Proof.
  unfold getitem. intros ->. cbn [columns rows].
  destruct (col_index c (columns X)); [|done].
  intros [= <-] [= <-]. by rewrite map_app.
Qed.

Lemma filter_const_true {A} (keep : cell → bool) k (l : list A) :
  keep k = true → List.filter keep (map (λ _, k) l) = map (λ _, k) l.
Proof. intros Hk. induction l as [|x l IH]; simpl; [done|]. by rewrite Hk, IH. Qed.

Lemma filter_const_false {A} (keep : cell → bool) k (l : list A) :
  keep k = false → List.filter keep (map (λ _, k) l) = [].
Proof. intros Hk. induction l as [|x l IH]; simpl; [done|]. by rewrite Hk, IH. Qed.

Lemma length_concat_rows (tables : list DataFrame) :
  length (concat (map rows tables))
  = sum_list (map (λ T, length (rows T)) tables).
Proof.
  induction tables as [|X l IH]; simpl; [done|]. by rewrite length_app, IH.
Qed.

(** A stack of tables with the same labels has the rows of all of them. *)
Lemma pd_concat_rows cols tables T :
  uniform_schema cols tables → Forall well_formed tables →
  pd_concat tables = Ok T →
  length (rows T) = sum_list (map (λ T, length (rows T)) tables)
  ∧ well_formed T ∧ columns T = cols.
Proof.
  intros Hu Hwf HT.
  destruct (uniform_schema_concat cols tables Hu) as [_ Hcat].
  destruct tables as [|T0 tables]; [discriminate HT|].
  rewrite Hcat in HT by done. injection HT as <-.
  split_and!; [| | done].
  - apply (length_concat_rows (T0 :: tables)).
  - unfold well_formed.
    change (Forall (λ r : list cell, length r = length cols)
              (concat (map rows (T0 :: tables)))).
    apply Forall_concat, Forall_forall. intros rs (X & -> & HX)%elem_of_map.
    rewrite Forall_forall in Hwf. unfold uniform_schema in Hu.
    rewrite Forall_forall in Hu. rewrite <- (Hu X HX). by apply Hwf.
Qed.

(** * The size of the assembled dataset *)

Lemma extract_pairs_value_counts f DF fn flag T :
  Forall (λ c, ¬ reserved c) fn →
  extract_pairs_value f DF fn flag = Ok T →
  ∃ us,
    subjects DF = Ok us
    ∧ 2 ≤ length us
    ∧ count_label 0 T
      = sum_list (map (λ q, group_size DF (cell_at us q.1)
                            * group_size DF (cell_at us q.2))
                    (subject_pairs (length us)))
    ∧ count_label 1 T
      = sum_list (map (λ u, group_size DF u * (group_size DF u - 1) / 2) us)
    ∧ length (rows T) = count_label 0 T + count_label 1 T.
Proof.
  intros Hfree. unfold extract_pairs_value.
  destruct (flag && bool_decide ("sequence" ∈ fn)); [done|].
  intros (col & Hcol & HT)%rbind_ok.
  apply rbind_ok in HT as (us & Hus & HT).
  apply rbind_ok in HT as (negatives & Hneg & HT).
  apply rbind_ok in HT as (DF_negative & Hcn & HT).
  apply rbind_ok in HT as (positives & Hpos & HT).
  apply rbind_ok in HT as (DF_positive & Hcp & HT).
  exists us.
  assert (Hsub : subjects DF = Ok us).
  { unfold subjects. by rewrite Hcol. }
  assert (Hmany : 2 ≤ length us).
  { destruct (decide (2 ≤ length us)) as [|Hfew]; [done|]. exfalso.
    rewrite negative_tables_few_subjects in Hneg by lia.
    injection Hneg as <-. discriminate Hcn. }
  destruct (negative_tables_rows _ _ _ _ _ _ Hfree Hneg) as [Hnrows Hnwf].
  destruct (positive_tables_rows _ _ _ _ _ _ Hfree Hpos) as [Hprows Hpwf].
  apply negative_tables_schema in Hneg; [| done].
  apply positive_tables_schema in Hpos; [| done].
  destruct (pd_concat_rows _ _ _ Hneg Hnwf Hcn) as (Hnlen & HwfN & HcolsN).
  destruct (pd_concat_rows _ _ _ Hpos Hpwf Hcp) as (Hplen & HwfP & HcolsP).
  rewrite Hnrows in Hnlen. rewrite Hprows in Hplen.
  set (N := setitem DF_negative "label" (λ _, Num 0)) in *.
  set (P := setitem DF_positive "label" (λ _, Num 1)) in *.
  assert (Hsame : columns P = columns N).
  { unfold P, N. by rewrite setitem_columns, HcolsP, (setitem_columns DF_negative),
      HcolsN. }
  rewrite (pd_concat_two N P Hsame) in HT. injection HT as <-.
  assert (HlenN : length (rows N) = length (rows DF_negative))
    by apply setitem_rows_length.
  assert (HlenP : length (rows P) = length (rows DF_positive))
    by apply setitem_rows_length.
  pose proof (getitem_stacked N P "label" _ _ Hsame
                (getitem_setitem DF_negative "label" (Num 0) HwfN)
                (getitem_setitem DF_positive "label" (Num 1) HwfP)) as Hlabel.
  assert (H0 : count_label 0 (mkDF (columns N) (rows N ++ rows P))
               = length (rows DF_negative)).
  { unfold count_label. rewrite Hlabel, List.filter_app.
    rewrite filter_const_true, filter_const_false by done.
    by rewrite app_nil_r, length_map. }
  assert (H1 : count_label 1 (mkDF (columns N) (rows N ++ rows P))
               = length (rows DF_positive)).
  { unfold count_label. rewrite Hlabel, List.filter_app.
    rewrite filter_const_false, filter_const_true by done.
    by rewrite app_nil_l, length_map. }
  split_and!; [done | done | by rewrite H0 | by rewrite H1 |].
  rewrite H0, H1. cbn [rows]. rewrite length_app. lia.
Qed.

(** X4.  The size of the dataset [extract_pairs] returns, when it returns one:
    at least two subjects are present; for each pair of different subjects
    there are as many rows labelled 0 as the product of their row counts;
    for each subject with [n] rows there are [n (n - 1) / 2] rows labelled
    1; there are no other rows. *)
Theorem dataset_label_counts
    (f : cell → cell → result cell) (r : ref) (DF : DataFrame)
    (fn : list string) (flag : bool) (h : heap) (T : DataFrame)
    (Hr : h !! r = Some DF)
    (Hfree : Forall (λ c, ¬ reserved c) fn)
    (HT : (extract_pairs f r fn flag h).1 = Ok T) :
  ∃ us,
    subjects DF = Ok us
    ∧ 2 ≤ length us
    ∧ count_label 0 T
      = sum_list (map (λ q, group_size DF (cell_at us q.1)
                            * group_size DF (cell_at us q.2))
                    (subject_pairs (length us)))
    ∧ count_label 1 T
      = sum_list (map (λ u, group_size DF u * (group_size DF u - 1) / 2) us)
    ∧ length (rows T) = count_label 0 T + count_label 1 T.
Proof.
  destruct (extract_pairs_runs f r DF fn flag h Hr) as [ext Hrun].
  rewrite Hrun in HT. by apply (extract_pairs_value_counts f DF fn flag T).
Qed.

Lemma dataset_label_counts_witness :
  ∃ T, (extract_pairs np_abs_sub 0 ["x"; "y"] true [table_23]).1 = Ok T
       ∧ count_label 0 T = 2 * 3
       ∧ count_label 1 T = 2 * (2 - 1) / 2 + 3 * (3 - 1) / 2
       ∧ length (rows T) = 10.
Proof.
  eexists. split; [vm_compute; reflexivity|].
  destruct (dataset_label_counts np_abs_sub 0 table_23 ["x"; "y"] true
              [table_23] _ eq_refl
              ltac:(repeat constructor; unfold reserved; intros [?|?]; done)
              eq_refl)
    as (us & Hus & _ & H0 & H1 & Hlen).
  injection Hus as <-.
  split; [exact H0|]. split; [exact H1|]. exact Hlen.
Defined.

(** X5.  A work item over two different groups with the same columns and
    one cell per column in every row; in concat mode, no column of theirs
    carries one of the two names reserved for the temporary columns (diff
    mode asks nothing of the names).  When the work item returns a table,
    the table has one row for each row of the first group and each row of
    the second, under the labels of its mode, one cell per label. *)
Theorem between_one_row_per_pair
    (f : cell → cell → result cell) (flag : bool) (A B T : DataFrame)
    (HA : well_formed A) (HB : well_formed B)
    (Hcols : columns B = columns A)
    (Hfree : flag = false → Forall (λ c, ¬ reserved c) (columns A))
    (HT : (get_pair_data f flag 0 (Some 1) [A; B]).1 = Ok T) :
  length (rows T) = length (rows A) * length (rows B)
  ∧ columns T = pair_schema flag (columns A)
  ∧ well_formed T.
Proof.
  destruct (pair_data_between_rows f flag A B T HA HB Hcols Hfree HT)
    as [Hlen Hwf].
  split_and!; [done | | done].
  destruct flag.
  - by apply pair_data_between_schema_diff in HT.
  - apply (pair_data_between_schema f false (columns A) A B T); auto.
Qed.

Lemma between_one_row_per_pair_witness :
  length [[Num 0]; [Num 10]; [Num 10]; [Num 0]; [Num 30]; [Num 20]]
  = length (rows group_2) * length (rows group_3)
  ∧ ["x"] = pair_schema true (columns group_2).
Proof.
  destruct (between_one_row_per_pair np_abs_sub true group_2 group_3
              (mkDF ["x"]
                 [[Num 0]; [Num 10]; [Num 10]; [Num 0]; [Num 30]; [Num 20]])
              ltac:(by repeat constructor) ltac:(by repeat constructor)
              eq_refl
              ltac:(discriminate)
              eq_refl)
    as (Hlen & Hc & _).
  split; [exact Hlen | exact Hc].
Defined.

(** * Cleaning one sequence of timestamps *)

Lemma wrap64_int64 z : int64 (wrap64 z).
Proof.
  unfold int64, wrap64.
  pose proof (Z.mod_pos_bound (z + 2 ^ 63) (2 ^ 64) ltac:(lia)). lia.
Qed.

Lemma wrap64_exact z : int64 z → wrap64 z = z.
Proof.
  unfold int64, wrap64. intros Hz.
  rewrite Z.mod_small by lia. lia.
Qed.

Lemma wrap64_diag z : wrap64 (z - z) = 0%Z.
Proof. by rewrite Z.sub_diag. Qed.

Lemma shifted_id seq : Forall int64 seq → shifted seq 0 = seq.
Proof.
  intros Hseq. unfold shifted. rewrite <- (map_id seq) at 2.
  apply map_ext_Forall. eapply Forall_impl; [exact Hseq|].
  intros t Ht. cbn beta. rewrite Z.sub_0_r. by apply wrap64_exact.
Qed.

Lemma even_prefix_length seq :
  length (even_prefix seq) = length seq - length seq `mod` 2.
Proof. unfold even_prefix. rewrite length_take. lia. Qed.

Lemma even_prefix_even seq : length (even_prefix seq) `mod` 2 = 0.
Proof.
  rewrite even_prefix_length.
  pose proof (Nat.div_mod_eq (length seq) 2) as Hdm.
  replace (length seq - length seq `mod` 2) with (length seq `div` 2 * 2)
    by lia.
  apply Nat.Div0.mod_mul.
Qed.

Lemma even_prefix_run (seq : list Z) :
  (if bool_decide (length seq `mod` 2 = 1)
   then (take (length seq - 1) seq, 1%Z) else (seq, 0%Z))
  = (even_prefix seq, Z.of_nat (length seq `mod` 2)).
Proof.
  unfold even_prefix.
  pose proof (Nat.mod_upper_bound (length seq) 2 ltac:(lia)) as Hm.
  case_bool_decide as Hodd.
  - by rewrite Hodd.
  - replace (length seq `mod` 2) with 0 by lia.
    by rewrite Nat.sub_0_r, firstn_all.
Qed.

Lemma seq_cleanup_run first rest :
  _seq_cleanup (first :: rest)
  = Ok (even_prefix (if bool_decide (first ≠ 0%Z)
                     then shifted (first :: rest) first else first :: rest),
        if bool_decide (first ≠ 0%Z) then 1%Z else 0%Z,
        Z.of_nat (length (first :: rest) `mod` 2)).
Proof.
  unfold _seq_cleanup.
  destruct (bool_decide (first ≠ 0%Z)).
  - fold (shifted (first :: rest) first).
    rewrite (even_prefix_run (shifted (first :: rest) first)).
    unfold shifted at 2. by rewrite length_map.
  - by rewrite (even_prefix_run (first :: rest)).
Qed.

Lemma even_prefix_lookup (seq : list Z) i :
  i < length (even_prefix seq) → even_prefix seq !! i = seq !! i.
Proof.
  rewrite even_prefix_length. intros Hi. unfold even_prefix.
  by rewrite lookup_take_lt by lia.
Qed.

Lemma even_prefix_id (seq : list Z) :
  length seq `mod` 2 = 0 → even_prefix seq = seq.
Proof.
  intros Heven. unfold even_prefix. by rewrite Heven, Nat.sub_0_r, firstn_all.
Qed.

Lemma even_prefix_nil (seq : list Z) :
  even_prefix seq = [] ↔ length seq ≤ 1.
Proof.
  pose proof (even_prefix_length seq) as Hlen.
  pose proof (Nat.div_mod_eq (length seq) 2) as Hdm.
  pose proof (Nat.mod_upper_bound (length seq) 2 ltac:(lia)) as Hm.
  split.
  - intros Hnil. rewrite Hnil in Hlen. cbn [length] in Hlen. lia.
  - intros Hle. apply length_zero_iff_nil. rewrite Hlen.
    destruct seq as [|a [|b seq]]; cbn [length] in *; [done | done | lia].
Qed.

(** X6.  [_seq_cleanup] on an array of 64-bit timestamps.  The empty array
    raises [IndexError].  Otherwise the result is the array shifted by its
    first timestamp (in 64-bit arithmetic) and cut to an even length by
    dropping at most the last timestamp; [false_start] is 1 exactly when the
    first timestamp was not 0 and [odd] is 1 exactly when the length was
    odd. *)
Theorem seq_cleanup_result (seq : list Z) (Hint : Forall int64 seq) :
  match seq with
  | [] => ∃ msg, _seq_cleanup seq = Raise (IndexError msg)
  | first :: _ =>
      ∃ cleaned,
        _seq_cleanup seq
        = Ok (cleaned,
              if decide (first = 0%Z) then 0%Z else 1%Z,
              Z.of_nat (length seq `mod` 2))
        ∧ length cleaned = length seq - length seq `mod` 2
        ∧ length cleaned `mod` 2 = 0
        ∧ (∀ i, i < length cleaned →
             cleaned !! i = (λ t, wrap64 (t - first)) <$> seq !! i)
        ∧ Forall int64 cleaned
  end.
Proof.
  destruct seq as [|first rest]; [by eexists|].
  rewrite seq_cleanup_run.
  assert (Hsh : (if bool_decide (first ≠ 0%Z)
                 then shifted (first :: rest) first else first :: rest)
                = shifted (first :: rest) first).
  { case_bool_decide as Hz; [done|].
    assert (first = 0%Z) as -> by (destruct (decide (first = 0%Z)); done).
    by rewrite shifted_id. }
  rewrite Hsh. eexists. split_and!.
  - do 2 f_equal. case_bool_decide; by destruct (decide (first = 0%Z)).
  - rewrite even_prefix_length. unfold shifted. by rewrite length_map.
  - apply even_prefix_even.
  - intros i Hi. rewrite even_prefix_lookup by done.
    unfold shifted. by rewrite list_lookup_fmap.
  - unfold even_prefix, shifted. apply Forall_take, Forall_forall.
    intros t (t' & -> & _)%elem_of_map. apply wrap64_int64.
Qed.

Lemma seq_cleanup_result_witness :
  ∃ cleaned,
    _seq_cleanup [5; 7; 9]%Z = Ok (cleaned, 1%Z, 1%Z)
    ∧ length cleaned = 2.
Proof.
  destruct (seq_cleanup_result [5; 7; 9]%Z
              ltac:(repeat constructor; unfold int64; lia))
    as (cleaned & Hrun & Hlen & _).
  exists cleaned. split; [exact Hrun | exact Hlen].
Defined.

Lemma seq_cleanup_head first rest cleaned fs odd :
  _seq_cleanup (first :: rest) = Ok (cleaned, fs, odd) →
  cleaned = even_prefix cleaned
  ∧ length cleaned `mod` 2 = 0
  ∧ (cleaned = [] ↔ rest = [])
  ∧ (cleaned ≠ [] → cleaned !! 0 = Some 0%Z).
Proof.
  rewrite seq_cleanup_run.
  set (s := if bool_decide (first ≠ 0%Z)
            then shifted (first :: rest) first else first :: rest).
  intros Hrun.
  assert (cleaned = even_prefix s) as ->.
  { by apply (f_equal (λ r, match r with Ok (c, _, _) => c | _ => [] end))
      in Hrun. }
  clear Hrun.
  assert (Hlen : length s = S (length rest)).
  { unfold s, shifted. case_bool_decide; by rewrite ?length_map. }
  assert (Hhead : s !! 0 = Some 0%Z).
  { unfold s, shifted. case_bool_decide as Hz; cbn [map lookup list_lookup].
    - by rewrite wrap64_diag.
    - f_equal. by destruct (decide (first = 0%Z)). }
  pose proof (even_prefix_even s) as Heven.
  split_and!.
  - by rewrite (even_prefix_id (even_prefix s)).
  - done.
  - rewrite even_prefix_nil, Hlen.
    destruct rest; cbn [length]; split; try done; lia.
  - intros Hne. rewrite even_prefix_lookup; [done|].
    destruct (even_prefix s); [done | cbn [length]; lia].
Qed.

(** X7.  Cleaning is idempotent: a cleaned array that is not empty is
    returned as it is, with both flags 0.  The cleaned array is empty
    exactly when the input had one timestamp, and cleaning it again
    raises [IndexError]. *)
Theorem seq_cleanup_idempotent (seq cleaned : list Z) (false_start odd : Z)
    (Hrun : _seq_cleanup seq = Ok (cleaned, false_start, odd)) :
  (cleaned = [] ↔ length seq = 1)
  ∧ match cleaned with
    | [] => ∃ msg, _seq_cleanup cleaned = Raise (IndexError msg)
    | _ :: _ => _seq_cleanup cleaned = Ok (cleaned, 0%Z, 0%Z)
    end.
Proof.
  destruct seq as [|first rest]; [done|].
  destruct (seq_cleanup_head _ _ _ _ _ Hrun) as (Hid & Heven & Hnil & Hhead).
  split.
  - rewrite Hnil. destruct rest; cbn [length]; split; try done; lia.
  - destruct cleaned as [|c cleaned]; [by eexists|].
    specialize (Hhead ltac:(done)). injection Hhead as ->.
    rewrite seq_cleanup_run. rewrite bool_decide_eq_false_2 by lia.
    by rewrite Heven, <- Hid.
Qed.

Lemma seq_cleanup_idempotent_witness :
  _seq_cleanup [0; 2]%Z = Ok ([0; 2]%Z, 0%Z, 0%Z).
Proof.
  exact (proj2 (seq_cleanup_idempotent [5; 7; 9]%Z [0; 2]%Z 1%Z 1%Z eq_refl)).
Defined.

(** X8.  On timestamps that are not negative the shift is exact: the
    cleaned array holds the offsets from the first timestamp, so the time
    between any two kept keystrokes is what it was. *)
Theorem seq_cleanup_exact (first : Z) (rest : list Z)
    (Hpos : Forall (λ t, 0 ≤ t < 2 ^ 63)%Z (first :: rest)) :
  ∃ false_start odd,
    _seq_cleanup (first :: rest)
    = Ok (map (λ t, t - first)%Z (even_prefix (first :: rest)),
          false_start, odd).
Proof.
  rewrite seq_cleanup_run. do 2 eexists. do 2 f_equal.
  assert (Hsh : (if bool_decide (first ≠ 0%Z)
                 then shifted (first :: rest) first else first :: rest)
                = map (λ t, t - first)%Z (first :: rest)).
  { assert (Hexact : shifted (first :: rest) first
                     = map (λ t, t - first)%Z (first :: rest)).
    { unfold shifted. apply map_ext_Forall.
      apply Forall_cons in Hpos as [Hf Hr].
      assert (Hall : Forall (λ t, 0 ≤ t < 2 ^ 63)%Z (first :: rest))
        by by constructor.
      eapply Forall_impl; [exact Hall|]. intros t Ht. cbn beta in *.
      apply wrap64_exact. unfold int64. lia. }
    case_bool_decide as Hz; [done|].
    assert (first = 0%Z) as -> by (destruct (decide (first = 0%Z)); done).
    rewrite <- (map_id (0%Z :: rest)) at 1. apply map_ext. intros t. lia. }
  rewrite Hsh. unfold even_prefix. by rewrite length_map, firstn_map.
Qed.

Lemma seq_cleanup_exact_witness :
  ∃ false_start odd,
    _seq_cleanup [100; 190; 250; 400]%Z
    = Ok ([0; 90; 150; 300]%Z, false_start, odd).
Proof.
  apply (seq_cleanup_exact 100 [190; 250; 400]%Z).
  repeat (apply List.Forall_cons; [cbn beta; lia|]). apply List.Forall_nil.
Defined.

(** * Appending a row to a frame *)

Lemma insert_sorted_perm s l : insert_sorted s l ≡ₚ s :: l.
Proof.
  induction l as [|s' l IH]; cbn [insert_sorted]; [done|].
  destruct (String.leb s s'); [done|]. rewrite IH. apply Permutation_swap.
Qed.

Lemma sorted_perm l : sorted l ≡ₚ l.
Proof.
  unfold sorted. induction l as [|s l IH]; cbn [foldr]; [done|].
  by rewrite insert_sorted_perm, IH.
Qed.

Lemma elem_of_sorted x l : x ∈ sorted l ↔ x ∈ l.
Proof. by rewrite sorted_perm. Qed.

Lemma cell_at_map {A} (g : A → cell) (l : list A) p x :
  l !! p = Some x → cell_at (map g l) p = g x.
Proof.
  intros Hp. unfold cell_at.
  change (map g l) with (g <$> l). by rewrite list_lookup_fmap, Hp.
Qed.

Lemma elem_of_df_append_columns s df row c :
  c ∈ columns (df_append s df row) ↔ c ∈ columns df ∨ c ∈ map fst row.
Proof.
  unfold df_append. cbn [columns]. rewrite elem_of_app.
  set (new_labels :=
         List.filter (λ c, bool_decide (c ∉ columns df)) (map fst row)).
  assert (Hnew : c ∈ (if s then sorted new_labels else new_labels)
                 ↔ (c ∉ columns df) ∧ c ∈ map fst row).
  { unfold new_labels.
    destruct s; rewrite ?elem_of_sorted, !list_elem_of_In, filter_In,
      <- !list_elem_of_In, bool_decide_eq_true; tauto. }
  rewrite Hnew. destruct (decide (c ∈ columns df)); tauto.
Qed.

Lemma getitem_df_append s df row c :
  c ∈ columns df ∨ c ∈ map fst row →
  getitem (df_append s df row) c
  = Ok (column_or_NaN df c ++ [default NaN (row_get row c)]).
Proof.
  intros Hc. apply (elem_of_df_append_columns s) in Hc.
  unfold getitem. destruct (col_index_elem_of _ _ Hc) as [p Hp]. rewrite Hp.
  apply col_index_Some in Hp. revert Hp. unfold df_append. cbn [columns rows].
  set (combined := columns df ++ _). intros Hp.
  rewrite map_app. cbn [map]. f_equal. f_equal.
  - unfold reindex, column_or_NaN. rewrite map_map.
    destruct (col_index c (columns df)) as [q|] eqn:Hq;
      apply map_ext; intros r;
      by rewrite (cell_at_map _ combined p c Hp), Hq.
  - by rewrite (cell_at_map _ combined p c Hp).
Qed.

Lemma df_append_rows_length s df row :
  length (rows (df_append s df row)) = S (length (rows df)).
Proof.
  unfold df_append, reindex. cbn [rows].
  rewrite length_app, length_map. cbn [length]. lia.
Qed.

(** * Splitting a string *)

Lemma split_length sep s : 1 ≤ length (split sep s).
Proof.
  induction s as [|c s IH]; cbn [split length]; [done|].
  destruct (decide (c = sep)); cbn [length]; [lia|].
  destruct (split sep s); cbn [length] in *; lia.
Qed.

Lemma split_no_separator sep s :
  length (split sep s) = 1 ↔ contains (String sep EmptyString) s = false.
Proof.
  induction s as [|c s IH]; cbn [split contains String.prefix]; [done|].
  pose proof (split_length sep s) as Hlen.
  destruct (decide (c = sep)) as [->|Hne].
  - destruct (ascii_dec sep sep); [|done]. cbn [length].
    assert (String.prefix EmptyString s = true) as -> by by destruct s.
    cbn [orb]. split; [lia | done].
  - destruct (ascii_dec sep c) as [->|_]; [done|]. cbn [orb].
    rewrite <- IH. destruct (split sep s); cbn [length] in *; [lia | done].
Qed.

(** Membership in a list that is written out. *)
Ltac in_labels :=
  cbv [sequence_labels];
  repeat first [apply list_elem_of_here | apply list_elem_of_further].

(** * The columns of a frame after appending rows *)

Lemma getitem_column_or_NaN df c :
  c ∈ columns df → getitem df c = Ok (column_or_NaN df c).
Proof.
  intros [p Hp]%col_index_elem_of. unfold getitem, column_or_NaN. by rewrite Hp.
Qed.

Lemma column_or_NaN_df_append s df row c :
  c ∈ columns df ∨ c ∈ map fst row →
  column_or_NaN (df_append s df row) c
  = column_or_NaN df c ++ [default NaN (row_get row c)].
Proof.
  intros Hc. pose proof (getitem_df_append s df row c Hc) as Hget.
  rewrite getitem_column_or_NaN in Hget
    by by apply elem_of_df_append_columns.
  congruence.
Qed.

Lemma getitem_foldl_df_append s df records c :
  c ∈ columns df
  ∨ (records ≠ [] ∧ ∀ row, row ∈ records → c ∈ map fst row) →
  getitem (foldl (df_append s) df records) c
  = Ok (column_or_NaN df c
        ++ map (λ row, default NaN (row_get row c)) records).
Proof.
  revert df. induction records as [|row records IH]; intros df Hc.
  - destruct Hc as [Hc|[? _]]; [|done]. cbn [foldl map].
    rewrite app_nil_r. by apply getitem_column_or_NaN.
  - assert (Hrow : c ∈ columns df ∨ c ∈ map fst row).
    { destruct Hc as [Hc|[_ Hc]]; [by left | right]. apply Hc. by left. }
    cbn [foldl map]. rewrite IH.
    + rewrite column_or_NaN_df_append by done. by rewrite <- app_assoc.
    + left. by apply elem_of_df_append_columns.
Qed.

Lemma foldl_df_append_rows_length s df records :
  length (rows (foldl (df_append s) df records))
  = length (rows df) + length records.
Proof.
  revert df. induction records as [|row records IH]; intros df;
    cbn [foldl length]; [lia|].
  rewrite IH, df_append_rows_length. lia.
Qed.

Lemma record_of_labels self reg imp succ ts :
  ts ≠ [] →
  map fst (record_of self reg imp succ ts) = sequence_labels false.
Proof.
  intros Hne. destruct ts as [|first rest]; [done|].
  unfold record_of. by rewrite seq_cleanup_run.
Qed.

Lemma record_of_cleaned self reg imp succ ts :
  ts ≠ [] →
  ∃ false_start odd,
    record_of self reg imp succ ts
    = DF_sequences_row self reg imp succ (cleaned ts) false_start odd.
Proof.
  intros Hne. destruct ts as [|first rest]; [done|].
  unfold record_of, cleaned. rewrite seq_cleanup_run. by do 2 eexists.
Qed.

(** * The methods of [UserData] *)

Lemma U_bind_run {A B} (m : U A) (k : A → U B) (self : UserData) :
  (m ≫= k) self =
  match m self with
  | (Done a, self') => k a self'
  | (Fail e, self') => (Fail e, self')
  end.
Proof. reflexivity. Qed.

Section ReadDataFacts.

Variable sort_new_labels : bool.
Variable int : string → result Z.
Variable fs : file_system.

Lemma append_one_row_run reg imp succ seq self :
  _append_one_row_to_DF_sequences sort_new_labels reg imp succ seq self
  = match _seq_cleanup seq with
    | Raise e => (Fail (Exn e), self)
    | Ok (seq, false_start, odd) =>
        if decide (succ = "y") then
          (Done tt,
           mkUserData (user_name self) (dataset self) (reg_data self)
             (df_append sort_new_labels (DF_sequences self)
                (DF_sequences_row self reg imp 1 seq false_start odd)))
        else if decide (succ = "n") then
          (Done tt,
           mkUserData (user_name self) (dataset self) (reg_data self)
             (df_append sort_new_labels (DF_sequences self)
                (DF_sequences_row self reg imp 0 seq false_start odd)))
        else (Fail (Exn (KeyError succ)), self)
    end.
Proof.
  unfold _append_one_row_to_DF_sequences. rewrite U_bind_run.
  unfold U_lift at 1. destruct (_seq_cleanup seq) as [[[cl fst_] odd_]|e];
    cbn [of_result]; [|done].
  rewrite U_bind_run. unfold U_lift at 1.
  destruct (decide (succ = "y")); [done|].
  by destruct (decide (succ = "n")).
Qed.

(** X9.  [_append_one_row_to_DF_sequences]: the sequence is cleaned first,
    so an empty one raises [IndexError] whatever [succ] is; then a [succ]
    other than 'y' and 'n' raises [KeyError]; in both cases [self] is left
    as it was.  Otherwise the frame gets exactly one more row: every column
    it had keeps its cells, and the new row holds the values of the dict
    ([NaN] under a label the dict lacks). *)
Theorem append_one_row_outcome (reg imp : Z) (succ : string) (seq : list Z)
    (self : UserData) :
  let run :=
    _append_one_row_to_DF_sequences sort_new_labels reg imp succ seq self in
  (seq = [] → ∃ msg, run = (Fail (Exn (IndexError msg)), self))
  ∧ (seq ≠ [] → succ ≠ "y" → succ ≠ "n" →
     run = (Fail (Exn (KeyError succ)), self))
  ∧ (∀ v, seq ≠ [] → (succ = "y" ∧ v = 1%Z) ∨ (succ = "n" ∧ v = 0%Z) →
     ∃ self',
       run = (Done tt, self')
       ∧ user_name self' = user_name self
       ∧ dataset self' = dataset self
       ∧ length (rows (DF_sequences self'))
         = S (length (rows (DF_sequences self)))
       ∧ ∀ c, c ∈ columns (DF_sequences self)
              ∨ c ∈ sequence_labels false →
           getitem (DF_sequences self') c
           = Ok (column_or_NaN (DF_sequences self) c
                 ++ [default NaN (row_get (record_of self reg imp v seq) c)])).
Proof.
  intros run. unfold run. rewrite append_one_row_run. split_and!.
  - intros ->. by eexists.
  - intros Hne Hy Hn. destruct seq as [|first rest]; [done|].
    rewrite seq_cleanup_run. by rewrite !decide_False.
  - intros v Hne Hsucc. destruct seq as [|first rest]; [done|].
    unfold record_of. rewrite seq_cleanup_run.
    set (cl := even_prefix _). set (fst_ := if bool_decide _ then _ else _).
    set (odd_ := Z.of_nat _).
    assert (Hrow : ∀ c (row := DF_sequences_row self reg imp v cl fst_ odd_),
      c ∈ columns (DF_sequences self) ∨ c ∈ sequence_labels false →
      getitem (df_append sort_new_labels (DF_sequences self) row) c
      = Ok (column_or_NaN (DF_sequences self) c
            ++ [default NaN (row_get row c)])).
    { intros c row Hc. by apply getitem_df_append. }
    destruct Hsucc as [[-> ->]|[-> ->]].
    + rewrite decide_True by done. eexists. split_and!; try done.
      cbn [DF_sequences]. apply df_append_rows_length.
    + rewrite decide_False, decide_True by done.
      eexists. split_and!; try done.
      cbn [DF_sequences]. apply df_append_rows_length.
Qed.

(** ** Reading the lines of a file *)

Lemma read_timestamps_ok lines data :
  read_timestamps int lines = Ok data →
  Forall (λ ts, 2 ≤ length ts) data
  ∧ length data = length (List.filter has_comma lines).
Proof.
  revert data. induction lines as [|line lines IH]; intros data.
  - intros [= <-]. by split.
  - cbn [read_timestamps List.filter].
    pose proof (split_length "," line) as Hlen.
    pose proof (split_no_separator "," line) as Hsep.
    fold (has_comma line) in Hsep.
    case_bool_decide as Hone.
    + apply Hsep in Hone. rewrite Hone. apply IH.
    + destruct (has_comma line); [|by exfalso; apply Hone, Hsep].
      intros (ts & Hts & Hrest)%rbind_ok.
      apply rbind_ok in Hrest as (rest & Hrest & [= <-]).
      destruct (IH rest Hrest) as [Hall Hcount].
      apply mapM_length in Hts. split.
      * constructor; [lia | done].
      * cbn [length]. by rewrite Hcount.
Qed.

(** ** Appending the rows of a registration file *)

Lemma appended_nil self : appended sort_new_labels self [] = self.
Proof. by destruct self. Qed.

Lemma appended_cons self record records :
  appended sort_new_labels self (record :: records)
  = appended sort_new_labels (appended sort_new_labels self [record]) records.
Proof. reflexivity. Qed.

Lemma appended_app self records records' :
  appended sort_new_labels self (records ++ records')
  = appended sort_new_labels (appended sort_new_labels self records) records'.
Proof.
  unfold appended. cbn [user_name dataset reg_data DF_sequences].
  by rewrite foldl_app.
Qed.

Lemma record_of_appended self records reg imp succ ts :
  record_of (appended sort_new_labels self records) reg imp succ ts
  = record_of self reg imp succ ts.
Proof. reflexivity. Qed.

Lemma append_one_row_ok reg imp succ v ts self :
  ts ≠ [] → (succ = "y" ∧ v = 1%Z) ∨ (succ = "n" ∧ v = 0%Z) →
  _append_one_row_to_DF_sequences sort_new_labels reg imp succ ts self
  = (Done tt, appended sort_new_labels self [record_of self reg imp v ts]).
Proof.
  intros Hne Hsucc. rewrite append_one_row_run. unfold record_of.
  destruct ts as [|first rest]; [done|]. rewrite seq_cleanup_run.
  destruct Hsucc as [[-> ->]|[-> ->]].
  - by rewrite decide_True.
  - by rewrite decide_False, decide_True.
Qed.

Lemma append_rows_run data self :
  Forall (λ ts, 2 ≤ length ts) data →
  mapM (_append_one_row_to_DF_sequences sort_new_labels 1 0 "y") data self
  = (Done (map (λ _, tt) data),
     appended sort_new_labels self (map (record_of self 1 0 1) data)).
Proof.
  intros Hdata. revert self.
  induction Hdata as [|ts data Hts _ IH]; intros self.
  - cbn [mapM map]. by rewrite appended_nil.
  - cbn [mapM map]. rewrite U_bind_run.
    rewrite (append_one_row_ok 1 0 "y" 1%Z);
      [| intros ->; cbn [length] in Hts; lia | by left].
    rewrite U_bind_run, IH. reflexivity.
Qed.

(** ** [add_file], case by case *)

Lemma add_file_run filename self :
  add_file sort_new_labels int fs filename self
  = match st_size fs filename with
    | Fail e => (Fail e, self)
    | Done size =>
    if bool_decide (size = 0) then (Done tt, self) else
    match open_lines fs filename with
    | Fail e => (Fail e, self)
    | Done (lines, stopped) =>
    match read_timestamps int lines with
    | Raise e => (Fail (Exn e), self)
    | Ok one_file_data =>
    match stopped with
    | Some e => (Fail e, self)
    | None =>
    if contains "[]" filename then
      (Done tt,
       appended sort_new_labels self
         (map (record_of self 1 0 1) one_file_data))
    else
    match one_file_data with
    | [ts] =>
      match list_getitem (split "_" filename) 1 with
      | Raise e => (Fail (Exn e), self)
      | Ok c1 =>
      match int c1 with
      | Raise e => (Fail (Exn e), self)
      | Ok imposter =>
      match list_getitem (split "_" filename) 2 with
      | Raise e => (Fail (Exn e), self)
      | Ok c2 =>
      match list_getitem (split "." c2) 0 with
      | Raise e => (Fail (Exn e), self)
      | Ok success =>
        _append_one_row_to_DF_sequences sort_new_labels 0 imposter success
          ts self
      end end end end
    | _ => (Fail AssertionError, self)
    end end end end end.
Proof.
  unfold add_file. rewrite U_bind_run. unfold U_lift at 1.
  destruct (st_size fs filename) as [size|e]; [|done].
  case_bool_decide; [done|].
  rewrite U_bind_run. unfold U_lift at 1.
  destruct (open_lines fs filename) as [[lines stopped]|e]; [|done].
  rewrite U_bind_run. unfold U_lift at 1.
  destruct (read_timestamps int lines) as [data|e] eqn:Hdata;
    cbn [of_result]; [|done].
  rewrite U_bind_run.
  destruct stopped as [e|]; [done|].
  change ((mret tt : U unit) self) with (Done tt, self).
  destruct (contains "[]" filename).
  - destruct (read_timestamps_ok _ _ Hdata) as [Hall _].
    rewrite U_bind_run, (append_rows_run data self Hall). reflexivity.
  - destruct data as [|ts [|ts' data]]; [done | | done].
    rewrite bool_decide_eq_true_2 by done.
    rewrite U_bind_run. unfold U_lift at 1.
    destruct (list_getitem (split "_" filename) 1) as [c1|e];
      cbn [of_result]; [|done].
    rewrite U_bind_run. unfold U_lift at 1.
    destruct (int c1) as [imposter|e]; cbn [of_result]; [|done].
    rewrite U_bind_run. unfold U_lift at 1.
    destruct (list_getitem (split "_" filename) 2) as [c2|e];
      cbn [of_result]; [|done].
    rewrite U_bind_run. unfold U_lift at 1.
    destruct (list_getitem (split "." c2) 0) as [success|e];
      cbn [of_result]; [|done].
    rewrite U_bind_run. reflexivity.
Qed.

Lemma list_getitem_ok {A} (l : list A) i x :
  list_getitem l i = Ok x ↔ l !! i = Some x.
Proof. unfold list_getitem. destruct (l !! i); split; congruence. Qed.

(** The stages of [add_file] on a file that is not a registration file,
    when it returns. *)
Lemma add_file_test_file_done filename self self' size lines one_file_data :
  contains "[]" filename = false →
  st_size fs filename = Done size → size ≠ 0 →
  open_lines fs filename = Done (lines, None) →
  read_timestamps int lines = Ok one_file_data →
  add_file sort_new_labels int fs filename self = (Done tt, self') →
  ∃ ts c1 c2 imposter success v,
    one_file_data = [ts]
    ∧ split "_" filename !! 1 = Some c1
    ∧ int c1 = Ok imposter
    ∧ split "_" filename !! 2 = Some c2
    ∧ split "." c2 !! 0 = Some success
    ∧ ((success = "y" ∧ v = 1%Z) ∨ (success = "n" ∧ v = 0%Z))
    ∧ self' = appended sort_new_labels self [record_of self 0 imposter v ts].
Proof.
  intros Hname Hsize Hne Hopen Hdata. rewrite add_file_run.
  rewrite Hsize, bool_decide_eq_false_2, Hopen, Hdata, Hname by done.
  destruct (read_timestamps_ok _ _ Hdata) as [Hall _].
  destruct one_file_data as [|ts [|ts' data]]; [done | | done].
  apply Forall_cons in Hall as [Hts _].
  destruct (list_getitem (split "_" filename) 1) as [c1|e] eqn:Hc1; [|done].
  destruct (int c1) as [imposter|e] eqn:Himp; [|done].
  destruct (list_getitem (split "_" filename) 2) as [c2|e] eqn:Hc2; [|done].
  destruct (list_getitem (split "." c2) 0) as [success|e] eqn:Hsucc; [|done].
  apply list_getitem_ok in Hc1, Hc2, Hsucc.
  assert (Hts' : ts ≠ []) by (intros ->; cbn [length] in Hts; lia).
  destruct (decide (success = "y")) as [->|Hy].
  { rewrite (append_one_row_ok 0 imposter "y" 1%Z) by (done || by left).
    intros Heq. apply (f_equal snd) in Heq. cbn [snd] in Heq.
    exists ts, c1, c2, imposter, "y", 1%Z.
    split_and!; [done.. | by left | done]. }
  destruct (decide (success = "n")) as [->|Hn].
  { rewrite (append_one_row_ok 0 imposter "n" 0%Z) by (done || by right).
    intros Heq. apply (f_equal snd) in Heq. cbn [snd] in Heq.
    exists ts, c1, c2, imposter, "n", 0%Z.
    split_and!; [done.. | by right | done]. }
  rewrite append_one_row_run. destruct ts as [|first rest]; [done|].
  rewrite seq_cleanup_run. by rewrite !decide_False.
Qed.

(** X10.  Whatever the file, [add_file] changes [self] only by appending
    rows to [self.DF_sequences], and every row it appends is a row of a
    sequence record of this user.  It appends nothing when it raises and
    nothing for a file of size 0, and at most one row for a file whose name
    does not contain "[]". *)
Theorem add_file_appends (filename : string) (self : UserData) :
  let run := add_file sort_new_labels int fs filename self in
  ∃ records,
    run.2 = appended sort_new_labels self records
    ∧ Forall (sequence_record self) records
    ∧ (∀ e, run.1 = Fail e → records = [])
    ∧ (st_size fs filename = Done 0 → run.1 = Done tt ∧ records = [])
    ∧ (contains "[]" filename = false → length records ≤ 1).
Proof.
  intros run. unfold run. rewrite add_file_run.
  assert (Hnone : ∀ (r : outcome unit),
    (st_size fs filename = Done 0 → r = Done tt) →
    ∃ records,
      (r, self).2 = appended sort_new_labels self records
      ∧ Forall (sequence_record self) records
      ∧ (∀ e, (r, self).1 = Fail e → records = [])
      ∧ (st_size fs filename = Done 0 → (r, self).1 = Done tt ∧ records = [])
      ∧ (contains "[]" filename = false → length records ≤ 1)).
  { intros r Hr. exists []. rewrite appended_nil. split_and!; try done.
    - intros Hz. by split; [apply Hr|].
    - cbn [length]. lia. }
  destruct (st_size fs filename) as [size|e] eqn:Hsize; [|by apply Hnone].
  case_bool_decide as Hzero; [by apply Hnone|].
  assert (Hnz : @Done nat size ≠ Done 0) by congruence.
  destruct (open_lines fs filename) as [[lines stopped]|e];
    [|by apply Hnone].
  destruct (read_timestamps int lines) as [data|e] eqn:Hdata;
    [|by apply Hnone].
  destruct stopped as [e|]; [by apply Hnone|].
  destruct (read_timestamps_ok _ _ Hdata) as [Hall _].
  destruct (contains "[]" filename).
  - exists (map (record_of self 1 0 1) data). split_and!; try done.
    apply Forall_forall. intros record (ts & -> & Hts)%elem_of_map.
    rewrite Forall_forall in Hall.
    exists 1%Z, 0%Z, 1%Z, ts.
    split_and!; [done | by apply Hall | by right | by left].
  - destruct data as [|ts [|ts' data]]; [by apply Hnone | | by apply Hnone].
    apply Forall_cons in Hall as [Hts _].
    destruct (list_getitem (split "_" filename) 1) as [c1|e];
      [|by apply Hnone].
    destruct (int c1) as [imposter|e]; [|by apply Hnone].
    destruct (list_getitem (split "_" filename) 2) as [c2|e];
      [|by apply Hnone].
    destruct (list_getitem (split "." c2) 0) as [success|e];
      [|by apply Hnone].
    rewrite append_one_row_run.
    destruct ts as [|first rest]; [cbn [length] in Hts; lia|].
    assert (Hrec : ∀ v, (v = 0 ∨ v = 1)%Z →
      ∃ records,
        appended sort_new_labels self
          [record_of self 0 imposter v (first :: rest)]
        = appended sort_new_labels self records
        ∧ Forall (sequence_record self) records
        ∧ length records ≤ 1).
    { intros v Hv. eexists. split_and!; [done | | done].
      constructor; [|done]. exists 0%Z, imposter, v, (first :: rest).
      split_and!; [done | done | done | by right]. }
    unfold record_of in Hrec. rewrite seq_cleanup_run in *.
    destruct (decide (success = "y")).
    { destruct (Hrec 1%Z ltac:(by right)) as (records & Heq & Hok & Hlen).
      exists records. split_and!; try done. }
    destruct (decide (success = "n")); [|by apply Hnone].
    destruct (Hrec 0%Z ltac:(by left)) as (records & Heq & Hok & Hlen).
    exists records. split_and!; try done.
Qed.

Lemma map_ext_Forall_in {A B} (g h : A → B) (P : A → Prop) l :
  Forall P l → (∀ x, P x → g x = h x) → map g l = map h l.
Proof.
  intros Hl Hgh. apply map_ext_Forall. eapply Forall_impl; [exact Hl|].
  intros x Hx. by apply Hgh.
Qed.

(** X11.  A registration file (its name contains "[]") that is not empty
    and whose lines all parse: [add_file] returns, and appends one row for
    each line that has a comma, in order.  Each of these rows has
    registration 1, imposter 0, success 1, the user's name, and the cleaned
    sequence of its line. *)
Theorem add_file_registration (filename : string) (self : UserData)
    (size : nat) (lines : list string) (one_file_data : list (list Z))
    (Hname : contains "[]" filename = true)
    (Hsize : st_size fs filename = Done size) (Hnz : size ≠ 0)
    (Hopen : open_lines fs filename = Done (lines, None))
    (Hdata : read_timestamps int lines = Ok one_file_data) :
  ∃ self',
    add_file sort_new_labels int fs filename self = (Done tt, self')
    ∧ user_name self' = user_name self
    ∧ dataset self' = dataset self
    ∧ length one_file_data = length (List.filter has_comma lines)
    ∧ length (rows (DF_sequences self'))
      = length (rows (DF_sequences self)) + length one_file_data
    ∧ (one_file_data ≠ [] →
       let old := column_or_NaN (DF_sequences self) in
       let new := getitem (DF_sequences self') in
       new "registration"
       = Ok (old "registration" ++ map (λ _, Num 1) one_file_data)
       ∧ new "imposter"
         = Ok (old "imposter" ++ map (λ _, Num 0) one_file_data)
       ∧ new "success" = Ok (old "success" ++ map (λ _, Num 1) one_file_data)
       ∧ new "user_name"
         = Ok (old "user_name"
               ++ map (λ _, Str (user_name self)) one_file_data)
       ∧ new "sequence"
         = Ok (old "sequence" ++ map (λ ts, Seq (cleaned ts)) one_file_data)).
Proof.
  destruct (read_timestamps_ok _ _ Hdata) as [Hall Hcount].
  rewrite add_file_run.
  rewrite Hsize, bool_decide_eq_false_2, Hopen, Hdata, Hname by done.
  eexists. split_and!; [done | done | done | done | |].
  - cbn [appended DF_sequences].
    by rewrite foldl_df_append_rows_length, length_map.
  - intros Hne old new. unfold new, old. cbn [appended DF_sequences].
    assert (Hget : ∀ c, c ∈ sequence_labels false →
      getitem (foldl (df_append sort_new_labels) (DF_sequences self)
                 (map (record_of self 1 0 1) one_file_data)) c
      = Ok (column_or_NaN (DF_sequences self) c
            ++ map (λ ts, default NaN (row_get (record_of self 1 0 1 ts) c))
                 one_file_data)).
    { intros c Hc. rewrite getitem_foldl_df_append, map_map; [done|].
      right. split; [by destruct one_file_data|].
      intros row (ts & -> & Hts)%elem_of_map.
      rewrite record_of_labels; [done|].
      rewrite Forall_forall in Hall. specialize (Hall ts Hts).
      intros ->. cbn [length] in Hall. lia. }
    assert (Hrow : ∀ c v, (∀ ts, ts ≠ [] →
                       row_get (record_of self 1 0 1 ts) c = Some (v ts)) →
      map (λ ts, default NaN (row_get (record_of self 1 0 1 ts) c))
        one_file_data = map v one_file_data).
    { intros c v Hv. apply (map_ext_Forall_in _ _ _ _ Hall).
      intros ts Hts. rewrite Hv; [done|].
      intros ->. cbn [length] in Hts. lia. }
    assert (Hrec : ∀ ts, ts ≠ [] → ∃ false_start odd,
      record_of self 1 0 1 ts
      = DF_sequences_row self 1 0 1 (cleaned ts) false_start odd)
      by (intros ts; apply record_of_cleaned).
    split_and!.
    + rewrite Hget by in_labels.
      f_equal. f_equal. apply Hrow. intros ts Hts.
      by destruct (Hrec ts Hts) as (? & ? & ->).
    + rewrite Hget by in_labels.
      f_equal. f_equal. apply Hrow. intros ts Hts.
      by destruct (Hrec ts Hts) as (? & ? & ->).
    + rewrite Hget by in_labels.
      f_equal. f_equal. apply Hrow. intros ts Hts.
      by destruct (Hrec ts Hts) as (? & ? & ->).
    + rewrite Hget by in_labels.
      f_equal. f_equal. apply Hrow. intros ts Hts.
      by destruct (Hrec ts Hts) as (? & ? & ->).
    + rewrite Hget by in_labels.
      f_equal. f_equal. apply (Hrow _ (λ ts, Seq (cleaned ts))). intros ts Hts.
      by destruct (Hrec ts Hts) as (? & ? & ->).
Qed.

(** X12.  A file that is not a registration file, is not empty and whose
    lines all parse.  Unless exactly one line has a comma, [add_file] raises
    [AssertionError]; if the file name, directories included, has fewer than
    three parts between underscores, it fails too; in both cases [self] is
    left as it was.  When [add_file] returns, it has appended one row with
    registration 0, the imposter flag read from the second part of the name
    and the success flag from the letter that starts the third part ('y'
    is 1, 'n' is 0). *)
Theorem add_file_test_file (filename : string) (self : UserData)
    (size : nat) (lines : list string) (one_file_data : list (list Z))
    (Hname : contains "[]" filename = false)
    (Hsize : st_size fs filename = Done size) (Hnz : size ≠ 0)
    (Hopen : open_lines fs filename = Done (lines, None))
    (Hdata : read_timestamps int lines = Ok one_file_data) :
  let run := add_file sort_new_labels int fs filename self in
  (length (List.filter has_comma lines) ≠ 1 →
   run = (Fail AssertionError, self))
  ∧ (length (split "_" filename) < 3 → ∃ e, run = (Fail e, self))
  ∧ (∀ self', run = (Done tt, self') →
     ∃ ts c1 c2 imposter success v,
       one_file_data = [ts]
       ∧ split "_" filename !! 1 = Some c1
       ∧ int c1 = Ok imposter
       ∧ split "_" filename !! 2 = Some c2
       ∧ split "." c2 !! 0 = Some success
       ∧ ((success = "y" ∧ v = 1%Z) ∨ (success = "n" ∧ v = 0%Z))
       ∧ self'
         = appended sort_new_labels self [record_of self 0 imposter v ts]
       ∧ let old := column_or_NaN (DF_sequences self) in
         let new := getitem (DF_sequences self') in
         new "registration" = Ok (old "registration" ++ [Num 0])
         ∧ new "imposter" = Ok (old "imposter" ++ [Num imposter])
         ∧ new "success" = Ok (old "success" ++ [Num v])
         ∧ new "sequence" = Ok (old "sequence" ++ [Seq (cleaned ts)])).
Proof.
  intros run. destruct (read_timestamps_ok _ _ Hdata) as [Hall Hcount].
  split_and!.
  - intros Hlines. unfold run. rewrite add_file_run.
    rewrite Hsize, bool_decide_eq_false_2, Hopen, Hdata, Hname by done.
    rewrite <- Hcount in Hlines.
    by destruct one_file_data as [|ts [|ts' data]].
  - intros Hparts. unfold run. rewrite add_file_run.
    rewrite Hsize, bool_decide_eq_false_2, Hopen, Hdata, Hname by done.
    destruct one_file_data as [|ts [|ts' data]]; [by eexists | | by eexists].
    destruct (list_getitem (split "_" filename) 1) as [c1|e];
      [|by eexists].
    destruct (int c1) as [imposter|e]; [|by eexists].
    destruct (list_getitem (split "_" filename) 2) as [c2|e] eqn:Hc2;
      [|by eexists].
    apply list_getitem_ok, lookup_lt_Some in Hc2. lia.
  - intros self' Hrun.
    destruct (add_file_test_file_done _ _ _ _ _ _ Hname Hsize Hnz Hopen Hdata
                Hrun)
      as (ts & c1 & c2 & imposter & success & v
          & -> & Hc1 & Himp & Hc2 & Hsucc & Hv & ->).
    exists ts, c1, c2, imposter, success, v.
    split_and!; [done.. |].
    intros old new. unfold old, new. cbn [appended DF_sequences].
    apply Forall_cons in Hall as [Hts _].
    assert (Hne : ts ≠ []) by (intros ->; cbn [length] in Hts; lia).
    destruct (record_of_cleaned self 0 imposter v ts Hne)
      as (false_start & odd & Hrec).
    assert (Hget : ∀ c, c ∈ sequence_labels false →
      getitem (foldl (df_append sort_new_labels) (DF_sequences self)
                 [record_of self 0 imposter v ts]) c
      = Ok (column_or_NaN (DF_sequences self) c
            ++ [default NaN (row_get (record_of self 0 imposter v ts) c)])).
    { intros c Hc. rewrite getitem_foldl_df_append; [done|].
      right. split; [done|]. intros row ->%list_elem_of_singleton.
      by rewrite record_of_labels. }
    rewrite !Hget by in_labels. by rewrite Hrec.
Qed.

End ReadDataFacts.

Lemma add_file_registration_witness :
  ∃ self',
    add_file true int_decimal example_fs "data/DatasetA/u1/reg[].txt"
      (UserData_init "u1" "A") = (Done tt, self')
    ∧ length (rows (DF_sequences self')) = 0 + 2.
Proof.
  destruct (add_file_registration true int_decimal example_fs
              "data/DatasetA/u1/reg[].txt" (UserData_init "u1" "A") 24
              ["0,100,250,300" +:+ newline; "5,105,255" +:+ newline]
              [[0; 100; 250; 300]; [5; 105; 255]]%Z
              eq_refl eq_refl ltac:(lia) eq_refl eq_refl)
    as (self' & Hrun & _ & _ & _ & Hrows & _).
  exists self'. split; [exact Hrun | exact Hrows].
Defined.

Lemma add_file_test_file_witness :
  ∃ self',
    add_file true int_decimal example_fs "data/DatasetA/u1/t_1_n.txt"
      (UserData_init "u1" "A") = (Done tt, self')
    ∧ getitem (DF_sequences self') "imposter" = Ok ([] ++ [Num 1])
    ∧ getitem (DF_sequences self') "success" = Ok ([] ++ [Num 0]).
Proof.
  pose proof (add_file_test_file true int_decimal example_fs
                "data/DatasetA/u1/t_1_n.txt" (UserData_init "u1" "A") 13
                ["0,90,260,310" +:+ newline] [[0; 90; 260; 310]]%Z
                eq_refl eq_refl ltac:(lia) eq_refl eq_refl)
    as (_ & _ & Hdone).
  eexists. split; [vm_compute; reflexivity|].
  destruct (Hdone _ eq_refl)
    as (ts & c1 & c2 & imposter & success & v
        & _ & Hc1 & Himp & Hc2 & Hsucc & Hv & _ & _ & Himposter & Hsuccess & _).
  vm_compute in Hc1. injection Hc1 as <-.
  vm_compute in Himp. injection Himp as <-.
  vm_compute in Hc2. injection Hc2 as <-.
  vm_compute in Hsucc. injection Hsucc as <-.
  destruct Hv as [[Hy _]|[_ ->]]; [discriminate Hy|].
  split; [exact Himposter | exact Hsuccess].
Defined.

(** * Frames of sequence records *)

Lemma reindex_table cols records :
  reindex cols (table cols records) = map (layout cols) records.
Proof.
  unfold reindex, table. cbn [rows columns]. rewrite map_map.
  apply map_ext. intros record. unfold layout at 2.
  apply map_ext_elem_of. intros c Hc.
  destruct (col_index_elem_of _ _ Hc) as [p Hp]. rewrite Hp.
  apply col_index_Some in Hp. unfold layout.
  exact (cell_at_map (λ c, default NaN (row_get record c)) cols p c Hp).
Qed.

Lemma filter_none_elem_of {A} (keep : A → bool) l :
  (∀ x, x ∈ l → keep x = false) → List.filter keep l = [].
Proof.
  induction l as [|x l IH]; intros Hl; cbn [List.filter]; [done|].
  rewrite (Hl x) by left. apply IH. intros y Hy. apply Hl. by right.
Qed.

Lemma sequence_labels_elem_of s c :
  c ∈ sequence_labels s ↔ c ∈ sequence_labels false.
Proof. destruct s; [|done]. unfold sequence_labels. apply elem_of_sorted. Qed.

Lemma sequence_labels_NoDup s : NoDup (sequence_labels s).
Proof. destruct s; apply (bool_decide_unpack (NoDup _)); by vm_compute. Qed.

Lemma df_append_first s row :
  map fst row = sequence_labels false →
  df_append s (mkDF [] []) row = table (sequence_labels s) [row].
Proof.
  intros Hkeys. unfold df_append, table. cbn [columns rows reindex map app].
  rewrite Hkeys. by destruct s.
Qed.

Lemma df_append_table s records row :
  map fst row = sequence_labels false →
  df_append s (table (sequence_labels s) records) row
  = table (sequence_labels s) (records ++ [row]).
Proof.
  intros Hkeys. unfold df_append. cbn [columns table].
  rewrite filter_none_elem_of.
  - assert ((if s then sorted [] else []) = @nil string) as ->
      by by destruct s.
    rewrite app_nil_r.
    change (mkDF (sequence_labels s) (map (layout (sequence_labels s)) records))
      with (table (sequence_labels s) records).
    rewrite reindex_table. unfold table. by rewrite map_app.
  - intros c Hc. rewrite Hkeys in Hc. apply bool_decide_eq_false_2.
    intros Hnot. apply Hnot. by apply sequence_labels_elem_of.
Qed.

Lemma foldl_df_append_table s records records' :
  Forall (λ row, map fst row = sequence_labels false) records' →
  records ≠ [] →
  foldl (df_append s) (table (sequence_labels s) records) records'
  = table (sequence_labels s) (records ++ records').
Proof.
  intros Hkeys. revert records.
  induction Hkeys as [|row records' Hrow _ IH]; intros records Hne;
    cbn [foldl].
  - by rewrite app_nil_r.
  - rewrite df_append_table by done. rewrite IH by (by destruct records).
    by rewrite <- app_assoc.
Qed.

Lemma foldl_df_append_frame_of s records :
  Forall (λ row, map fst row = sequence_labels false) records →
  foldl (df_append s) (mkDF [] []) records = frame_of s records.
Proof.
  intros Hkeys. destruct Hkeys as [|row records Hrow Hkeys]; [done|].
  cbn [foldl frame_of]. rewrite df_append_first by done.
  by rewrite foldl_df_append_table.
Qed.

Lemma frame_of_rows s records :
  rows (frame_of s records) = map (layout (sequence_labels s)) records.
Proof. by destruct records. Qed.

Lemma frame_of_columns s records :
  columns (frame_of s records)
  = match records with [] => [] | _ => sequence_labels s end.
Proof. by destruct records. Qed.

Lemma sequence_labels_ne s : sequence_labels s ≠ [].
Proof. by destruct s. Qed.

Lemma reindex_frame_of s records :
  reindex (sequence_labels s) (frame_of s records)
  = map (layout (sequence_labels s)) records.
Proof. destruct records; [done|]. apply reindex_table. Qed.

Lemma union_step_absorbed (acc cols : list string) :
  (∀ c, c ∈ cols → c ∈ acc) →
  foldl (λ acc c, if bool_decide (c ∈ acc) then acc else acc ++ [c]) acc cols
  = acc.
Proof.
  revert acc. induction cols as [|c cols IH]; intros acc Hsub; cbn [foldl];
    [done|].
  rewrite bool_decide_eq_true_2 by (apply Hsub; left).
  apply IH. intros c' Hc'. apply Hsub. by right.
Qed.

Lemma union_step_fresh (acc cols : list string) :
  NoDup (acc ++ cols) →
  foldl (λ acc c, if bool_decide (c ∈ acc) then acc else acc ++ [c]) acc cols
  = acc ++ cols.
Proof.
  revert acc. induction cols as [|c cols IH]; intros acc Hnd; cbn [foldl].
  - by rewrite app_nil_r.
  - apply NoDup_app in Hnd as Hparts. destruct Hparts as (_ & Hdisj & _).
    rewrite bool_decide_eq_false_2 by (intros Hin; apply (Hdisj c Hin); left).
    rewrite IH; [by rewrite <- app_assoc|]. by rewrite <- app_assoc.
Qed.

Lemma union_columns_frames s acc (frames : list (list (list (string * cell)))) :
  acc = [] ∨ acc = sequence_labels s →
  foldl (λ acc df,
           foldl (λ acc c, if bool_decide (c ∈ acc) then acc else acc ++ [c])
                 acc (columns df))
        acc (map (frame_of s) frames)
  = if bool_decide (acc = [] ∧ Forall (λ records, records = []) frames)
    then [] else sequence_labels s.
Proof.
  revert acc. induction frames as [|records frames IH]; intros acc Hacc;
    cbn [map foldl].
  - destruct Hacc as [->| ->].
    + by rewrite bool_decide_eq_true_2.
    + rewrite bool_decide_eq_false_2; [done|].
      intros [Hnil _]. by apply (sequence_labels_ne s).
  - rewrite frame_of_columns. destruct records as [|row records].
    + cbn [foldl]. rewrite IH by done.
      assert (Hiff : (acc = [] ∧ Forall (λ records : list (list (string * cell)),
                                          records = []) frames)
                     ↔ (acc = [] ∧ Forall (λ records : list (list (string * cell)),
                                            records = []) ([] :: frames))).
      { split.
        - intros [-> Hall]. split; [done|]. by constructor.
        - intros [-> Hall]. split; [done|].
          by apply Forall_cons in Hall as [_ ?]. }
      by rewrite (bool_decide_ext _ _ Hiff).
    + assert (Hstep :
        foldl (λ acc c, if bool_decide (c ∈ acc) then acc else acc ++ [c])
              acc (sequence_labels s) = sequence_labels s).
      { destruct Hacc as [->| ->].
        - rewrite union_step_fresh; [done|]. apply sequence_labels_NoDup.
        - by apply union_step_absorbed. }
      rewrite Hstep, IH by (by right).
      rewrite !bool_decide_eq_false_2; [done | |].
      * intros [_ Hall]. by apply Forall_cons in Hall as [? _].
      * intros [Hnil _]. by apply (sequence_labels_ne s).
Qed.

(** Stacking the frames of several users gives the frame of all their
    records. *)
Lemma pd_concat_frames s (frames : list (list (list (string * cell)))) :
  frames ≠ [] →
  pd_concat (map (frame_of s) frames) = Ok (frame_of s (concat frames)).
Proof.
  intros Hne. destruct frames as [|records0 frames]; [done|]. clear Hne.
  assert (Hrows : concat (map rows (map (frame_of s) (records0 :: frames)))
                  = map (layout (sequence_labels s))
                      (concat (records0 :: frames))).
  { generalize (records0 :: frames). intros l.
    induction l as [|r l IH]; [done|].
    cbn [map concat]. by rewrite map_app, IH, frame_of_rows. }
  assert (Hreindex :
    concat (map (reindex (sequence_labels s))
              (map (frame_of s) (records0 :: frames)))
    = map (layout (sequence_labels s)) (concat (records0 :: frames))).
  { generalize (records0 :: frames). intros l.
    induction l as [|r l IH]; [done|].
    cbn [map concat]. by rewrite map_app, IH, reindex_frame_of. }
  unfold pd_concat.
  change (map (frame_of s) (records0 :: frames))
    with (frame_of s records0 :: map (frame_of s) frames) at 1.
  cbv iota beta.
  destruct (forallb _ _) eqn:Hsame.
  - f_equal. rewrite Hrows. rewrite frame_of_columns.
    destruct records0 as [|row0 records0]; [|done].
    assert (Hall : Forall (λ records, records = []) ([] :: frames)).
    { apply Forall_forall. intros records Hin.
      rewrite forallb_forall in Hsame.
      specialize (Hsame (frame_of s records)
                    ltac:(by apply in_map, list_elem_of_In)).
      apply bool_decide_eq_true in Hsame. rewrite !frame_of_columns in Hsame.
      destruct records; [done|]. by destruct (sequence_labels_ne s). }
    assert (concat ([] :: frames) = []) as ->; [|done].
    clear -Hall. induction Hall as [|r l -> _ IH]; [done|]. by cbn [concat app].
  - cbv zeta. unfold union_columns.
    rewrite (union_columns_frames s []) by (by left).
    assert (Hsome : ¬ Forall (λ records, records = []) (records0 :: frames)).
    { intros Hall. apply not_true_iff_false in Hsame. apply Hsame.
      apply forallb_forall. intros df Hdf%list_elem_of_In.
      apply elem_of_map in Hdf as (records & -> & Hin).
      apply bool_decide_eq_true_2.
      rewrite Forall_forall in Hall.
      rewrite (Hall records Hin), (Hall records0) by left. done. }
    rewrite bool_decide_eq_false_2 by tauto.
    rewrite Hreindex. f_equal.
    destruct (concat (records0 :: frames)) as [|row rest] eqn:Hcat; [|done].
    exfalso. apply Hsome. clear -Hcat.
    revert Hcat. generalize (records0 :: frames). intros l.
    induction l as [|r l IH]; [done|]. cbn [concat].
    intros [-> Hl]%app_eq_nil. constructor; [done|]. by apply IH.
Qed.

Lemma keep_labelled_layout keep cols record :
  keep_labelled keep cols (layout cols record)
  = layout (List.filter keep cols) record.
Proof.
  unfold keep_labelled, layout.
  induction cols as [|c cols IH]; [done|].
  cbn [map zip zip_with List.filter fst].
  destruct (keep c); cbn [map snd]; by rewrite <- IH.
Qed.

Lemma drop_columns_table cols names records :
  (∀ c, c ∈ names → c ∈ cols) →
  drop_columns (table cols records) names
  = Ok (table (List.filter (λ c, bool_decide (c ∉ names)) cols) records).
Proof.
  intros Hnames. unfold drop_columns. cbn [columns rows table].
  rewrite filter_none_elem_of.
  - unfold table. f_equal. f_equal. rewrite map_map. apply map_ext.
    intros record. apply keep_labelled_layout.
  - intros c Hc. apply bool_decide_eq_false_2. intros Hnot.
    by apply Hnot, Hnames.
Qed.

Lemma drop_columns_no_columns c names :
  ∃ msg, drop_columns (mkDF [] []) (c :: names) = Raise (KeyError msg).
Proof.
  unfold drop_columns. cbn [columns List.filter].
  rewrite bool_decide_eq_true_2 by apply not_elem_of_nil. by eexists.
Qed.

(** * Reading all the users *)

Lemma Forall_exists_Forall2 {A B} (P : A → B → Prop) (l : list A) :
  Forall (λ x, ∃ y, P x y) l → ∃ k, Forall2 P l k.
Proof.
  induction 1 as [|x l [y Hy] _ [k Hk]]; [by exists [] |].
  exists (y :: k). by constructor.
Qed.

Section WholeFrame.

Variable sort_new_labels : bool.
Variable int : string → result Z.
Variable fs : file_system.

Lemma sequence_record_keys self record :
  sequence_record self record → map fst record = sequence_labels false.
Proof.
  intros (reg & imp & succ & ts & -> & Hts & _).
  apply record_of_labels. intros ->. cbn [length] in Hts. lia.
Qed.

Lemma add_files_appends filenames self self' :
  add_files sort_new_labels int fs filenames self = Done self' →
  ∃ records,
    self' = appended sort_new_labels self records
    ∧ Forall (sequence_record self) records.
Proof.
  revert self. induction filenames as [|filename filenames IH]; intros self.
  - intros [= <-]. exists []. by rewrite appended_nil.
  - cbn [add_files].
    destruct (add_file_appends sort_new_labels int fs filename self)
      as (records & Hself & Hok & _).
    destruct (add_file sort_new_labels int fs filename self) as [[[]|e] self1];
      [|done].
    cbn [snd] in Hself. subst self1. intros Hrest.
    destruct (IH _ Hrest) as (records' & -> & Hok').
    exists (records ++ records'). split.
    + by rewrite appended_app.
    + apply Forall_app. by split.
Qed.

Lemma dict_setitem_keys d k v :
  map fst (dict_setitem d k v)
  = if bool_decide (k ∈ map fst d) then map fst d else map fst d ++ [k].
Proof.
  induction d as [|[k' v'] d IH]; cbn [dict_setitem map fst]; [done|].
  destruct (decide (k' = k)) as [->|Hne].
  - by rewrite bool_decide_eq_true_2 by left.
  - cbn [map fst]. rewrite IH. case_bool_decide as Hin.
    + by rewrite bool_decide_eq_true_2 by by right.
    + rewrite bool_decide_eq_false_2; [done|].
      intros [?|?]%elem_of_cons; [congruence | done].
Qed.

Lemma dict_setitem_elem_of d k v kv :
  kv ∈ dict_setitem d k v → kv = (k, v) ∨ kv ∈ d.
Proof.
  induction d as [|[k' v'] d IH]; cbn [dict_setitem].
  - intros ->%list_elem_of_singleton. by left.
  - destruct (decide (k' = k)) as [->|Hne].
    + intros [->|?]%elem_of_cons; [by left | right; by right].
    + intros [->|Hin]%elem_of_cons; [right; by left|].
      destruct (IH Hin) as [?|?]; [by left | right; by right].
Qed.

Lemma dict_setitem_ne d k v : dict_setitem d k v ≠ [].
Proof.
  destruct d as [|[k' v'] d]; cbn [dict_setitem]; [done|].
  by destruct (decide (k' = k)).
Qed.

Lemma users_inv_setitem D d k v :
  users_inv sort_new_labels D d →
  user_name v = k → D (dataset v) →
  (∃ records, DF_sequences v = frame_of sort_new_labels records
              ∧ Forall (sequence_record v) records) →
  users_inv sort_new_labels D (dict_setitem d k v).
Proof.
  intros [Hnd Hall] Hk HD Hrec. split.
  - rewrite dict_setitem_keys. case_bool_decide as Hin; [done|].
    apply NoDup_app. split_and!; [done | | apply NoDup_singleton].
    intros x Hx ->%list_elem_of_singleton. done.
  - apply Forall_forall. intros kv [->|Hin]%dict_setitem_elem_of.
    + by split_and!.
    + rewrite Forall_forall in Hall. by apply Hall.
Qed.

Lemma add_users_inv D dataset dirnames d d' :
  D dataset → users_inv sort_new_labels D d →
  add_users sort_new_labels int fs dataset dirnames d = Done d' →
  users_inv sort_new_labels D d' ∧ (d ≠ [] ∨ dirnames ≠ [] → d' ≠ []).
Proof.
  intros HD. revert d. induction dirnames as [|dirname dirnames IH];
    intros d Hinv.
  - intros [= <-]. split; [done|]. by intros [?|?].
  - cbn [add_users].
    destruct (add_files _ _ _ _ _) as [user_data|e] eqn:Hfiles; [|done].
    cbn [mbind outcome_bind]. intros Hrest.
    destruct (add_files_appends _ _ _ Hfiles) as (records & -> & Hok).
    apply IH in Hrest as [Hinv' Hne].
    + split; [done|]. intros _. apply Hne. left. apply dict_setitem_ne.
    + apply users_inv_setitem; [done | done | done |].
      exists records. split; [|done].
      cbn [appended DF_sequences UserData_init].
      apply foldl_df_append_frame_of.
      eapply Forall_impl; [exact Hok|]. apply sequence_record_keys.
Qed.

Lemma add_datasets_inv (D : string → Prop) path datasets d d' :
  (∀ dataset, dataset ∈ datasets → D dataset) →
  users_inv sort_new_labels D d →
  add_datasets sort_new_labels int fs path datasets d = Done d' →
  users_inv sort_new_labels D d'.
Proof.
  revert d. induction datasets as [|dataset datasets IH]; intros d HD Hinv.
  - by intros [= <-].
  - cbn [add_datasets].
    destruct (add_users _ _ _ _ _ _) as [d1|e] eqn:Husers; [|done].
    cbn [mbind outcome_bind]. intros Hrest.
    apply (add_users_inv D) in Husers as [Hinv1 _];
      [| apply HD; left | done].
    apply (IH d1); [|done|done]. intros ds Hds. apply HD. by right.
Qed.

(** The users behind the frame that [produce_whole_DF] returns. *)
Lemma produce_whole_DF_users path datasets presentation DF_whole :
  produce_whole_DF sort_new_labels int fs path datasets presentation
  = Done DF_whole →
  ∃ users : list (UserData * list (list (string * cell))),
    users ≠ []
    ∧ NoDup (map (λ u, user_name u.1) users)
    ∧ Forall (λ u, dataset u.1 ∈ datasets
                   ∧ Forall (sequence_record u.1) u.2) users
    ∧ let records := concat (map snd users) in
      DF_whole
      = (if presentation
         then table (presentation_labels sort_new_labels) records
         else frame_of sort_new_labels records)
      ∧ (presentation = true → records ≠ []).
Proof.
  intros Hrun. unfold produce_whole_DF in Hrun.
  destruct (add_datasets _ _ _ _ _ _) as [d|e] eqn:Hd; [|done].
  cbn [mbind outcome_bind] in Hrun.
  apply (add_datasets_inv (λ ds, ds ∈ datasets)) in Hd as [Hnd Hall];
    [| done | by split; [constructor | constructor]].
  assert (∃ k, Forall2 (λ (kv : string * UserData) records,
                 user_name kv.2 = kv.1 ∧ dataset kv.2 ∈ datasets
                 ∧ DF_sequences kv.2 = frame_of sort_new_labels records
                 ∧ Forall (sequence_record kv.2) records) d k) as [k Hk].
  { apply Forall_exists_Forall2. eapply Forall_impl; [exact Hall|].
    intros kv (? & ? & records & ? & ?). by exists records. }
  assert (Hframes : map (λ kv : string * UserData, DF_sequences kv.2) d
                    = map (frame_of sort_new_labels) k).
  { clear -Hk. induction Hk as [|kv records d k (_ & _ & Hdf & _) _ IH];
      [done|]. cbn [map]. by rewrite Hdf, IH. }
  assert (Hnames : map fst d = map (λ kv : string * UserData, user_name kv.2) d).
  { clear -Hk. induction Hk as [|kv records d k (Hn & _) _ IH]; [done|].
    cbn [map]. by rewrite Hn, IH. }
  rewrite Hframes in Hrun.
  destruct k as [|records0 k].
  { by apply Forall2_nil_inv_r in Hk as ->. }
  rewrite pd_concat_frames in Hrun by done.
  cbn [of_result mbind outcome_bind] in Hrun.
  exists (zip (map snd d) (records0 :: k)).
  assert (Hlen : length (map snd d) = length (records0 :: k)).
  { rewrite length_map. by apply Forall2_length in Hk. }
  assert (Hsnd : map snd (zip (map snd d) (records0 :: k)) = records0 :: k).
  { change (map snd ?l) with (l.*2) at 1. apply snd_zip. lia. }
  assert (Hfst : map fst (zip (map snd d) (records0 :: k)) = map snd d).
  { change (map fst ?l) with (l.*1) at 1. apply fst_zip. lia. }
  split_and!.
  - destruct d; [by apply Forall2_nil_inv_l in Hk|done].
  - rewrite <- (map_map fst user_name), Hfst, map_map.
    by rewrite <- Hnames.
  - clear -Hk. revert Hk. generalize (records0 :: k). intros l Hl.
    induction Hl as [|kv records d l (_ & Hds & _ & Hok) _ IH];
      [constructor|]. cbn [map zip zip_with]. by constructor.
  - cbv zeta. rewrite Hsnd. destruct presentation.
    + destruct (concat (records0 :: k)) as [|row rest] eqn:Hcat.
      * cbn [frame_of] in Hrun.
        destruct (drop_columns_no_columns "dataset"
                    ["odd"; "false_start"; "success"]) as [msg Hmsg].
        by rewrite Hmsg in Hrun.
      * cbn [frame_of] in Hrun. rewrite drop_columns_table in Hrun.
        -- injection Hrun as <-. by split.
        -- intros c Hc. apply sequence_labels_elem_of.
           revert Hc. rewrite !elem_of_cons, elem_of_nil.
           intros [->|[->|[->|[->|[]]]]]; in_labels.
    + injection Hrun as <-. by split.
Qed.


(** ** The cells of the frame *)

Lemma getitem_table cols records c :
  c ∈ cols →
  getitem (table cols records) c
  = Ok (map (λ record, default NaN (row_get record c)) records).
Proof.
  intros [p Hp]%col_index_elem_of. unfold getitem, table.
  cbn [columns rows]. rewrite Hp. f_equal. rewrite map_map.
  apply map_ext. intros record. apply col_index_Some in Hp.
  exact (cell_at_map (λ c, default NaN (row_get record c)) cols p c Hp).
Qed.

Lemma getitem_frame_of records c col :
  getitem (frame_of sort_new_labels records) c = Ok col →
  col = map (λ record, default NaN (row_get record c)) records.
Proof.
  destruct records as [|record records]; [done|]. cbn [frame_of].
  intros Hget.
  destruct (decide (c ∈ sequence_labels sort_new_labels)) as [Hc|Hc].
  - rewrite getitem_table in Hget by done. by injection Hget.
  - unfold getitem, table in Hget. cbn [columns] in Hget.
    by rewrite col_index_None in Hget.
Qed.

Lemma getitem_presentation records c col :
  getitem (table (presentation_labels sort_new_labels) records) c = Ok col →
  col = map (λ record, default NaN (row_get record c)) records.
Proof.
  intros Hget.
  destruct (decide (c ∈ presentation_labels sort_new_labels)) as [Hc|Hc].
  - rewrite getitem_table in Hget by done. by injection Hget.
  - unfold getitem, table in Hget. cbn [columns] in Hget.
    by rewrite col_index_None in Hget.
Qed.

Lemma sequence_record_cells self record :
  sequence_record self record →
  ∃ reg imp seq,
    row_get record "user_name" = Some (Str (user_name self))
    ∧ row_get record "registration" = Some (Num reg)
    ∧ row_get record "imposter" = Some (Num imp)
    ∧ row_get record "sequence" = Some (Seq seq)
    ∧ (reg = 0 ∨ reg = 1 ∧ imp = 0)%Z
    ∧ 2 ≤ length seq ∧ length seq `mod` 2 = 0 ∧ seq !! 0 = Some 0%Z.
Proof.
  intros (reg & imp & succ & ts & -> & Hts & Hsucc & Hreg).
  destruct ts as [|first rest]; [cbn [length] in Hts; lia|].
  destruct (seq_cleanup_head first rest
              (even_prefix (if bool_decide (first ≠ 0%Z)
                            then shifted (first :: rest) first
                            else first :: rest))
              (if bool_decide (first ≠ 0%Z) then 1%Z else 0%Z)
              (Z.of_nat (length (first :: rest) `mod` 2))
              (seq_cleanup_run first rest))
    as (_ & Heven & Hnil & Hhead).
  unfold record_of. rewrite seq_cleanup_run.
  set (seq := even_prefix _) in *.
  assert (Hne : seq ≠ []).
  { rewrite Hnil. intros ->. cbn [length] in Hts. lia. }
  exists reg, imp, seq. split_and!; try done.
  - destruct Hreg as [(-> & -> & _)| ->]; [by right | by left].
  - destruct seq as [|a [|b seq']]; [done | | cbn [length]; lia].
    cbn [length] in Heven. done.
  - by apply Hhead.
Qed.

(** X14.  The cells of the frame [produce_whole_DF] returns.  Every cell of
    the sequence column is an array of even length, at least 2, that starts
    at 0; every cell of the registration column is 0 or 1; and a row with
    registration 1 has imposter 0. *)
Theorem produce_whole_DF_cells (path : string) (datasets : list string)
    (presentation : bool) (DF_whole : DataFrame)
    (sequences registrations imposters : list cell)
    (Hrun : produce_whole_DF sort_new_labels int fs path datasets presentation
            = Done DF_whole)
    (Hseq : getitem DF_whole "sequence" = Ok sequences)
    (Hreg : getitem DF_whole "registration" = Ok registrations)
    (Himp : getitem DF_whole "imposter" = Ok imposters) :
  Forall (λ c, ∃ seq, c = Seq seq ∧ 2 ≤ length seq
                      ∧ length seq `mod` 2 = 0 ∧ seq !! 0 = Some 0%Z)
         sequences
  ∧ Forall (λ c, c = Num 0 ∨ c = Num 1) registrations
  ∧ Forall2 (λ r i, r = Num 1 → i = Num 0) registrations imposters.
Proof.
  destruct (produce_whole_DF_users _ _ _ _ Hrun)
    as (users & _ & _ & Husers & HT & _).
  cbv zeta in HT.
  assert (Hrecords : Forall (λ record, ∃ self, sequence_record self record)
                       (concat (map snd users))).
  { clear -Husers. induction Husers as [|u users [_ Hu] _ IH]; [constructor|].
    cbn [map concat]. apply Forall_app. split; [|done].
    eapply Forall_impl; [exact Hu|]. intros record Hrec. by exists u.1. }
  assert (Hcols : ∀ c col, getitem DF_whole c = Ok col →
            col = map (λ record, default NaN (row_get record c))
                    (concat (map snd users))).
  { intros c col. rewrite HT. destruct presentation.
    - apply getitem_presentation.
    - apply getitem_frame_of. }
  rewrite (Hcols _ _ Hseq), (Hcols _ _ Hreg), (Hcols _ _ Himp).
  clear -Hrecords. induction Hrecords as [|record records [self Hrec] _ IH].
  { by split_and!; constructor. }
  destruct IH as (IH1 & IH2 & IH3).
  destruct (sequence_record_cells self record Hrec)
    as (reg & imp & seq & _ & Hr & Hi & Hs & Hri & Hlen & Heven & Hhead).
  cbn [map]. rewrite Hr, Hi, Hs. cbn [default from_option].
  split_and!; constructor; try done.
  - by exists seq.
  - destruct Hri as [->|[-> _]]; [by left | by right].
  - intros [= ->]. destruct Hri as [?|[_ ->]]; [lia | done].
Qed.

(** ** Nothing to read *)

Lemma insert_sorted_ne s l : insert_sorted s l ≠ [].
Proof.
  destruct l; cbn [insert_sorted]; [done|]. by destruct (String.leb _ _).
Qed.

Lemma sorted_nil l : sorted l = [] ↔ l = [].
Proof.
  destruct l as [|s l]; [done|]. unfold sorted. cbn [foldr].
  split; [|done]. intros Hnil.
  by destruct (insert_sorted_ne s (foldr insert_sorted [] l)).
Qed.

Lemma add_datasets_no_users path datasets d :
  (∀ dataset, dataset ∈ datasets →
     glob fs (dataset_pattern path dataset) = []) →
  add_datasets sort_new_labels int fs path datasets d = Done d.
Proof.
  induction datasets as [|dataset datasets IH]; intros Hglob; [done|].
  cbn [add_datasets]. fold (dataset_pattern path dataset).
  rewrite Hglob by left. cbn [sorted foldr add_users mbind outcome_bind].
  apply IH. intros ds Hds. apply Hglob. by right.
Qed.

(** X15.  When none of the datasets asked for has a user directory (an
    empty list of datasets, a wrong path), [produce_whole_DF] raises the
    [ValueError] of [pd.concat] on an empty list. *)
Theorem produce_whole_DF_no_users (path : string) (datasets : list string)
    (presentation : bool)
    (Hglob : ∀ dataset, dataset ∈ datasets →
               glob fs (dataset_pattern path dataset) = []) :
  produce_whole_DF sort_new_labels int fs path datasets presentation
  = Fail (Exn (ValueError "No objects to concatenate")).
Proof.
  unfold produce_whole_DF. by rewrite add_datasets_no_users.
Qed.

Lemma add_files_all_empty filenames self :
  (∀ filename, filename ∈ filenames → st_size fs filename = Done 0) →
  add_files sort_new_labels int fs filenames self = Done self.
Proof.
  induction filenames as [|filename filenames IH]; intros Hempty; [done|].
  cbn [add_files]. rewrite add_file_run, Hempty by left.
  rewrite bool_decide_eq_true_2 by done.
  apply IH. intros f Hf. apply Hempty. by right.
Qed.

Lemma add_users_all_empty dataset dirnames d :
  (∀ filename, st_size fs filename = Done 0) →
  Forall (λ kv : string * UserData, DF_sequences kv.2 = mkDF [] []) d →
  ∃ d', add_users sort_new_labels int fs dataset dirnames d = Done d'
        ∧ Forall (λ kv : string * UserData, DF_sequences kv.2 = mkDF [] []) d'
        ∧ (d ≠ [] ∨ dirnames ≠ [] → d' ≠ []).
Proof.
  intros Hempty. revert d. induction dirnames as [|dirname dirnames IH];
    intros d Hd.
  - exists d. split_and!; [done | done |]. by intros [?|?].
  - cbn [add_users]. rewrite add_files_all_empty by done.
    cbn [mbind outcome_bind].
    destruct (IH (dict_setitem d (os_path_split_tail dirname)
                    (UserData_init (os_path_split_tail dirname) dataset)))
      as (d' & Hrun & Hall & Hne).
    + apply Forall_forall. intros kv [->|Hin]%dict_setitem_elem_of; [done|].
      rewrite Forall_forall in Hd. by apply Hd.
    + exists d'. split_and!; [done | done |].
      intros _. apply Hne. left. apply dict_setitem_ne.
Qed.

Lemma add_datasets_all_empty path datasets d :
  (∀ filename, st_size fs filename = Done 0) →
  Forall (λ kv : string * UserData, DF_sequences kv.2 = mkDF [] []) d →
  ∃ d', add_datasets sort_new_labels int fs path datasets d = Done d'
        ∧ Forall (λ kv : string * UserData, DF_sequences kv.2 = mkDF [] []) d'
        ∧ (d ≠ [] ∨ (∃ dataset, dataset ∈ datasets
                       ∧ glob fs (dataset_pattern path dataset) ≠ []) →
           d' ≠ []).
Proof.
  intros Hempty. revert d. induction datasets as [|dataset datasets IH];
    intros d Hd.
  - exists d. split_and!; [done | done |].
    intros [?|(ds & Hds & _)]; [done|]. by apply elem_of_nil in Hds.
  - cbn [add_datasets]. fold (dataset_pattern path dataset).
    destruct (add_users_all_empty dataset
                (sorted (glob fs (dataset_pattern path dataset))) d Hempty Hd)
      as (d1 & Hd1 & Hall1 & Hne1).
    rewrite Hd1. cbn [mbind outcome_bind].
    destruct (IH d1 Hall1) as (d' & Hrun & Hall & Hne).
    exists d'. split_and!; [done | done |].
    intros [Hd0|(ds & [->|Hds]%elem_of_cons & Hglob)].
    + apply Hne. left. apply Hne1. by left.
    + apply Hne. left. apply Hne1. right. by rewrite sorted_nil.
    + apply Hne. right. by exists ds.
Qed.

(** X16.  When every file is empty but some dataset has a user directory,
    no user has a row: with [presentation=True] the call raises the
    [KeyError] of [drop], as the frame has none of the redundant columns;
    otherwise it returns the frame without rows and without columns. *)
Theorem produce_whole_DF_no_sequences (path : string)
    (datasets : list string) (presentation : bool)
    (Hempty : ∀ filename, st_size fs filename = Done 0)
    (Husers : ∃ dataset, dataset ∈ datasets
                ∧ glob fs (dataset_pattern path dataset) ≠ []) :
  if presentation
  then ∃ msg, produce_whole_DF sort_new_labels int fs path datasets true
              = Fail (Exn (KeyError msg))
  else produce_whole_DF sort_new_labels int fs path datasets false
       = Done (mkDF [] []).
Proof.
  destruct (add_datasets_all_empty path datasets [] Hempty ltac:(constructor))
    as (d & Hrun & Hall & Hne).
  specialize (Hne (or_intror Husers)).
  assert (Hcat : pd_concat (map (λ kv : string * UserData, DF_sequences kv.2) d)
                 = Ok (mkDF [] [])).
  { assert (Hframes : map (λ kv : string * UserData, DF_sequences kv.2) d
                      = map (frame_of sort_new_labels) (map (λ _, []) d)).
    { clear -Hall. induction Hall as [|kv d Hkv _ IH]; [done|].
      cbn [map]. by rewrite Hkv, IH. }
    rewrite Hframes, pd_concat_frames by (by destruct d).
    f_equal. assert (concat (map (λ _ : string * UserData,
                                   @nil (list (string * cell))) d) = []) as ->;
      [|done].
    clear. by induction d. }
  destruct (drop_columns_no_columns "dataset"
              ["odd"; "false_start"; "success"]) as [msg Hmsg].
  destruct presentation; [exists msg|]; unfold produce_whole_DF;
    rewrite Hrun; cbn [mbind outcome_bind]; rewrite Hcat;
    cbn [of_result mbind outcome_bind]; cbv zeta iota; [|done].
  by rewrite Hmsg.
Qed.

End WholeFrame.


Lemma produce_whole_DF_no_users_witness :
  produce_whole_DF true int_decimal example_fs "data" ["B"; "C"] true
  = Fail (Exn (ValueError "No objects to concatenate")).
Proof.
  apply produce_whole_DF_no_users.
  intros dataset [->|[->|[]%elem_of_nil]%elem_of_cons]%elem_of_cons;
    reflexivity.
Defined.

Lemma produce_whole_DF_no_sequences_witness :
  produce_whole_DF true int_decimal
    (mkFS (λ _, Done 0) (open_lines example_fs) (glob example_fs))
    "data" ["A"] false
  = Done (mkDF [] []).
Proof.
  apply (produce_whole_DF_no_sequences true int_decimal
           (mkFS (λ _, Done 0) (open_lines example_fs) (glob example_fs))
           "data" ["A"] false); [done|].
  exists "A". split; [by left | by vm_compute].
Defined.

Lemma produce_whole_DF_cells_witness :
  Forall (λ c, ∃ seq, c = Seq seq ∧ 2 ≤ length seq
                      ∧ length seq `mod` 2 = 0 ∧ seq !! 0 = Some 0%Z)
    [Seq [0; 100; 250; 300]%Z; Seq [0; 100]%Z; Seq [0; 90; 260; 310]%Z;
     Seq [0; 100]%Z].
Proof.
  exact (proj1 (produce_whole_DF_cells true int_decimal example_fs "data"
                  ["A"] true _ _ _ _ eq_refl eq_refl eq_refl eq_refl)).
Defined.

(** * Plotting the sequences of a user *)

Lemma range_step_length stop step :
  0 < step → length (range_step stop step) = (stop + step - 1) / step.
Proof. intros _. unfold range_step. by rewrite length_map, length_seq. Qed.

Lemma range_step_lookup stop step i t :
  range_step stop step !! i = Some t → t = i * step.
Proof.
  unfold range_step. change (map ?f ?l) with (f <$> l).
  rewrite list_lookup_fmap. intros Hi.
  apply fmap_Some in Hi as (j & Hj & ->).
  apply lookup_seq in Hj as [-> _]. done.
Qed.

Lemma range_step_bound stop step t :
  0 < step → t ∈ range_step stop step → t < stop.
Proof.
  intros Hstep. unfold range_step. intros (i & -> & Hi)%elem_of_map.
  apply elem_of_seq in Hi as [_ Hi]. cbn [Nat.add] in Hi.
  pose proof (Nat.div_mod_eq (stop + step - 1) step) as Hdm.
  pose proof (Nat.mod_upper_bound (stop + step - 1) step ltac:(lia)) as Hm.
  nia.
Qed.

Lemma range_step_lookup_exact stop step i :
  0 < step →
  range_step stop step !! i
  = if bool_decide (i * step < stop) then Some (i * step) else None.
Proof.
  intros Hstep. unfold range_step. change (map ?f ?l) with (f <$> l).
  rewrite list_lookup_fmap.
  pose proof (Nat.div_mod_eq (stop + step - 1) step) as Hdm.
  pose proof (Nat.mod_upper_bound (stop + step - 1) step ltac:(lia)) as Hm.
  destruct (decide (i < (stop + step - 1) / step)) as [Hi|Hi].
  - rewrite lookup_seq_lt by done. cbn [fmap option_fmap option_map Nat.add].
    rewrite bool_decide_eq_true_2; [done | nia].
  - rewrite lookup_seq_ge by lia. cbn [fmap option_fmap option_map].
    rewrite bool_decide_eq_false_2; [done | nia].
Qed.

Lemma xticks_at_most_10 n : length (range_step n (n / 10 + 1)) ≤ 10.
Proof.
  rewrite range_step_length by lia.
  pose proof (Nat.div_mod_eq n 10) as Hdm.
  pose proof (Nat.mod_upper_bound n 10 ltac:(lia)) as Hm.
  apply Nat.lt_succ_r, Nat.Div0.div_lt_upper_bound. lia.
Qed.

Lemma plot_sequences_run f sequences seq calls ys :
  Forall2 (λ s y, f s = Done y) sequences ys →
  plot_sequences f sequences seq calls
  = (Done (from_option Some seq (last ys)), calls ++ map plt_plot ys).
Proof.
  intros Hys. revert seq calls.
  induction Hys as [|s y sequences ys Hsy _ IH]; intros seq calls.
  - cbn [plot_sequences map last from_option]. by rewrite app_nil_r.
  - cbn [plot_sequences]. rewrite Hsy, IH. cbn [map].
    rewrite <- app_assoc. cbn [app]. f_equal. f_equal.
    rewrite (last_cons y ys). by destruct (last ys).
Qed.

Lemma select_none {A} (mask : list bool) (l : list A) :
  Forall (λ b, b = false) mask → select mask l = [].
Proof.
  intros Hmask. unfold select. revert l.
  induction Hmask as [|b mask -> _ IH]; intros [|x l]; try done.
  cbn [zip zip_with List.filter fst]. apply IH.
Qed.

Lemma cell_eqb_eq a b : cell_eqb a b = true → a = b.
Proof.
  unfold cell_eqb. destruct a, b; try done; by intros ?%bool_decide_eq_true.
Qed.

(** X17.  On a table that has the three columns but no registration row
    for the user, [plot_user_sequences] raises [UnboundLocalError] at line
    30: the loop body never ran, so [seq] has no value.  By then the title
    and the axis labels are set; nothing is plotted, no ticks are set and
    the figure is not shown. *)
Theorem plot_user_sequences_no_rows (DF_whole : DataFrame)
    (user_name : string) (sequence_processor : option processor)
    (f : cell → outcome cell) (title ylabel : string)
    (names registrations sequences : list cell)
    (Htitles : titles sequence_processor = Done (f, title, ylabel))
    (Hnames : getitem DF_whole "user_name" = Ok names)
    (Hregs : getitem DF_whole "registration" = Ok registrations)
    (Hseqs : getitem DF_whole "sequence" = Ok sequences)
    (Hnone : ∀ i, ¬ (names !! i = Some (Str user_name)
                     ∧ registrations !! i = Some (Num 1))) :
  plot_user_sequences DF_whole user_name sequence_processor
  = (Fail (UnboundLocalError "seq"),
     [plt_title title 20; plt_xlabel "index" 16; plt_ylabel ylabel 16]).
Proof.
  unfold plot_user_sequences. rewrite Htitles.
  unfold query_registration_sequences.
  unfold getitem in Hnames, Hregs, Hseqs.
  destruct (col_index "user_name" (columns DF_whole)) as [pu|]; [|done].
  destruct (col_index "registration" (columns DF_whole)) as [pr|]; [|done].
  injection Hnames as <-. injection Hregs as <-.
  rewrite select_none.
  - unfold getitem. cbn [columns rows].
    by destruct (col_index "sequence" (columns DF_whole)).
  - apply Forall_forall. intros b (r & -> & Hr)%elem_of_map.
    apply list_elem_of_lookup_1 in Hr as [i Hi].
    apply not_true_is_false. intros [Hu Hreg]%andb_prop.
    apply cell_eqb_eq in Hu, Hreg. apply (Hnone i).
    change (map ?g ?l) with (g <$> l). rewrite !list_lookup_fmap, Hi.
    cbn [fmap option_fmap option_map]. by rewrite Hu, Hreg.
Qed.

Lemma plot_user_sequences_no_rows_witness :
  plot_user_sequences
    (mkDF ["user_name"; "registration"; "sequence"]
       [[Str "u1"; Num 0; Seq [0; 90]%Z]; [Str "u2"; Num 1; Seq [0; 70]%Z]])
    "u1" None
  = (Fail (UnboundLocalError "seq"),
     [plt_title ("Sequence " +:+ dquote +:+ "as-is" +:+ dquote) 20;
      plt_xlabel "index" 16; plt_ylabel "sequence" 16]).
Proof.
  apply (plot_user_sequences_no_rows
           (mkDF ["user_name"; "registration"; "sequence"]
              [[Str "u1"; Num 0; Seq [0; 90]%Z];
               [Str "u2"; Num 1; Seq [0; 70]%Z]])
           "u1" None Done _ _
           [Str "u1"; Str "u2"] [Num 0; Num 1]
           [Seq [0; 90]%Z; Seq [0; 70]%Z] eq_refl eq_refl eq_refl eq_refl).
  intros [|[|i]] [Hu Hr]; cbn in Hu, Hr; congruence.
Defined.

(** X18.  When the query finds the sequences of the user and the function
    returns on each of them, [plot_user_sequences] returns after these
    calls: one [plt.plot] per registration row of the user, in the order of
    the table, then the title and the two axis labels, the ticks and
    [plt.show].  The ticks are computed from the last sequence plotted
    alone: they are the multiples of [n / 10 + 1] below its length [n], all
    of them and in increasing order, so that the tick at position [i] is
    [i * (n / 10 + 1)] when that is below [n] and there is no tick at
    position [i] otherwise; at most ten of them. *)
Theorem plot_user_sequences_calls (DF_whole : DataFrame)
    (user_name : string) (sequence_processor : option processor)
    (f : cell → outcome cell) (title ylabel : string)
    (sequences ys : list cell) (y : cell) (n : nat)
    (Htitles : titles sequence_processor = Done (f, title, ylabel))
    (Hquery : query_registration_sequences DF_whole user_name
              = Done sequences)
    (Hys : Forall2 (λ s y, f s = Done y) sequences ys)
    (Hlast : last ys = Some y)
    (Hlen : len y = Ok n) :
  ∃ ticks,
    plot_user_sequences DF_whole user_name sequence_processor
    = (Done tt,
       map plt_plot ys
       ++ [plt_title title 20; plt_xlabel "index" 16; plt_ylabel ylabel 16;
           plt_xticks ticks; plt_show])
    ∧ length ticks ≤ 10
    ∧ Forall (λ t, t < n) ticks
    ∧ (∀ i t, ticks !! i = Some t → t = i * (n / 10 + 1))
    ∧ (∀ i, ticks !! i
            = if bool_decide (i * (n / 10 + 1) < n)
              then Some (i * (n / 10 + 1)) else None).
Proof.
  exists (range_step n (n / 10 + 1)). split_and!.
  - unfold plot_user_sequences. rewrite Htitles, Hquery.
    rewrite (plot_sequences_run f sequences None [] ys Hys), Hlast.
    cbn [from_option app]. rewrite Hlen. by rewrite <- app_assoc.
  - apply xticks_at_most_10.
  - apply Forall_forall. intros t. apply range_step_bound. lia.
  - intros i t. apply range_step_lookup.
  - intros i. apply range_step_lookup_exact. lia.
Qed.

Lemma plot_user_sequences_calls_witness :
  ∃ ticks,
    plot_user_sequences
      (mkDF ["user_name"; "registration"; "sequence"]
         [[Str "u1"; Num 1; Seq [0; 90; 150; 300]%Z];
          [Str "u2"; Num 1; Seq [0; 70]%Z];
          [Str "u1"; Num 1; Seq [0; 80]%Z]])
      "u1" None
    = (Done tt,
       [plt_plot (Seq [0; 90; 150; 300]%Z); plt_plot (Seq [0; 80]%Z);
        plt_title ("Sequence " +:+ dquote +:+ "as-is" +:+ dquote) 20;
        plt_xlabel "index" 16; plt_ylabel "sequence" 16;
        plt_xticks ticks; plt_show])
    ∧ Forall (λ t, t < 2) ticks
    ∧ ticks !! 0 = Some 0 ∧ ticks !! 1 = Some 1 ∧ ticks !! 2 = None.
Proof.
  destruct (plot_user_sequences_calls
              (mkDF ["user_name"; "registration"; "sequence"]
                 [[Str "u1"; Num 1; Seq [0; 90; 150; 300]%Z];
                  [Str "u2"; Num 1; Seq [0; 70]%Z];
                  [Str "u1"; Num 1; Seq [0; 80]%Z]])
              "u1" None Done _ _
              [Seq [0; 90; 150; 300]%Z; Seq [0; 80]%Z]
              [Seq [0; 90; 150; 300]%Z; Seq [0; 80]%Z]
              (Seq [0; 80]%Z) 2 eq_refl eq_refl
              ltac:(repeat constructor) eq_refl eq_refl)
    as (ticks & Hrun & _ & Hbound & _ & Hticks).
  exists ticks. split; [exact Hrun|]. split; [exact Hbound|].
  split; [exact (Hticks 0)|]. split; [exact (Hticks 1) | exact (Hticks 2)].
Defined.

(** * The order of the rows of a work item over two groups *)

Lemma list_prod_lookup {A B} (la : list A) (lb : list B) i j a b :
  la !! i = Some a → lb !! j = Some b →
  list_prod la lb !! (i * length lb + j) = Some (a, b).
Proof.
  revert i. induction la as [|x la IH]; intros i Ha Hb; [done|].
  cbn [list_prod]. destruct i as [|i].
  - injection Ha as ->. cbn [Nat.mul Nat.add].
    rewrite lookup_app_l by (rewrite length_map; by eapply lookup_lt_Some).
    change (map ?g ?l) with (g <$> l). by rewrite list_lookup_fmap, Hb.
  - cbn [lookup list_lookup] in Ha.
    rewrite lookup_app_r by (rewrite length_map; lia).
    rewrite length_map.
    replace (S i * length lb + j - length lb) with (i * length lb + j) by lia.
    by apply IH.
Qed.

Lemma flat_map_lookup {A B} (la : list A) (lb : list B) i j a b :
  la !! i = Some a → lb !! j = Some b →
  flat_map (λ y, map (λ x, (x, y)) la) lb !! (j * length la + i)
  = Some (a, b).
Proof.
  intros Ha. revert j. induction lb as [|y lb IH]; intros j Hb; [done|].
  cbn [flat_map]. destruct j as [|j].
  - injection Hb as ->. cbn [Nat.mul Nat.add].
    rewrite lookup_app_l by (rewrite length_map; by eapply lookup_lt_Some).
    change (map ?g ?l) with (g <$> l). by rewrite list_lookup_fmap, Ha.
  - cbn [lookup list_lookup] in Hb.
    rewrite lookup_app_r by (rewrite length_map; lia).
    rewrite length_map.
    replace (S j * length la + i - length la) with (j * length la + i) by lia.
    by apply IH.
Qed.

Lemma numbered_lookup_Some {A} (l : list A) i x :
  l !! i = Some x → numbered l !! i = Some (i, x).
Proof.
  intros Hi. unfold numbered. apply lookup_zip_with_Some.
  exists i, x. split_and!; [done | | done].
  apply lookup_seq. split; [done|]. by eapply lookup_lt_Some.
Qed.

Lemma mapM_lookup {A B} (g : A → result B) l ys i x :
  mapM g l = Ok ys → l !! i = Some x →
  ∃ y, ys !! i = Some y ∧ g x = Ok y.
Proof.
  rewrite mapM_Forall2. intros Hall Hi.
  by destruct (Forall2_lookup_l _ _ _ _ _ Hall Hi) as (y & ? & ?); exists y.
Qed.

(** X19.  The order of the rows of a work item over two different groups
    A and B.  Concat mode goes through the rows of A and, for each, through
    the rows of B: row [i * |B| + j] of the table is row [i] of A followed
    by row [j] of B.  Diff mode goes through the rows of B and, for each,
    through the rows of A: row [j * |A| + i] of the table is the
    elementwise absolute difference of row [i] of A and row [j] of B.  So
    row [k] of one table and row [k] of the other are in general not about
    the same pair. *)
Theorem between_row_order
    (f : cell → cell → result cell) (A B : DataFrame)
    (HA : well_formed A) (HB : well_formed B)
    (Hcols : columns B = columns A)
    (Hfree : Forall (λ c, ¬ reserved c) (columns A)) :
  (∀ C i j ra rb,
     (get_pair_data f false 0 (Some 1) [A; B]).1 = Ok C →
     rows A !! i = Some ra → rows B !! j = Some rb →
     rows C !! (i * length (rows B) + j) = Some (ra ++ rb))
  ∧ (∀ D i j ra rb,
       (get_pair_data f true 0 (Some 1) [A; B]).1 = Ok D →
       rows A !! i = Some ra → rows B !! j = Some rb →
       ∃ d, rows D !! (j * length (rows A) + i) = Some d
            ∧ row_abs_diff f ra rb = Ok d).
Proof.
  split.
  - intros C i j ra rb HC Hi Hj.
    change (pair_data_between f false A B = Ok C) in HC.
    rewrite pair_data_between_concat in HC by done. injection HC as <-.
    cbn [rows]. unfold cross_join.
    change (map ?g ?l) with (g <$> l). rewrite list_lookup_fmap.
    rewrite <- (numbered_length (rows B)).
    by rewrite (list_prod_lookup _ _ i j (i, ra) (j, rb))
      by by apply numbered_lookup_Some.
  - intros D i j ra rb HD Hi Hj.
    change (pair_data_between f true A B = Ok D) in HD.
    destruct (decide (columns A = [])) as [Hnil|Hne].
    { unfold pair_data_between, get_pair_data in HD.
      rewrite abs_diff_between_run in HD.
      by apply abs_diff_table_no_columns in HD. }
    rewrite pair_data_between_diff in HD by done.
    apply rbind_ok in HD as (rs & Hrs & [= <-]). cbn [rows].
    eapply (mapM_lookup _ _ _ (j * length (rows A) + i)
              ((i, ra), (j, rb))) in Hrs as (d & Hd & Hrow).
    + by exists d.
    + unfold cross_join_by_B. rewrite <- (numbered_length (rows A)).
      apply flat_map_lookup; by apply numbered_lookup_Some.
Qed.

Lemma between_row_order_witness :
  rows (mkDF ["x_A"; "x_B"]
          [[Num 10; Num 10]; [Num 10; Num 20]; [Num 10; Num 40];
           [Num 20; Num 10]; [Num 20; Num 20]; [Num 20; Num 40]])
    !! (1 * length (rows group_3) + 0)
  = Some ([Num 20] ++ [Num 10]).
Proof.
  destruct (between_row_order np_abs_sub group_2 group_3
              ltac:(by repeat constructor) ltac:(by repeat constructor)
              eq_refl
              ltac:(repeat constructor; unfold reserved; intros [?|?]; done))
    as [Hconcat _].
  exact (Hconcat _ 1 0 [Num 20] [Num 10] eq_refl eq_refl eq_refl).
Defined.

(** * Columns the generator needs *)

Lemma extract_pairs_value_run f r DF fn flag (h : heap) :
  h !! r = Some DF →
  (extract_pairs f r fn flag h).1 = extract_pairs_value f DF fn flag.
Proof.
  intros Hr. destruct (extract_pairs_runs f r DF fn flag h Hr) as [ext ->].
  done.
Qed.

Lemma range_cons a b : a < b → range a b = a :: range (S a) b.
Proof.
  intros Hab. unfold range. replace (b - a) with (S (b - S a)) by lia. done.
Qed.

(** With two subjects or more, the first work item is the one of the first
    two subjects: the list of tables is this item's table and the rest, and
    what the item raises is raised. *)
Lemma negative_tables_first f DF us fn flag :
  2 ≤ length us →
  match (A ← user_frame DF (cell_at us 0) fn;
         B ← user_frame DF (cell_at us 1) fn;
         pair_data_between f flag A B) with
  | Raise e => negative_tables f DF us fn flag = Raise e
  | Ok T =>
      ∀ tables, negative_tables f DF us fn flag = Ok tables →
                ∃ rest, tables = T :: rest
  end.
Proof.
  intros Hlen. unfold negative_tables.
  rewrite (range_cons 0 (length us - 1)) by lia.
  cbn [mapM]. rewrite (range_cons (0 + 1) (length us)) by lia.
  cbn [mapM Nat.add].
  destruct (user_frame DF (cell_at us 0) fn) as [A|e]; [|done].
  cbn [mbind result_bind].
  destruct (user_frame DF (cell_at us 1) fn) as [B|e]; [|done].
  cbn [mbind result_bind].
  destruct (pair_data_between f flag A B) as [T|e]; [|done].
  cbn [mbind result_bind].
  intros tables Htables.
  destruct (mapM _ (range 2 (length us))) as [inner|e]; [|done].
  cbn [mbind result_bind mret result_ret] in Htables.
  destruct (mapM _ (range 1 (length us - 1))) as [outer|e]; [|done].
  cbn [mbind result_bind mret result_ret] in Htables.
  injection Htables as <-. cbn [concat app]. by eexists.
Qed.

Lemma loc_missing df mask names :
  (∃ c, c ∈ names ∧ c ∉ columns df) →
  ∃ c, c ∈ names ∧ (c ∉ columns df) ∧ loc df mask names = Raise (KeyError c).
Proof.
  unfold loc. induction names as [|c0 names IH]; intros (c & Hc & Hmiss).
  { by apply elem_of_nil in Hc. }
  cbn [mapM]. destruct (col_index c0 (columns df)) as [p|] eqn:Hp.
  - destruct IH as (c' & Hc' & Hmiss' & Hloc).
    { apply elem_of_cons in Hc as [->|Hc]; [|by exists c].
      apply col_index_Some, list_elem_of_lookup_2 in Hp. done. }
    exists c'. split_and!; [by right | done |].
    cbn [mbind result_bind].
    destruct (mapM _ names) as [ps|e]; [done|].
    cbn [mbind result_bind] in Hloc |- *. done.
  - exists c0. split_and!; [by left | | done].
    intros [q Hq]%col_index_elem_of. congruence.
Qed.

(** X20.  The columns [extract_pairs] needs, once the configuration check
    has passed.  A table without a user_name column raises the [KeyError] of
    line 38, on that name.  With two subjects or more and a feature name
    that is not a column of the table, the call raises a [KeyError] too,
    whatever its message, and returns no dataset. *)
Theorem extract_pairs_missing_column
    (f : cell → cell → result cell) (r : ref) (DF : DataFrame)
    (fn : list string) (flag : bool) (h : heap)
    (Hr : h !! r = Some DF)
    (Hconfig : flag && bool_decide ("sequence" ∈ fn) = false) :
  ("user_name" ∉ columns DF →
   (extract_pairs f r fn flag h).1 = Raise (KeyError "user_name"))
  ∧ (∀ us, subjects DF = Ok us → 2 ≤ length us →
       (∃ c, c ∈ fn ∧ c ∉ columns DF) →
       ∃ key, (extract_pairs f r fn flag h).1 = Raise (KeyError key)).
Proof.
  rewrite (extract_pairs_value_run f r DF fn flag h Hr).
  unfold extract_pairs_value. rewrite Hconfig. split.
  - intros Hmiss. unfold getitem. by rewrite col_index_None.
  - intros us Hus Hlen Hmiss. unfold subjects in Hus.
    destruct (getitem DF "user_name") as [col|e] eqn:Hcol; [|done].
    cbn [mbind result_bind] in Hus |- *. rewrite Hus.
    cbn [mbind result_bind].
    destruct (loc_missing DF (map (λ c, cell_eqb c (cell_at us 0)) col) fn
                Hmiss) as (c & Hc & Hcm & Hloc).
    exists c.
    pose proof (negative_tables_first f DF us fn flag Hlen) as Hfirst.
    assert (HA : user_frame DF (cell_at us 0) fn = Raise (KeyError c)).
    { unfold user_frame. by rewrite Hcol. }
    rewrite HA in Hfirst. cbn [mbind result_bind] in Hfirst.
    by rewrite Hfirst.
Qed.

Lemma extract_pairs_missing_column_witness :
  ∃ key, (extract_pairs np_abs_sub 0 ["x"; "z"] false [table_23]).1
         = Raise (KeyError key).
Proof.
  apply (proj2 (extract_pairs_missing_column np_abs_sub 0 table_23 ["x"; "z"]
                  false [table_23] eq_refl eq_refl)
           [Str "A"; Str "B"] eq_refl ltac:(cbn [length]; lia)).
  exists "z". split; [by right; left|].
  by apply (bool_decide_unpack (_ ∉ _)).
Defined.

(** X21.  In diff mode [extract_pairs] never returns a dataset when the
    list of feature names is empty: with fewer than two subjects
    [pd.concat] raises, and otherwise the first work item does, as no array
    can be reshaped to rows of width 0. *)
Theorem extract_pairs_diff_needs_features
    (f : cell → cell → result cell) (r : ref) (h : heap) (T : DataFrame) :
  (extract_pairs f r [] true h).1 ≠ Ok T.
Proof.
  destruct (h !! r) as [DF|] eqn:Hr; [|by rewrite extract_pairs_no_table].
  rewrite (extract_pairs_value_run f r DF [] true h Hr).
  unfold extract_pairs_value. cbn [andb bool_decide decide_rel].
  rewrite bool_decide_eq_false_2 by apply not_elem_of_nil.
  intros (col & _ & HT)%rbind_ok.
  apply rbind_ok in HT as (us & _ & HT).
  apply rbind_ok in HT as (negatives & Hneg & HT).
  apply rbind_ok in HT as (DF_negative & Hcn & _).
  destruct (decide (2 ≤ length us)) as [Hlen|Hfew].
  - pose proof (negative_tables_first f DF us [] true Hlen) as Hfirst.
    destruct (user_frame DF (cell_at us 0) []) as [A|e] eqn:HA;
      cbn [mbind result_bind] in Hfirst; [|congruence].
    destruct (user_frame DF (cell_at us 1) []) as [B|e] eqn:HB;
      cbn [mbind result_bind] in Hfirst; [|congruence].
    apply user_frame_ok in HA as [HcA _].
    destruct (pair_data_between f true A B) as [T0|e] eqn:HT0; [|congruence].
    unfold pair_data_between, get_pair_data in HT0.
    rewrite abs_diff_between_run in HT0.
    by apply abs_diff_table_no_columns in HT0.
  - rewrite negative_tables_few_subjects in Hneg by lia.
    injection Hneg as <-. discriminate Hcn.
Qed.

(** * Calling concat mode again on the same frames *)

Lemma with_key_twice A :
  well_formed A → "_tmp_cart_prod" ∉ columns A →
  with_key (with_key A) = with_key A.
Proof.
  intros HA Hkey. rewrite (with_key_prepared A) by done.
  by apply with_key_again.
Qed.

(** X22.  Concat mode can be called again on the frames as the first call
    left them: the second call returns the table of the first and changes
    the frames no further.  (The temporary columns the first call added are
    overwritten with the same values.) *)
Theorem concat_mode_repeatable
    (f : cell → cell → result cell) (A B : DataFrame)
    (HA : well_formed A) (HB : well_formed B)
    (Hcols : columns B = columns A)
    (Hfree : Forall (λ c, ¬ reserved c) (columns A)) :
  (let first := get_pair_data f false 0 (Some 1) [A; B] in
   get_pair_data f false 0 (Some 1) first.2 = first)
  ∧ (let first := get_pair_data f false 0 None [A] in
     get_pair_data f false 0 None first.2 = first).
Proof.
  pose proof (reserved_free_key _ Hfree) as Hkey.
  pose proof (reserved_free_row_number _ Hfree) as Hrow.
  split; cbv zeta; unfold get_pair_data.
  - rewrite cartesian_product_between_run. cbn [snd].
    rewrite cartesian_product_between_run.
    by rewrite !with_key_twice by (by rewrite ?Hcols).
  - rewrite cartesian_product_within_run. cbv zeta. cbn [snd].
    rewrite cartesian_product_within_run. cbv zeta.
    rewrite (prepare_within A) by done.
    unfold well_formed in HA.
    rewrite !(with_key_again (columns A) ["_tmp_row_number"]) by done.
    by rewrite !(with_row_number_again (columns A) (rows A)) by done.
Qed.

Lemma concat_mode_repeatable_witness :
  get_pair_data np_abs_sub false 0 None
    (get_pair_data np_abs_sub false 0 None [group_3]).2
  = get_pair_data np_abs_sub false 0 None [group_3].
Proof.
  exact (proj2 (concat_mode_repeatable np_abs_sub group_3 group_3
                  group_3_well_formed group_3_well_formed eq_refl
                  group_3_reserved_free)).
Defined.

(** * A frame used within, then against another *)

Lemma merge_leftover cs (la lb : list (list cell)) :
  "_tmp_cart_prod" ∉ cs → "_tmp_row_number" ∉ cs →
  Forall (λ r, length r = length cs) la →
  Forall (λ r, length r = length cs) lb →
  merge (prepared cs ["_tmp_row_number"] (λ i, [Num (Z.of_nat i)]) la)
        (prepared cs [] (λ _, []) lb) "_tmp_cart_prod" ("_A", "_B")
  = Ok (mkDF (map suffix_A cs
              ++ "_tmp_cart_prod" :: ["_tmp_row_number"] ++ map suffix_B cs)
             (map (λ p, p.1.2 ++ Num 0 :: [Num (Z.of_nat p.1.1)] ++ p.2.2)
                  (cross_join la lb))).
Proof.
  intros Hkey Hrow Hla Hlb. unfold merge, prepared. cbn [columns rows fst snd].
  rewrite !col_index_app_fresh by done.
  assert (Hne : ∀ c, c ∈ cs → c ≠ "_tmp_cart_prod") by (by intros c Hin ->).
  assert (Hcols :
    map (λ c, if bool_decide (c ≠ "_tmp_cart_prod"
                              ∧ c ∈ cs ++ ["_tmp_cart_prod"])
              then c +:+ "_A" else c)
        (cs ++ ["_tmp_cart_prod"; "_tmp_row_number"])
    ++ map (λ c, if bool_decide
                      (c ∈ cs ++ ["_tmp_cart_prod"; "_tmp_row_number"])
                 then c +:+ "_B" else c)
           (List.filter (neqb "_tmp_cart_prod") (cs ++ ["_tmp_cart_prod"]))
    = map suffix_A cs
      ++ "_tmp_cart_prod" :: ["_tmp_row_number"] ++ map suffix_B cs).
  { rewrite map_app. cbn [map]. rewrite <- app_assoc. f_equal.
    { apply map_ext_elem_of. intros c Hc.
      rewrite bool_decide_eq_true_2; [done|].
      split; [by apply Hne|]. rewrite elem_of_app. by left. }
    rewrite bool_decide_eq_false_2 by tauto.
    rewrite bool_decide_eq_false_2.
    2:{ intros [_ [Hin|Hin%list_elem_of_singleton]%elem_of_app]; done. }
    cbn [app]. do 2 f_equal.
    rewrite List.filter_app. cbn [List.filter].
    unfold neqb at 2. rewrite bool_decide_eq_false_2 by tauto.
    rewrite app_nil_r, filter_all_elem_of.
    - apply map_ext_elem_of. intros c Hc.
      rewrite bool_decide_eq_true_2; [done|]. rewrite elem_of_app. by left.
    - intros c Hc. apply bool_decide_eq_true_2. intros Heq.
      by apply (Hne c). }
  rewrite Hcols. do 2 f_equal.
  rewrite flat_map_fmap.
  rewrite (flat_map_ext_elem_of _
             (λ p, map (λ q, p.2 ++ Num 0 :: [Num (Z.of_nat p.1)] ++ q.2)
                       (numbered lb))).
  { apply (flat_map_map_prod
             (λ p q, p.2 ++ Num 0 :: [Num (Z.of_nat p.1)] ++ q.2)). }
  intros p Hp. rewrite filter_all_elem_of.
  - rewrite map_map. apply map_ext_elem_of. intros q Hq.
    rewrite (keep_prepared cs [] (λ _, []) Hkey (not_elem_of_nil _)
               (λ _, eq_refl) q.2 q.1)
      by (by eapply numbered_row_length).
    rewrite app_nil_r. by rewrite <- app_assoc.
  - intros rb [q [-> Hq]]%elem_of_map.
    apply bool_decide_eq_true_2.
    by rewrite (prepared_key cs (λ _, []) lb q),
               (prepared_key cs (λ i, [Num (Z.of_nat i)]) la p).
Qed.

(** The call within A, then the call on A against B. *)
Lemma between_after_within (f : cell → cell → result cell) (A B : DataFrame) :
  well_formed A → well_formed B → columns B = columns A →
  Forall (λ c, ¬ reserved c) (columns A) →
  (get_pair_data f false 0 (Some 1)
     (get_pair_data f false 0 None [A; B]).2).1
  = Ok (mkDF (map suffix_A (columns A)
              ++ "_tmp_row_number" :: map suffix_B (columns A))
          (map (λ p, p.1.2 ++ Num (Z.of_nat p.1.1) :: p.2.2)
               (cross_join (rows A) (rows B)))).
Proof.
  intros HA HB Hcols Hfree.
  pose proof (reserved_free_key _ Hfree) as Hkey.
  pose proof (reserved_free_row_number _ Hfree) as Hrow.
  assert (Hwithin : (get_pair_data f false 0 None [A; B]).2
                    = [with_row_number
                         (with_row_number (with_key (with_key A))); B])
    by reflexivity.
  rewrite Hwithin. unfold get_pair_data.
  rewrite cartesian_product_between_run. cbn [fst].
  rewrite (prepare_within A) by done.
  unfold well_formed in HA, HB. rewrite Hcols in HB.
  rewrite (with_key_again (columns A) ["_tmp_row_number"]) by done.
  rewrite (with_key_prepared B) by (by rewrite Hcols). rewrite Hcols.
  unfold join_and_filter. rewrite merge_leftover by done.
  cbn [mbind result_bind mret result_ret].
  match goal with
  | |- ?d ≫= _ = Ok ?T =>
      assert (Hdrop : d = Ok T); [|by rewrite Hdrop]
  end.
  apply (drop_column_column "_tmp_cart_prod" (map suffix_A (columns A))
           (["_tmp_row_number"] ++ map suffix_B (columns A))
           (λ p, p.1.2) (λ p, [Num (Z.of_nat p.1.1)] ++ p.2.2) (λ _, Num 0)).
  - apply key_not_suffixed_A.
  - intros p Hp. rewrite length_map.
    by eapply (cross_join_lengths (rows A) (rows B)).
  - rewrite not_elem_of_app. split.
    + by intros ?%list_elem_of_singleton.
    + apply key_not_suffixed_B.
  - intros p Hp. rewrite !length_app, !length_map. cbn [length].
    destruct (cross_join_lengths (rows A) (rows B) (length (columns A)) p)
      as [_ ->]; done.
Qed.

(** X23.  What the in-place columns cost a caller who uses one frame
    twice: after a concat-mode call within A, a concat-mode call on A
    against another frame B returns a table with one more column than the
    _A and _B blocks, the row number that the first call left in A. *)
Theorem leftover_row_number_column
    (f : cell → cell → result cell) (A B : DataFrame)
    (HA : well_formed A) (HB : well_formed B)
    (Hcols : columns B = columns A)
    (Hfree : Forall (λ c, ¬ reserved c) (columns A)) :
  let after_within := (get_pair_data f false 0 None [A; B]).2 in
  (get_pair_data f false 0 (Some 1) after_within).1
  = Ok (mkDF (map suffix_A (columns A)
              ++ "_tmp_row_number" :: map suffix_B (columns A))
          (map (λ p, p.1.2 ++ Num (Z.of_nat p.1.1) :: p.2.2)
               (cross_join (rows A) (rows B)))).
Proof. exact (between_after_within f A B HA HB Hcols Hfree). Qed.

Lemma leftover_row_number_column_witness :
  (get_pair_data np_abs_sub false 0 (Some 1)
     (get_pair_data np_abs_sub false 0 None [group_2; group_1]).2).1
  = Ok (mkDF ["x_A"; "_tmp_row_number"; "x_B"]
          [[Num 10; Num 0; Num 10]; [Num 20; Num 1; Num 10]]).
Proof.
  exact (leftover_row_number_column np_abs_sub group_2 group_1
           ltac:(by repeat constructor) ltac:(by repeat constructor)
           eq_refl
           ltac:(repeat constructor; unfold reserved; intros [?|?]; done)).
Defined.

(** * C8: which tables carry the temporary columns *)







